(** * chrome-still-capture: capture pipeline, transport codec and snapshot store

    A shallow embedding of [extension/background.js] (the capture script,
    the gzip+base64 transport encoding and the upload of a capture), of the
    two revisions of the storage worker (upload, expiry, serving) and of the
    history of the popup, with the properties the specification states about
    them and further properties of the code.

    JavaScript strings are sequences of UTF-16 code units; they are embedded
    as [list N].  Byte arrays ([Uint8Array]) are [list N] too, every element
    below 256.  Code that can throw returns a [result]. *)

From Stdlib Require Import ZArith NArith List String Ascii Lia Bool ZifyNat.
From stdpp Require Import base option list gmap.
From Equations Require Import Equations.
Import ListNotations.

Open Scope N_scope.

Ltac Zify.zify_post_hook ::= Z.to_euclidean_division_equations.

Set Warnings "-register-all".

(** ** JavaScript values used by the code *)

Abbreviation jsstring := (list N).

(** A string literal of the source, as code units. *)
Definition u16 (s : string) : jsstring :=
  List.map N_of_ascii (list_ascii_of_string s).

(** [a.startsWith(p)] *)
Fixpoint startsWith (p s : jsstring) : bool :=
  match p, s with
  | [], _ => true
  | _ :: _, [] => false
  | x :: p', y :: s' => (x =? y) && startsWith p' s'
  end.

(** [a === b] on strings *)
Fixpoint str_eqb (a b : jsstring) : bool :=
  match a, b with
  | [], [] => true
  | x :: a', y :: b' => (x =? y) && str_eqb a' b'
  | _, _ => false
  end.

(** The double quote and the line feed, which the literals of the source
    contain. *)
Definition dquote : jsstring := [34].
Definition newline : jsstring := [10].

(** Truthiness of a string: only the empty string is falsy. *)
Definition truthy (s : jsstring) : bool :=
  match s with [] => false | _ :: _ => true end.

(** [a || b] for a string [a] that may be absent (undefined or null). *)
Definition or_else (a : option jsstring) (b : jsstring) : jsstring :=
  match a with
  | Some s => if truthy s then s else b
  | None => b
  end.

(** A thrown [Error]/[DOMException]: its name and its message. *)
Record exn := Exn { exn_name : jsstring; exn_message : jsstring }.

Inductive result (A : Type) : Type :=
| Return (a : A)
| Throw (e : exn).
Arguments Return {A} a.
Arguments Throw {A} e.

#[global] Instance result_ret : MRet result := fun A a => Return a.

#[global] Instance result_bind : MBind result := fun A B k m =>
  match m with
  | Return a => k a
  | Throw e => Throw e
  end.

(** [try { m } catch (e) { h e }] *)
Definition try_catch {A} (m : result A) (h : exn -> result A) : result A :=
  match m with
  | Return a => Return a
  | Throw e => h e
  end.

(** ** Text encoding: [TextEncoder] and [TextDecoder] (UTF-8)

    Both are platform objects; they are embedded after the Encoding
    standard.  [encode] first turns the string into scalar values (an
    unpaired surrogate becomes U+FFFD) and writes each in UTF-8; [decode]
    (with the default options of [new TextDecoder()]) drops a leading byte
    order mark, replaces every malformed sequence by U+FFFD and returns the
    code units of the scalar values read. *)

Module Encoding.

Definition is_lead (c : N) : bool := (0xD800 <=? c) && (c <=? 0xDBFF).
Definition is_trail (c : N) : bool := (0xDC00 <=? c) && (c <=? 0xDFFF).

(** Code units to scalar values. *)
Fixpoint to_scalars (s : jsstring) : list N :=
  match s with
  | [] => []
  | c :: s' =>
      if is_lead c then
        match s' with
        | d :: s'' =>
            if is_trail d
            then (0x10000 + (c - 0xD800) * 0x400 + (d - 0xDC00)) :: to_scalars s''
            else 0xFFFD :: to_scalars s'
        | [] => [0xFFFD]
        end
      else if is_trail c then 0xFFFD :: to_scalars s'
      else c :: to_scalars s'
  end.

(** One scalar value in UTF-8. *)
Definition utf8_of_scalar (c : N) : list N :=
  if c <? 0x80 then [c]
  else if c <? 0x800 then [0xC0 + c / 64; 0x80 + c mod 64]
  else if c <? 0x10000 then
    [0xE0 + c / 4096; 0x80 + (c / 64) mod 64; 0x80 + c mod 64]
  else
    [0xF0 + c / 262144; 0x80 + (c / 4096) mod 64;
     0x80 + (c / 64) mod 64; 0x80 + c mod 64].

(** [new TextEncoder().encode(str)] *)
Definition encode (str : jsstring) : list N :=
  flat_map utf8_of_scalar (to_scalars str).

(** State of the UTF-8 decoder of the Encoding standard. *)
Record dstate := DState {
  code_point : N;
  bytes_seen : N;
  bytes_needed : N;
  lower_boundary : N;
  upper_boundary : N
}.

Definition dstate0 : dstate := DState 0 0 0 0x80 0xBF.

(** A byte read while no sequence is open: what is emitted, and the state. *)
Definition lead_byte (b : N) : list N * dstate :=
  if b <=? 0x7F then ([b], dstate0)
  else if (0xC2 <=? b) && (b <=? 0xDF) then
    ([], DState (b mod 32) 0 1 0x80 0xBF)
  else if (0xE0 <=? b) && (b <=? 0xEF) then
    ([], DState (b mod 16) 0 2
           (if b =? 0xE0 then 0xA0 else 0x80)
           (if b =? 0xED then 0x9F else 0xBF))
  else if (0xF0 <=? b) && (b <=? 0xF4) then
    ([], DState (b mod 8) 0 3
           (if b =? 0xF0 then 0x90 else 0x80)
           (if b =? 0xF4 then 0x8F else 0xBF))
  else ([0xFFFD], dstate0).

(** One byte of input. A byte outside the boundaries closes the open
    sequence with U+FFFD and is read again as a first byte. *)
Definition decode_byte (st : dstate) (b : N) : list N * dstate :=
  if bytes_needed st =? 0 then lead_byte b
  else if negb ((lower_boundary st <=? b) && (b <=? upper_boundary st)) then
    let '(out, st') := lead_byte b in (0xFFFD :: out, st')
  else
    let cp := code_point st * 64 + b mod 64 in
    if bytes_seen st + 1 =? bytes_needed st
    then ([cp], dstate0)
    else ([], DState cp (bytes_seen st + 1) (bytes_needed st) 0x80 0xBF).

Fixpoint decode_run (st : dstate) (bs : list N) : list N :=
  match bs with
  | [] => if bytes_needed st =? 0 then [] else [0xFFFD]
  | b :: bs' =>
      let '(out, st') := decode_byte st b in out ++ decode_run st' bs'
  end.

(** Scalar values to code units. *)
Definition units_of_scalar (c : N) : jsstring :=
  if c <? 0x10000 then [c]
  else [0xD800 + (c - 0x10000) / 0x400; 0xDC00 + (c - 0x10000) mod 0x400].

(** The byte order mark EF BB BF at the start of the input is skipped. *)
Definition strip_bom (bs : list N) : list N :=
  match bs with
  | a :: b :: c :: r =>
      if (a =? 0xEF) && (b =? 0xBB) && (c =? 0xBF) then r else bs
  | _ => bs
  end.

(** [new TextDecoder().decode(bytes)] *)
Definition decode (bs : list N) : jsstring :=
  flat_map units_of_scalar (decode_run dstate0 (strip_bom bs)).

(** A string is well formed when every code unit has 16 bits and every
    surrogate is half of a pair. *)
Fixpoint well_formed (s : jsstring) : bool :=
  match s with
  | [] => true
  | c :: s' =>
      if is_lead c then
        match s' with
        | d :: s'' => is_trail d && well_formed s''
        | [] => false
        end
      else negb (is_trail c) && (c <? 0x10000) && well_formed s'
  end.

Definition is_scalar (c : N) : Prop :=
  c < 0x110000 /\ ~ (0xD800 <= c <= 0xDFFF).

End Encoding.

(** ** Base64: [btoa] and [atob]

    Platform functions, embedded after the HTML standard (forgiving-base64
    encode and decode). *)

Module Base64.

(** The character of a 6-bit value. *)
Definition b64_char (i : N) : N :=
  if i <? 26 then 65 + i
  else if i <? 52 then 71 + i
  else if i <? 62 then i - 4
  else if i =? 62 then 43
  else 47.

(** The 6-bit value of a character of the alphabet. *)
Definition b64_val (c : N) : option N :=
  if (65 <=? c) && (c <=? 90) then Some (c - 65)
  else if (97 <=? c) && (c <=? 122) then Some (c - 71)
  else if (48 <=? c) && (c <=? 57) then Some (c + 4)
  else if c =? 43 then Some 62
  else if c =? 47 then Some 63
  else None.

Definition pad : N := 61.

Fixpoint encode_bytes (bs : list N) : jsstring :=
  match bs with
  | [] => []
  | [a] => [b64_char (a / 4); b64_char (a mod 4 * 16); pad; pad]
  | [a; b] =>
      [b64_char (a / 4); b64_char (a mod 4 * 16 + b / 16);
       b64_char (b mod 16 * 4); pad]
  | a :: b :: c :: r =>
      b64_char (a / 4) :: b64_char (a mod 4 * 16 + b / 16)
      :: b64_char (b mod 16 * 4 + c / 64) :: b64_char (c mod 64)
      :: encode_bytes r
  end.

Definition InvalidCharacterError : exn :=
  Exn (u16 "InvalidCharacterError") (u16 "The string contains invalid characters.").

(** [btoa(binary)]: throws on a code unit above 0xFF. *)
Definition btoa (binary : jsstring) : result jsstring :=
  if forallb (fun c => c <=? 0xFF) binary
  then Return (encode_bytes binary)
  else Throw InvalidCharacterError.

Definition is_ascii_whitespace (c : N) : bool :=
  (c =? 9) || (c =? 10) || (c =? 12) || (c =? 13) || (c =? 32).

(** Remove one or two trailing [=]. *)
Definition strip_padding (d : jsstring) : jsstring :=
  match rev d with
  | a :: b :: r =>
      if (a =? pad) && (b =? pad) then rev r
      else if a =? pad then rev (b :: r)
      else d
  | [a] => if a =? pad then [] else d
  | [] => d
  end.

Fixpoint values (d : jsstring) : option (list N) :=
  match d with
  | [] => Some []
  | c :: d' =>
      match b64_val c, values d' with
      | Some v, Some vs => Some (v :: vs)
      | _, _ => None
      end
  end.

(** 24 bits per four values; 12 or 18 bits left over lose their last 4 or
    2 bits. *)
Fixpoint decode_values (vs : list N) : list N :=
  match vs with
  | a :: b :: c :: d :: r =>
      let n := ((a * 64 + b) * 64 + c) * 64 + d in
      n / 65536 :: (n / 256) mod 256 :: n mod 256 :: decode_values r
  | [a; b; c] =>
      let n := ((a * 64 + b) * 64 + c) / 4 in [n / 256; n mod 256]
  | [a; b] => [(a * 64 + b) / 16]
  | _ => []
  end.

(** [atob(data)] *)
Definition atob (data : jsstring) : result jsstring :=
  let d := List.filter (fun c => negb (is_ascii_whitespace c)) data in
  let d := if (length d mod 4 =? 0)%nat then strip_padding d else d in
  if (length d mod 4 =? 1)%nat then Throw InvalidCharacterError
  else match values d with
       | Some vs => Return (decode_values vs)
       | None => Throw InvalidCharacterError
       end.

End Base64.

(** ** Transport codec: [compressString] (extension) and [decompressHtml]
    (worker)

    The gzip streams are the platform's; they are parameters here.  A
    stream delivers its output in chunks. *)

Module Codec.

(** [String.fromCharCode.apply(null, chunk)] *)
Definition fromCharCode (chunk : list N) : jsstring :=
  List.map (fun c => c mod 65536) chunk.

(** [arr.subarray(b, e)] *)
Definition subarray (arr : list N) (b e : nat) : list N :=
  take (e - b) (drop b arr).

(** [arr.set(chunk, offset)] on an array that has the room. *)
Definition set_at (arr chunk : list N) (offset : nat) : list N :=
  take offset arr ++ chunk ++ drop (offset + length chunk) arr.

(** Join the chunks read from a stream in one array:
    [totalLength], [new Uint8Array(totalLength)] and the [set] loop. *)
Definition combine (chunks : list (list N)) : list N :=
  let totalLength := fold_left (fun acc chunk => (acc + length chunk)%nat) chunks 0%nat in
  fst (fold_left
         (fun '(arr, offset) chunk => (set_at arr chunk offset, (offset + length chunk)%nat))
         chunks (replicate totalLength 0, 0%nat)).

Definition chunkSize : nat := N.to_nat 32768.

(** The loop [for (let i = 0; i < compressedData.length; i += chunkSize)]. *)
Equations? binary_loop (compressedData : list N) (i : nat) (binary : jsstring)
  : jsstring by wf (length compressedData - i)%nat lt :=
  binary_loop compressedData i binary with lt_dec i (length compressedData) := {
    | left _ =>
        binary_loop compressedData (i + chunkSize)
          (binary ++ fromCharCode (subarray compressedData i (i + chunkSize)));
    | right _ => binary }.
Proof. unfold chunkSize. lia. Qed.

Section Streams.

(** [CompressionStream('gzip')]: the chunks read for the bytes written. *)
Variable gzip : list N -> list (list N).
(** [DecompressionStream('gzip')]: the chunks read, or the error of the
    read when the bytes are no gzip stream. *)
Variable gunzip : list N -> result (list (list N)).

Definition compressString (str : jsstring) : result jsstring :=
  let data := Encoding.encode str in
  let compressedChunks := gzip data in
  let compressedData := combine compressedChunks in
  let binary := binary_loop compressedData 0 [] in
  Base64.btoa binary.

Definition decompressHtml (base64Data : jsstring) : result jsstring :=
  binaryString ← Base64.atob base64Data;
  let bytes := List.map (fun c => c mod 256) binaryString in
  decompressedChunks ← gunzip bytes;
  let combined := combine decompressedChunks in
  Return (Encoding.decode combined).

(** What the code relies on from the platform's gzip streams: the
    compressed chunks hold bytes, and decompressing them delivers the
    bytes that were compressed. *)
Definition lossless : Prop :=
  forall data, Forall (fun b => b < 256) data ->
    Forall (fun b => b < 256) (concat (gzip data)) /\
    exists chunks, gunzip (concat (gzip data)) = Return chunks /\
                   concat chunks = data.

(** The transport of [str]: compressed by the extension, decompressed by
    the worker. *)
Definition transport (str : jsstring) : result jsstring :=
  base64Data ← compressString str; decompressHtml base64Data.

End Streams.

(** A stand-in for the streams, to run the code on examples: the gzip
    magic number in a chunk of its own, then the data as it is. *)
Definition stored_gzip (data : list N) : list (list N) := [[0x1F; 0x8B]; data].

Definition stored_gunzip (bytes : list N) : result (list (list N)) :=
  match bytes with
  | a :: b :: data =>
      if (a =? 0x1F) && (b =? 0x8B) then Return [data]
      else Throw (Exn (u16 "TypeError") (u16 "The compressed data was not valid."))
  | _ => Throw (Exn (u16 "TypeError") (u16 "The compressed data was not valid."))
  end.

End Codec.

(** ** Regular expressions

    The two regular expressions of the code are written with matchers in
    continuation-passing style: a matcher consumes a prefix of the input and
    hands the rest to its continuation; alternatives are tried in the
    backtracking order of the pattern, and the first success is the match. *)

Module Regex.

(** [\s] and the white space [parseInt] skips: WhiteSpace and
    LineTerminator of ECMAScript. *)
Definition is_space (c : N) : bool :=
  ((9 <=? c) && (c <=? 13)) || (c =? 32) || (c =? 0xA0) || (c =? 0x1680)
  || ((0x2000 <=? c) && (c <=? 0x200A)) || (c =? 0x2028) || (c =? 0x2029)
  || (c =? 0x202F) || (c =? 0x205F) || (c =? 0x3000) || (c =? 0xFEFF).

(** [\d] *)
Definition is_digit (c : N) : bool := (48 <=? c) && (c <=? 57).

Section Matchers.
Context {R : Type}.

Definition cont : Type := jsstring -> option R.

(** A literal. *)
Definition lit (l : jsstring) (k : cont) : cont := fun s =>
  if startsWith l s then k (drop (length l) s) else None.

(** One character of a class, captured. *)
Definition char (p : N -> bool) (k : N -> cont) : cont := fun s =>
  match s with
  | c :: s' => if p c then k c s' else None
  | [] => None
  end.

(** [x?], greedy. *)
Definition opt (p : N -> bool) (k : cont) : cont := fun s =>
  match s with
  | c :: s' =>
      if p c then match k s' with Some r => Some r | None => k s end else k s
  | [] => k s
  end.

(** [x*], greedy. *)
Fixpoint star (p : N -> bool) (k : cont) (s : jsstring) : option R :=
  match s with
  | c :: s' =>
      if p c then match star p k s' with Some r => Some r | None => k s end
      else k s
  | [] => k s
  end.

(** [(x+)], greedy, captured: [acc] is what the group holds so far. *)
Fixpoint more_greedy (p : N -> bool) (k : jsstring -> cont)
    (acc : jsstring) (s : jsstring) : option R :=
  match s with
  | c :: s' =>
      if p c then
        match more_greedy p k (acc ++ [c]) s' with
        | Some r => Some r
        | None => k acc s
        end
      else k acc s
  | [] => k acc s
  end.

Definition plus_greedy (p : N -> bool) (k : jsstring -> cont) : cont := fun s =>
  match s with
  | c :: s' => if p c then more_greedy p k [c] s' else None
  | [] => None
  end.

(** [(x+?)], lazy, captured. *)
Fixpoint more_lazy (p : N -> bool) (k : jsstring -> cont)
    (acc : jsstring) (s : jsstring) : option R :=
  match k acc s with
  | Some r => Some r
  | None =>
      match s with
      | c :: s' => if p c then more_lazy p k (acc ++ [c]) s' else None
      | [] => None
      end
  end.

Definition plus_lazy (p : N -> bool) (k : jsstring -> cont) : cont := fun s =>
  match s with
  | c :: s' => if p c then more_lazy p k [c] s' else None
  | [] => None
  end.

(** [$] *)
Definition eos (r : R) : cont := fun s =>
  match s with [] => Some r | _ :: _ => None end.

End Matchers.

End Regex.

(** ** Snapshot store: what both revisions of the worker share

    [parseExpiration], [generateId], [corsHeaders] and [handleServe] are
    the same text in both revisions. *)

Module Store.

(** A string the worker handles: the ISO 8601 text ([toISOString]) of an
    instant given in milliseconds since the epoch, which [new Date(text)]
    reads back, or other text [Str], which is no date. *)
Inductive text :=
| Str (s : jsstring)
| Iso (ms : Z).

Inductive jsval :=
| VNull
| VText (t : text).

(** [customMetadata] of a stored object; a field may be missing. *)
Record metadata := Metadata {
  m_title : option jsstring;
  m_sourceUrl : option jsstring;
  m_createdAt : option Z;
  m_expiresAt : option jsval
}.

(** An object of the bucket [env.SNAPSHOTS]. *)
Record object := Object {
  o_body : jsstring;
  o_contentType : jsstring;
  o_customMetadata : option metadata
}.

Inductive payload :=
| NoBody
| Text (s : jsstring)
| Json (fields : list (jsstring * jsval)).

Record response := Response {
  status : N;
  headers : list (jsstring * text);
  r_body : payload
}.

(** The body of an upload request, at the type of the upload interface;
    an absent field is [None]. *)
Record body := Body {
  b_html : option jsstring;
  b_compressed : bool;
  b_title : option jsstring;
  b_sourceUrl : option jsstring;
  b_expiresIn : option jsstring
}.

(** A request. [request.url] is [origin], the scheme and host, then
    [pathname], then [search]: nothing, or a question mark and the query. *)
Record request := Request {
  method : jsstring;
  origin : jsstring;
  pathname : jsstring;
  search : jsstring;
  contentLength : option jsstring;  (* [headers.get('Content-Length')] *)
  json : result body                (* [await request.json()] *)
}.

(** What a request reads from outside: the clock at [Date.now()] in
    [parseExpiration], the clock at [new Date()] in the handler, the eight
    values [Math.floor(Math.random() * chars.length)], and the verdict of
    the bucket on a [put]: the error it raises when it rejects the object
    (a value or metadata beyond its limits), if it does. *)
Record env := Env {
  now_expiration : Z;
  now_handler : Z;
  draws : nat -> N;
  put_error : jsstring -> object -> option exn
}.

Definition chars : jsstring :=
  u16 "abcdefghijklmnopqrstuvwxyzABCDEFGHIJKLMNOPQRSTUVWXYZ0123456789".

(** [Math.random()] is below 1, so the index is below [chars.length]. *)
Definition generateId (e : env) : jsstring :=
  List.map (fun i => nth (N.to_nat (draws e i mod 62)) chars 0) (seq 0 8).

Definition digit_value (c : N) : option N :=
  if (48 <=? c) && (c <=? 57) then Some (c - 48)
  else if (97 <=? c) && (c <=? 122) then Some (c - 87)
  else if (65 <=? c) && (c <=? 90) then Some (c - 55)
  else None.

(** The longest prefix of digits of radix [R], as a number; [acc] is
    [None] until a digit is read. *)
Fixpoint parse_digits (R : N) (acc : option N) (s : jsstring) : option N :=
  match s with
  | c :: s' =>
      match digit_value c with
      | Some d =>
          if d <? R then parse_digits R (Some (default 0 acc * R + d)) s'
          else acc
      | None => acc
      end
  | [] => acc
  end.

Fixpoint skip_spaces (s : jsstring) : jsstring :=
  match s with
  | c :: s' => if Regex.is_space c then skip_spaces s' else s
  | [] => []
  end.

(** [parseInt(s, radix)]; [None] is [NaN] and [radix = None] is a call
    without radix. The value is exact here; the code only compares it with
    numbers that a double holds exactly (see [parseExpiration]). *)
Definition parseInt (s : jsstring) (radix : option N) : option Z :=
  let s1 := skip_spaces s in
  let '(neg, s2) :=
    match s1 with
    | 45 :: r => (true, r)
    | 43 :: r => (false, r)
    | _ => (false, s1)
    end in
  let R := match radix with Some r => if r =? 0 then 10 else r | None => 10 end in
  let stripPrefix := match radix with
                     | Some r => (r =? 0) || (r =? 16)
                     | None => true
                     end in
  if (R <? 2) || (36 <? R) then None
  else
    let '(R, s3) :=
      if stripPrefix && (startsWith (u16 "0x") s2 || startsWith (u16 "0X") s2)
      then (16, drop 2 s2) else (R, s2) in
    match parse_digits R None s3 with
    | Some n => Some (if neg then - Z.of_N n else Z.of_N n)%Z
    | None => None
    end.

Definition multipliers (unit : N) : option Z :=
  if unit =? 109 then Some (60 * 1000)%Z            (* m *)
  else if unit =? 104 then Some (60 * 60 * 1000)%Z  (* h *)
  else if unit =? 100 then Some (24 * 60 * 60 * 1000)%Z  (* d *)
  else None.

(** [/^(\d+)([dhm])$/] *)
Definition expiration_re : jsstring -> option (jsstring * N) :=
  Regex.plus_greedy Regex.is_digit (fun g1 =>
  Regex.char (fun c => (c =? 100) || (c =? 104) || (c =? 109)) (fun g2 =>
  Regex.eos (g1, g2))).

(** The largest time value of a [Date]; beyond it the date is invalid. *)
Definition max_time : Z := 8640000000000000.

Definition RangeError : exn := Exn (u16 "RangeError") (u16 "Invalid time value").

(** [new Date(tv).toISOString()]: throws on an invalid date. *)
Definition toISOString (tv : option Z) : result jsval :=
  match tv with
  | Some t =>
      if (Z.abs t <=? max_time)%Z then Return (VText (Iso t)) else Throw RangeError
  | None => Throw RangeError
  end.

(** [parseExpiration(expiresIn)] with [Date.now() = now].

    The numbers are doubles in the code and integers here. With
    [0 <= now < 2^53] the two agree: when the exact sum is at most
    [max_time] (which is below [2^53]) every intermediate value is an integer
    a double holds exactly; when it is larger, rounding is monotone and
    [max_time] is a double, so the computed sum is larger too, and the date
    is invalid either way. *)
Definition parseExpiration (now : Z) (expiresIn : option jsstring) : result jsval :=
  match expiresIn with
  | None => Return VNull
  | Some expiresIn =>
      if negb (truthy expiresIn) || str_eqb expiresIn (u16 "never")
      then Return VNull
      else
        match expiration_re expiresIn with
        | None => Return VNull
        | Some (g1, g2) =>
            let value := parseInt g1 (Some 10) in
            let unit := g2 in
            toISOString
              (match value, multipliers unit with
               | Some value, Some m => Some (now + value * m)%Z
               | _, _ => None
               end)
        end
  end.

Definition corsHeaders : list (jsstring * text) :=
  [(u16 "Access-Control-Allow-Origin", Str (u16 "*"));
   (u16 "Access-Control-Allow-Methods", Str (u16 "GET, POST, OPTIONS"));
   (u16 "Access-Control-Allow-Headers", Str (u16 "Content-Type"))].

Definition json_response (st : N) (fields : list (jsstring * jsval)) : response :=
  Response st ((u16 "Content-Type", Str (u16 "application/json")) :: corsHeaders)
    (Json fields).

Definition error_response (st : N) (message : jsstring) : response :=
  json_response st [(u16 "error", VText (Str message))].

Definition text_response (st : N) (message : jsstring) : response :=
  Response st [] (Text message).

(** Truthiness of an optional metadata field holding a string. *)
Definition field_truthy (f : option jsstring) : bool :=
  match f with Some s => truthy s | None => false end.

(** HTTP white space: tab, line feed, carriage return, space. *)
Definition is_http_whitespace (c : N) : bool :=
  (c =? 9) || (c =? 10) || (c =? 13) || (c =? 32).

Fixpoint strip_leading (s : jsstring) : jsstring :=
  match s with
  | c :: s' => if is_http_whitespace c then strip_leading s' else s
  | [] => []
  end.

(** A header value without its leading and trailing HTTP white space. *)
Definition normalize (value : jsstring) : jsstring :=
  rev (strip_leading (rev (strip_leading value))).

Definition TypeError : exn := Exn (u16 "TypeError") (u16 "Invalid header value.").

(** The value that [headers.set(name, value)] stores for a valid name, after
    the Fetch standard: the value is a byte string (no code unit above
    0xFF), it is normalized, and it is refused with a [TypeError] when it
    then holds a NUL, a line feed or a carriage return. The text of a
    timestamp is ASCII without white space. *)
Definition header_value (value : text) : result text :=
  match value with
  | Iso t => Return (Iso t)
  | Str s =>
      if forallb (fun c => c <=? 0xFF) s
      then
        let v := normalize s in
        if forallb (fun c => negb ((c =? 0) || (c =? 10) || (c =? 13))) v
        then Return (Str v)
        else Throw TypeError
      else Throw TypeError
  end.

(** [handleServe(request, env, id)] at the instant [now]. The bucket is
    taken to answer every [get] and [delete]; what can throw inside the
    [try] is [headers.set]. *)
Definition handleServe (now : Z) (id : jsstring) (SNAPSHOTS : gmap jsstring object)
  : response * gmap jsstring object :=
  match SNAPSHOTS !! id with
  | None => (text_response 404 (u16 "Snapshot not found"), SNAPSHOTS)
  | Some object =>
      let metadata := default (Metadata None None None None) (o_customMetadata object) in
      let expiry :=
        match m_expiresAt metadata with
        | Some (VText (Iso t)) => Some (Iso t, Some t)
        | Some (VText (Str s)) => if truthy s then Some (Str s, None) else None
        | Some VNull | None => None
        end in
      let expired :=
        match expiry with
        | Some (_, Some expiresAt) => (expiresAt <? now)%Z
        | _ => false
        end in
      if expired
      then (text_response 410 (u16 "Snapshot has expired"), delete id SNAPSHOTS)
      else
        let attempt : result (list (jsstring * text)) :=
          let headers :=
            [(u16 "Content-Type", Str (u16 "text/html; charset=utf-8"));
             (u16 "Cache-Control", Str (u16 "public, max-age=3600"))] in
          headers ←
            match expiry with
            | Some (t, _) =>
                v ← header_value t; Return (headers ++ [(u16 "X-Expires-At", v)])
            | None => Return headers
            end;
          if field_truthy (m_sourceUrl metadata)
          then
            v ← header_value (Str (default [] (m_sourceUrl metadata)));
            Return (headers ++ [(u16 "X-Source-Url", v)])
          else Return headers
        in
        match attempt with
        | Return headers => (Response 200 headers (Text (o_body object)), SNAPSHOTS)
        | Throw err => (text_response 500 (u16 "Error retrieving snapshot"), SNAPSHOTS)
        end
  end.

(** [contentLength && parseInt(contentLength) > MAX_SIZE] *)
Definition declared_too_large (MAX_SIZE : Z) (contentLength : option jsstring) : bool :=
  match contentLength with
  | Some h =>
      truthy h &&
      match parseInt h None with
      | Some n => (MAX_SIZE <? n)%Z
      | None => false
      end
  | None => false
  end.

(** The metadata [handleUpload] builds. *)
Definition upload_metadata (e : env) (b : body) (expiresAt : jsval) : metadata :=
  {| m_title := Some (or_else (b_title b) (u16 "Untitled"));
     m_sourceUrl := Some (or_else (b_sourceUrl b) []);
     m_createdAt := Some (now_handler e);
     m_expiresAt := Some expiresAt |}.

(** The answer to a successful upload. Its [url] is [request.url] with
    the path replaced by the identifier; the query stays. *)
Definition uploaded (request : request) (id : jsstring) (expiresAt : jsval) : response :=
  json_response 200
    [(u16 "id", VText (Str id));
     (u16 "url", VText (Str (origin request ++ u16 "/" ++ id ++ search request)));
     (u16 "expiresAt", expiresAt)].

End Store.

(** ** The worker that stores the page as it is sent *)

Module WorkerPlain.
Import Store.

Definition MAX_SIZE : Z := 10 * 1024 * 1024.

Definition handleUpload (e : env) (request : request) (SNAPSHOTS : gmap jsstring object)
  : response * gmap jsstring object :=
  let attempt : result (response * gmap jsstring object) :=
    if declared_too_large MAX_SIZE (contentLength request)
    then Return (error_response 413 (u16 "Content too large"), SNAPSHOTS)
    else
      body ← json request;
      if negb (field_truthy (b_html body))
      then Return (error_response 400 (u16 "Missing html content"), SNAPSHOTS)
      else
        let html := default [] (b_html body) in
        if (MAX_SIZE <? Z.of_nat (length (Encoding.encode html)))%Z
        then Return (error_response 413 (u16 "Content too large"), SNAPSHOTS)
        else
          let id := generateId e in
          expiresAt ← parseExpiration (now_expiration e) (b_expiresIn body);
          let metadata := upload_metadata e body expiresAt in
          let object := Object html (u16 "text/html; charset=utf-8") (Some metadata) in
          match put_error e id object with
          | Some err => Throw err
          | None => Return (uploaded request id expiresAt, <[id := object]> SNAPSHOTS)
          end
  in
  match attempt with
  | Return r => r
  | Throw err =>
      (error_response 500 (u16 "Upload failed: " ++ exn_message err), SNAPSHOTS)
  end.

Definition fetch (e : env) (request : request) (SNAPSHOTS : gmap jsstring object)
  : response * gmap jsstring object :=
  if str_eqb (method request) (u16 "OPTIONS")
  then (Response 200 corsHeaders NoBody, SNAPSHOTS)
  else if str_eqb (method request) (u16 "POST")
          && str_eqb (pathname request) (u16 "/api/upload")
  then handleUpload e request SNAPSHOTS
  else if str_eqb (method request) (u16 "GET") && (1 <? length (pathname request))%nat
  then handleServe (now_handler e) (drop 1 (pathname request)) SNAPSHOTS
  else (text_response 404 (u16 "Not Found"), SNAPSHOTS).

End WorkerPlain.

(** ** The worker that accepts a compressed page *)

Module Worker.
Import Store.

Definition MAX_SIZE : Z := 50 * 1024 * 1024.

Section Streams.
Variable gunzip : list N -> result (list (list N)).

Definition handleUpload (e : env) (request : request) (SNAPSHOTS : gmap jsstring object)
  : response * gmap jsstring object :=
  let attempt : result (response * gmap jsstring object) :=
    if declared_too_large MAX_SIZE (contentLength request)
    then Return (error_response 413 (u16 "Content too large"), SNAPSHOTS)
    else
      body ← json request;
      if negb (field_truthy (b_html body))
      then Return (error_response 400 (u16 "Missing html content"), SNAPSHOTS)
      else
        let html := default [] (b_html body) in
        let decompressed :=
          if b_compressed body then Codec.decompressHtml gunzip html else Return html in
        match decompressed with
        | Throw err =>
            Return (error_response 400 (u16 "Failed to decompress: " ++ exn_message err),
                    SNAPSHOTS)
        | Return finalHtml =>
            let id := generateId e in
            expiresAt ← parseExpiration (now_expiration e) (b_expiresIn body);
            let metadata := upload_metadata e body expiresAt in
            let object :=
              Object finalHtml (u16 "text/html; charset=utf-8") (Some metadata) in
            match put_error e id object with
            | Some err => Throw err
            | None => Return (uploaded request id expiresAt, <[id := object]> SNAPSHOTS)
            end
        end
  in
  match attempt with
  | Return r => r
  | Throw err =>
      (error_response 500 (u16 "Upload failed: " ++ exn_message err), SNAPSHOTS)
  end.

Definition fetch (e : env) (request : request) (SNAPSHOTS : gmap jsstring object)
  : response * gmap jsstring object :=
  if str_eqb (method request) (u16 "OPTIONS")
  then (Response 200 corsHeaders NoBody, SNAPSHOTS)
  else if str_eqb (method request) (u16 "POST")
          && str_eqb (pathname request) (u16 "/api/upload")
  then handleUpload e request SNAPSHOTS
  else if str_eqb (method request) (u16 "GET") && (1 <? length (pathname request))%nat
  then handleServe (now_handler e) (drop 1 (pathname request)) SNAPSHOTS
  else (text_response 404 (u16 "Not Found"), SNAPSHOTS).

End Streams.

End Worker.

(** ** The capture script: what it reads from the page and the network *)

Module Page.

(** A [Blob]: its type, its bytes, and whether a [FileReader] can read
    it. *)
Record blob := Blob {
  blob_type : jsstring;
  blob_bytes : list N;
  readable : bool
}.

(** A [Response]: [ok], and what [blob()] and [text()] resolve to. *)
Record response := Response {
  ok : bool;
  r_blob : result blob;
  r_text : result jsstring
}.

Inductive rule :=
| ImportRule (cssText : jsstring) (styleSheet : option nat)
| StyleRule (cssText : jsstring).

(** A [CSSStyleSheet]; reading the rules of a cross-origin sheet throws. *)
Record sheet := Sheet {
  href : option jsstring;
  cssRules : result (list rule)
}.

(** The page and the network. [new_URL url base] is [new URL(url, base).href],
    which throws on a malformed URL. [fetch] rejects on a network or CORS
    error and when the timeout aborts it. Style sheets are named by numbers,
    so that imports may form any graph; [styleSheets] are those of the
    document and [styles] the texts of its style elements. [render] stands
    for the work on the clone (sanitizing, inlining, adding the style text,
    serializing): the [outerHTML] it ends with, or the exception it
    raises. *)
Record world := World {
  location_href : jsstring;
  document_title : jsstring;
  new_URL : jsstring -> jsstring -> result jsstring;
  fetch : jsstring -> result response;
  sheets : nat -> sheet;
  styleSheets : list nat;
  styles : list jsstring;
  render : jsstring -> result jsstring
}.

(** [reader.readAsDataURL(blob)]: the result at [loadend], null after an
    error. *)
Definition readAsDataURL (b : blob) : option jsstring :=
  if readable b
  then Some (u16 "data:" ++ blob_type b ++ u16 ";base64,"
             ++ Base64.encode_bytes (blob_bytes b))
  else None.

(** [fetchAsDataUrl(url, baseUrl)]: the requests it sends, and its
    outcome. *)
Definition fetchAsDataUrl (w : world) (url : jsstring) (baseUrl : option jsstring)
  : list jsstring * result (option jsstring) :=
  match new_URL w url (or_else baseUrl (location_href w)) with
  | Throw _ => ([], Return None)
  | Return absoluteUrl =>
      if startsWith (u16 "data:") absoluteUrl then ([], Return (Some absoluteUrl))
      else
        ([absoluteUrl],
         try_catch
           (try_catch
              (response ← fetch w absoluteUrl;
               if negb (ok response) then Return None
               else
                 blob ← r_blob response;
                 if (length (blob_bytes blob) =? 0)%nat then Return None
                 else Return (readAsDataURL blob))
              (fun e => Return None))
           (fun e => Return None))
  end.

(** A single or a double quote. *)
Definition is_quote (c : N) : bool := (c =? 39) || (c =? 34).

(** The regular expression of [processCssUrls]: [url(], white space, an
    optional quote, the group (one or more characters that are neither a
    quote nor a closing parenthesis, as few as possible), an optional quote,
    white space, and the closing parenthesis. The result is the group and
    what follows the match. *)
Definition url_re : jsstring -> option (jsstring * jsstring) :=
  Regex.lit (u16 "url(") (
  Regex.star Regex.is_space (
  Regex.opt is_quote (
  Regex.plus_lazy (fun c => negb (is_quote c || (c =? 41))) (fun g1 =>
  Regex.opt is_quote (
  Regex.star Regex.is_space (
  Regex.lit (u16 ")") (fun rest => Some (g1, rest)))))))).

(** [[...cssText.matchAll(urlRegex)].map(m => m[1])]: the matches from left
    to right; [skip] is the number of characters still inside the last
    match. *)
Fixpoint matchAll (skip : nat) (cssText : jsstring) : list jsstring :=
  match cssText with
  | [] => []
  | _ :: rest =>
      match skip with
      | S n => matchAll n rest
      | O =>
          match url_re cssText with
          | Some (g1, after) =>
              g1 :: matchAll (length cssText - length after - 1) rest
          | None => matchAll 0 rest
          end
      end
  end.

(** [[...new Set(l)]] *)
Fixpoint unique (seen l : list jsstring) : list jsstring :=
  match l with
  | [] => []
  | x :: l' =>
      if existsb (str_eqb x) seen then unique seen l'
      else x :: unique (x :: seen) l'
  end.

(** [s.split(sep)] for a separator that is not empty; [cur] is the piece
    being read, reversed. *)
Fixpoint split_from (sep : jsstring) (skip : nat) (cur : jsstring) (s : jsstring)
  : list jsstring :=
  match s with
  | [] => [rev cur]
  | c :: s' =>
      match skip with
      | S n => split_from sep n cur s'
      | O =>
          if startsWith sep s
          then rev cur :: split_from sep (length sep - 1) [] s'
          else split_from sep 0 (c :: cur) s'
      end
  end.

Definition split (sep s : jsstring) : list jsstring :=
  match sep with
  | [] => List.map (fun c => [c]) s
  | _ :: _ => split_from sep 0 [] s
  end.

(** [parts.join(sep)] *)
Fixpoint join (sep : jsstring) (parts : list jsstring) : jsstring :=
  match parts with
  | [] => []
  | [p] => p
  | p :: parts' => p ++ sep ++ join sep parts'
  end.

(** The body of the loop over [urlMap]. *)
Definition replace_url (result : jsstring) (entry : jsstring * jsstring) : jsstring :=
  let '(originalUrl, dataUrl) := entry in
  let inlined := u16 "url(" ++ dquote ++ dataUrl ++ dquote ++ u16 ")" in
  let result :=
    join inlined (split (u16 "url(" ++ dquote ++ originalUrl ++ dquote ++ u16 ")") result) in
  let result := join inlined (split (u16 "url('" ++ originalUrl ++ u16 "')") result) in
  let result := join inlined (split (u16 "url(" ++ originalUrl ++ u16 ")") result) in
  result.

(** A loop whose body may throw. *)
Fixpoint for_each {A B : Type} (f : B -> A -> result B) (l : list A) (b : B)
  : result B :=
  match l with
  | [] => Return b
  | a :: l' => b' ← f b a; for_each f l' b'
  end.

(** [await Promise.all(uniqueUrls.map(async (originalUrl) => ...))]: the
    entries of [urlMap]. The fetches run concurrently; they are taken to
    settle in the order they were started, which is then the order of
    [urlMap]. *)
Definition fetch_all (w : world) (baseUrl : jsstring) (uniqueUrls : list jsstring)
  : result (list (jsstring * jsstring)) :=
  for_each
    (fun urlMap originalUrl =>
       dataUrl ← (fetchAsDataUrl w originalUrl (Some baseUrl)).2;
       match dataUrl with
       | Some dataUrl =>
           if truthy dataUrl then Return (urlMap ++ [(originalUrl, dataUrl)])
           else Return urlMap
       | None => Return urlMap
       end)
    uniqueUrls [].

(** [processCssUrls(cssText, baseUrl)] *)
Definition processCssUrls (w : world) (cssText : jsstring) (baseUrl : jsstring)
  : result jsstring :=
  let matches := matchAll 0 cssText in
  if (length matches =? 0)%nat then Return cssText
  else
    let uniqueUrls :=
      unique [] (List.filter
                   (fun u => negb (startsWith (u16 "data:") u)
                             && negb (startsWith (u16 "#") u)) matches) in
    urlMap ← fetch_all w baseUrl uniqueUrls;
    Return (fold_left replace_url urlMap cssText).

(** The fallback of [processStyleSheet] for a sheet whose rules cannot be
    read. *)
Definition fetch_sheet (w : world) (sheet : sheet) : result jsstring :=
  match href sheet with
  | Some href =>
      if truthy href
      then
        try_catch
          (response ← fetch w href;
           if ok response
           then cssText ← r_text response; processCssUrls w cssText href
           else Return [])
          (fun e2 => Return [])
      else Return []
  | None => Return []
  end.

(** [processStyleSheet(sheet, depth)] *)
Equations? processStyleSheet (w : world) (sheet : nat) (depth : nat)
  : result jsstring by wf (6 - depth)%nat lt :=
  processStyleSheet w sheet depth with lt_dec 5 depth := {
    | left _ => Return [];
    | right _ =>
        let baseUrl := or_else (href (sheets w sheet)) (location_href w) in
        try_catch
          (rules ← cssRules (sheets w sheet);
           cssText ← for_each
             (fun cssText rule =>
                match rule with
                | ImportRule _ (Some styleSheet) =>
                    imported ← processStyleSheet w styleSheet (depth + 1);
                    Return (cssText ++ imported)
                | ImportRule ruleText None | StyleRule ruleText =>
                    Return (cssText ++ ruleText ++ newline)
                end)
             rules [];
           processCssUrls w cssText baseUrl)
          (fun e => fetch_sheet w (sheets w sheet)) }.
Proof. lia. Qed.

(** [await Promise.all(promises)] *)
Fixpoint all {A : Type} (promises : list (result A)) : result (list A) :=
  match promises with
  | [] => Return []
  | p :: ps => a ← p; as' ← all ps; Return (a :: as')
  end.

(** [getAllStylesheetCSS()] *)
Definition getAllStylesheetCSS (w : world) : result jsstring :=
  let cssPromises :=
    List.map (fun sheet => processStyleSheet w sheet 0) (styleSheets w)
    ++ List.map (fun style => processCssUrls w style (location_href w))
         (List.filter truthy (styles w)) in
  cssTexts ← all cssPromises;
  Return (join newline (List.filter truthy cssTexts)).

(** The object the capture script returns. *)
Record CaptureResult := {
  success : bool;
  html : option jsstring;
  title : option jsstring;
  sourceUrl : option jsstring;
  error : option jsstring
}.

(** The main [try] of [capturePageSnapshot] and its [catch]. *)
Definition capturePageSnapshot (w : world) : result CaptureResult :=
  try_catch
    (allCSS ← getAllStylesheetCSS w;
     outerHTML ← render w allCSS;
     let html := u16 "<!DOCTYPE html>" ++ newline ++ outerHTML in
     Return {| success := true;
               html := Some html;
               title := Some (document_title w);
               sourceUrl := Some (location_href w);
               error := None |})
    (fun error =>
       Return {| success := false;
                 html := None;
                 title := None;
                 sourceUrl := None;
                 error := Some (if truthy (exn_message error)
                                then exn_message error
                                else u16 "Capture failed") |}).

End Page.

(** ** The clone of the document, and [removeScripts] *)

Module Dom.

(** A node of the tree: an element with its local name, its attributes by
    name and its children, or text. *)
Inductive node :=
| Element (localName : jsstring) (attributes : gmap jsstring jsstring)
    (childNodes : list node)
| TextNode (data : jsstring).

(** The selector [script, noscript]. *)
Definition is_script (localName : jsstring) : bool :=
  str_eqb localName (u16 "script") || str_eqb localName (u16 "noscript").

(** [doc.querySelectorAll('script, noscript').forEach(el => el.remove())] *)
Fixpoint remove_scripts (n : node) : list node :=
  match n with
  | Element localName attributes childNodes =>
      if is_script localName then []
      else [Element localName attributes (flat_map remove_scripts childNodes)]
  | TextNode data => [TextNode data]
  end.

(** The test on an attribute. *)
Definition to_remove (name value : jsstring) : bool :=
  startsWith (u16 "on") name
  || (str_eqb name (u16 "href") && startsWith (u16 "javascript:") value).

(** [[...el.attributes].forEach(attr => { if (...) el.removeAttribute(attr.name) })] *)
Definition strip_attributes (attributes : gmap jsstring jsstring)
  : gmap jsstring jsstring :=
  fold_left
    (fun attrs '(name, value) =>
       if to_remove name value then delete name attrs else attrs)
    (map_to_list attributes) attributes.

(** [doc.querySelectorAll('*').forEach(el => ...)] *)
Fixpoint strip_elements (n : node) : node :=
  match n with
  | Element localName attributes childNodes =>
      Element localName (strip_attributes attributes)
        (List.map strip_elements childNodes)
  | TextNode data => TextNode data
  end.

(** [removeScripts(doc)], on the children of the document. *)
Definition removeScripts (doc : list node) : list node :=
  List.map strip_elements (flat_map remove_scripts doc).

End Dom.

(** ** Inline styles of the clone *)

Module Inline.
Import Page Dom.

(** [s.includes(t)], the test of the selector [[style*="url"]]. *)
Fixpoint includes (t s : jsstring) : bool :=
  startsWith t s || match s with
                    | [] => false
                    | _ :: s' => includes t s'
                    end.

(** The body of the loop of [processInlineBackgrounds] on an element the
    selector may match. *)
Definition inline_style (w : world) (attributes : gmap jsstring jsstring)
  : result (gmap jsstring jsstring) :=
  match attributes !! u16 "style" with
  | Some style =>
      if includes (u16 "url") style && truthy style
      then
        cssText ← processCssUrls w style (location_href w);
        Return (<[u16 "style" := cssText]> attributes)
      else Return attributes
  | None => Return attributes
  end.

(** [processInlineBackgrounds] below a node, in document order. *)
Fixpoint inline_node (w : world) (n : node) : result node :=
  match n with
  | Element localName attributes childNodes =>
      attributes' ← inline_style w attributes;
      childNodes' ← (fix inline_nodes (l : list node) : result (list node) :=
                       match l with
                       | [] => Return []
                       | c :: l' =>
                           c' ← inline_node w c;
                           l'' ← inline_nodes l';
                           Return (c' :: l'')
                       end) childNodes;
      Return (Element localName attributes' childNodes')
  | TextNode data => Return (TextNode data)
  end.

(** [processInlineBackgrounds(doc)], on the children of the document. *)
Fixpoint processInlineBackgrounds (w : world) (doc : list node) : result (list node) :=
  match doc with
  | [] => Return []
  | n :: doc' =>
      n' ← inline_node w n;
      doc'' ← processInlineBackgrounds w doc';
      Return (n' :: doc'')
  end.

End Inline.

(** ** The background script: capture, compress, upload *)

Module Background.
Import Store.

Definition API_URL : jsstring := u16 "https://page-snapshot.i-f17.workers.dev".

(** [new Error(message)] *)
Definition Error (message : jsstring) : exn := Exn (u16 "Error") message.

(** The answer to the upload as [handleCapture] reads it: [ok], and what
    [text()] and [json()] resolve to. *)
Record upload_response := UploadResponse {
  u_ok : bool;
  u_text : result jsstring;
  u_json : result (list (jsstring * jsval))
}.

Section Capture.

(** [CompressionStream('gzip')], as in [Codec]. *)
Variable gzip : list N -> list (list N).
(** [chrome.scripting.executeScript(...)]: the injection results, each with
    the [result] of the capture script, which may be missing; or the
    rejection. *)
Variable executeScript : result (option (list (option Page.CaptureResult))).
(** [fetch] as the server sees the request, and the [Content-Length]
    header that the platform sends with the body. *)
Variable fetch : request -> result upload_response.
Variable declared : option jsstring.

(** The request of [handleCapture]: a POST of the JSON text of an object
    with [html], [compressed], [title], [sourceUrl] and [expiresIn], where
    a field that is undefined is left out. *)
Definition upload_request (compressedHtml : jsstring) (result : Page.CaptureResult)
    (expiration : option jsstring) : request :=
  {| method := u16 "POST";
     origin := API_URL;
     pathname := u16 "/api/upload";
     search := [];
     contentLength := declared;
     json := Return {| b_html := Some compressedHtml;
                       b_compressed := true;
                       b_title := Page.title result;
                       b_sourceUrl := Page.sourceUrl result;
                       b_expiresIn := expiration |} |}.

(** [handleCapture(tabId, expiration)]: the requests it sends, and its
    outcome. The line it logs is left out. *)
Definition handleCapture (expiration : option jsstring)
  : list request * result (list (jsstring * jsval)) :=
  match executeScript with
  | Throw err => ([], Throw err)
  | Return None | Return (Some []) =>
      ([], Throw (Error (u16 "Failed to execute capture script")))
  | Return (Some (None :: _)) => ([], Throw (Error (u16 "Capture failed")))
  | Return (Some (Some result :: _)) =>
      if negb (Page.success result)
      then ([], Throw (Error (or_else (Page.error result) (u16 "Capture failed"))))
      else
        match Codec.compressString gzip (default [] (Page.html result)) with
        | Throw err => ([], Throw err)
        | Return compressedHtml =>
            let request := upload_request compressedHtml result expiration in
            ([request],
             response ← fetch request;
             if negb (u_ok response)
             then text ← u_text response; Throw (Error (u16 "Upload failed: " ++ text))
             else u_json response)
        end
  end.

(** What the listener passes to [sendResponse]. *)
Inductive reply :=
| Answer (fields : list (jsstring * jsval))
| Failure (error : jsstring).

(** The listener of [chrome.runtime.onMessage]: the reply to a message
    with the given [action], if it sends one. *)
Definition onMessage (action : jsstring) (expiration : option jsstring) : option reply :=
  if str_eqb action (u16 "capture")
  then Some match (handleCapture expiration).2 with
            | Return answer => Answer answer
            | Throw err => Failure (exn_message err)
            end
  else None.

End Capture.

End Background.

(** ** The popup: the history of snapshots *)

Module Popup.

Section History.

(** An entry of the history; the functions below do not look inside. *)
Variable item : Type.

(** [getHistory()], where [storage] is the value stored under
    [STORAGE_KEY], if any. The storage is taken to answer every [get] and
    [set]. *)
Definition getHistory (storage : option (list item)) : list item :=
  match storage with
  | Some history => history   (* an array is truthy, also when empty *)
  | None => []
  end.

(** [saveToHistory(item)]: the value stored afterwards. *)
Definition saveToHistory (storage : option (list item)) (i : item) : option (list item) :=
  let history := getHistory storage in
  let history := i :: history in                        (* unshift *)
  let history := if (50 <? length history)%nat then removelast history else history in
  Some history.

(** [clearHistory()]: the value stored afterwards. *)
Definition clearHistory (storage : option (list item)) : option (list item) := Some [].

End History.

Arguments getHistory {item} storage.
Arguments saveToHistory {item} storage i.
Arguments clearHistory {item} storage.

(** What [formatDate] shows. [LocaleDate] is [date.toLocaleDateString()],
    which depends on the locale; its argument is the time value of the
    date, or [None] for an invalid date. *)
Inductive label :=
| JustNow
| MinutesAgo (diffMins : Z)
| HoursAgo (diffHours : Z)
| DaysAgo (diffDays : Z)
| LocaleDate (date : option Z).

(** [formatDate(dateStr)] at the instant [now]. For a text that is no date
    every difference is [NaN] and every comparison fails. The numbers are
    doubles in the code and integers here; the two agree while the
    difference is below [2^53] in absolute value, which holds for every
    valid date when [now] is before the year 13000: the difference of two
    integers is then exact, and the rounded quotient of an integer below
    [2^53] by 60000, 3600000 or 86400000 has the floor of the exact
    quotient. *)
Definition formatDate (now : Z) (dateStr : Store.text) : label :=
  match dateStr with
  | Store.Iso date =>
      let diffMs := (now - date)%Z in
      let diffMins := (diffMs / 60000)%Z in
      let diffHours := (diffMs / 3600000)%Z in
      let diffDays := (diffMs / 86400000)%Z in
      if (diffMins <? 1)%Z then JustNow
      else if (diffMins <? 60)%Z then MinutesAgo diffMins
      else if (diffHours <? 24)%Z then HoursAgo diffHours
      else if (diffDays <? 7)%Z then DaysAgo diffDays
      else LocaleDate (Some date)
  | Store.Str _ => LocaleDate None
  end.

End Popup.

(** * Vocabulary of the properties, and example inputs *)

(** ** The grammar of [expiresIn] *)

Section ExpirationVocabulary.
Import Regex Store.

(** The grammar of [expiresIn]: digits, then a unit. *)
Definition is_unit (c : N) : bool := (c =? 100) || (c =? 104) || (c =? 109).

Definition in_grammar (s : jsstring) : Prop :=
  exists ds u, s = ds ++ [u] /\ ds <> [] /\
               forallb is_digit ds = true /\ is_unit u = true.

(** The number a string of decimal digits denotes. *)
Definition decimal (ds : jsstring) : N :=
  fold_left (fun acc d => acc * 10 + (d - 48)) ds 0.

End ExpirationVocabulary.

(** ** Stored entries and example requests *)

Section StoreVocabulary.
Import Store.

(** The expiration timestamp stored with an object, if there is one. *)
Definition expiry_of (o : object) : option Z :=
  match o_customMetadata o with
  | Some md =>
      match m_expiresAt md with
      | Some (VText (Iso t)) => Some t
      | _ => None
      end
  | None => None
  end.

(** Whether [headers.set] accepts a text as a header value. *)
Definition header_value_ok (value : jsstring) : bool :=
  match header_value (Str value) with
  | Return _ => true
  | Throw _ => false
  end.

(** An entry whose headers can be set: its stored [expiresAt], when it
    is text that is no date, and its stored [sourceUrl] are header values. *)
Definition servable (o : object) : bool :=
  let metadata := default (Metadata None None None None) (o_customMetadata o) in
  match m_expiresAt metadata with
  | Some (VText (Str s)) => header_value_ok s
  | _ => true
  end
  && match m_sourceUrl metadata with
     | Some s => header_value_ok s
     | None => true
     end.

(** A bucket with one entry that expires at 3600000. *)
Definition one_entry : gmap jsstring object :=
  {[ u16 "abc" := Object (u16 "<p>hi</p>") (u16 "text/html; charset=utf-8")
                   (Some (Metadata (Some (u16 "t")) (Some []) (Some 0%Z)
                            (Some (VText (Iso 3600000))))) ]}.

(** The title stored for a request: its own when it has one that is not
    empty, otherwise the default. *)
Definition stored_title (b : body) : jsstring :=
  match b_title b with
  | Some t => if truthy t then t else u16 "Untitled"
  | None => u16 "Untitled"
  end.

(** The metadata stored for a request. *)
Definition stored_metadata (e : env) (b : body) (expiresAt : jsval) : metadata :=
  {| m_title := Some (stored_title b);
     m_sourceUrl := Some (default [] (b_sourceUrl b));
     m_createdAt := Some (now_handler e);
     m_expiresAt := Some expiresAt |}.

(** The content type of every stored page. *)
Definition ctype : jsstring := u16 "text/html; charset=utf-8".

(** A request handled at the instant 1700000000000, all random draws 0,
    by a bucket that accepts the object. *)
Definition env0 : env := Env 1700000000000 1700000000000 (fun _ => 0) (fun _ _ => None).

(** An upload that declares 60000000 bytes. *)
Definition declared_60MB : request :=
  Request (u16 "POST") (u16 "https://store.example") (u16 "/api/upload") []
    (Some (u16 "60000000")) (Return (Body (Some (u16 "<p>hi</p>")) false None None None)).

(** A page of 52428801 letters [a]: one byte more than the ceiling of the
    decompressing worker. *)
Definition page_over_50MB : jsstring := 97 :: replicate (N.to_nat 52428800) 97.

(** The upload of that page, uncompressed, without [Content-Length]. *)
Definition undeclared_over_50MB : request :=
  Request (u16 "POST") (u16 "https://store.example") (u16 "/api/upload") []
    None (Return (Body (Some page_over_50MB) false None None None)).

(** A small upload whose [sourceUrl] holds a line feed. *)
Definition line_feed_upload : request :=
  Request (u16 "POST") (u16 "https://store.example") (u16 "/api/upload") []
    (Some (u16 "120"))
    (Return (Body (Some (u16 "<p>hi</p>")) false None
               (Some (u16 "https://e.x/a" ++ newline ++ u16 "b")) None)).

(** A small upload with the given title, to expire in one hour. *)
Definition titled_upload (title : option jsstring) : request :=
  Request (u16 "POST") (u16 "https://store.example") (u16 "/api/upload") []
    (Some (u16 "120")) (Return (Body (Some (u16 "<p>hi</p>")) false title None (Some (u16 "1h")))).

End StoreVocabulary.

(** ** An example page *)

Section PageVocabulary.
Import Page.

(** A page at [https://e.x/] whose server has [a] (three bytes of type
    image/png) and nothing else; [new URL] is taken to append the
    reference to the base. [readable] tells whether a [FileReader] can read
    the body. Sheet [n] imports itself and then has one rule. *)
Definition page (readable : bool) : world :=
  {| location_href := u16 "https://e.x/";
     document_title := u16 "Example";
     new_URL := fun url base => Return (base ++ url);
     fetch := fun abs =>
       if str_eqb abs (u16 "https://e.x/a")
       then Return (Response true (Return (Blob (u16 "image/png") [1; 2; 3] readable))
                      (Return []))
       else Return (Response false (Return (Blob [] [] true)) (Return []));
     sheets := fun n =>
       Sheet None (Return [ImportRule (u16 "@import url(self.css);") (Some n);
                           StyleRule (u16 "p{}")]);
     styleSheets := [0%nat];
     styles := [];
     render := fun css => Return (u16 "<html><head><style>" ++ css
                                  ++ u16 "</style></head></html>") |}.

(** The same page, where serializing the clone throws an error without a
    message. *)
Definition broken_page : world :=
  {| location_href := location_href (page true);
     document_title := document_title (page true);
     new_URL := new_URL (page true);
     fetch := fetch (page true);
     sheets := sheets (page true);
     styleSheets := styleSheets (page true);
     styles := styles (page true);
     render := fun css => Throw (Exn (u16 "TypeError") []) |}.

(** A page whose only style sheet is on another origin, so that reading
    its rules throws, while the network is down. *)
Definition offline_page : world :=
  {| location_href := u16 "https://e.x/";
     document_title := u16 "Example";
     new_URL := fun url base => Return (base ++ url);
     fetch := fun abs => Throw (Exn (u16 "TypeError") (u16 "Failed to fetch"));
     sheets := fun n =>
       Sheet (Some (u16 "https://cdn.x/a.css")) (Throw (Exn (u16 "SecurityError") []));
     styleSheets := [0%nat];
     styles := [];
     render := fun css => Return (u16 "<html><head><style>" ++ css
                                  ++ u16 "</style></head></html>") |}.

(** The document type declaration that starts a captured document. *)
Definition DOCTYPE : jsstring := u16 "<!DOCTYPE html>" ++ newline.

(** What the capture script returns on [offline_page]. *)
Definition offline_capture : Page.CaptureResult :=
  {| success := true;
     html := Some (DOCTYPE ++ u16 "<html><head><style></style></head></html>");
     title := Some (u16 "Example");
     sourceUrl := Some (u16 "https://e.x/");
     error := None |}.

(** A small document: a script in the head, a body with an event handler
    and a [javascript:] link next to a plain one. *)
Definition small_document : list Dom.node :=
  [Dom.Element (u16 "html") ∅
     [Dom.Element (u16 "head") ∅
        [Dom.Element (u16 "script") {[ u16 "src" := u16 "app.js" ]} []];
      Dom.Element (u16 "body") {[ u16 "onload" := u16 "init()" ]}
        [Dom.Element (u16 "a") {[ u16 "href" := u16 "javascript:void(0)" ]}
           [Dom.TextNode (u16 "x")];
         Dom.Element (u16 "a") {[ u16 "href" := u16 "/next" ]}
           [Dom.TextNode (u16 "y")]]]].

End PageVocabulary.

(** ** Sanitized documents *)

Section DomVocabulary.
Import Dom.

(** A property of every element of a tree. *)
Inductive every_element (P : jsstring -> gmap jsstring jsstring -> Prop) : node -> Prop :=
| every_text data : every_element P (TextNode data)
| every_elem localName attributes childNodes :
    P localName attributes ->
    Forall (every_element P) childNodes ->
    every_element P (Element localName attributes childNodes).

(** An element that is no script and no noscript element, without event
    handler attributes and without a [javascript:] link. *)
Definition sanitized (localName : jsstring) (attributes : gmap jsstring jsstring) : Prop :=
  localName <> u16 "script" /\ localName <> u16 "noscript" /\
  forall name value, attributes !! name = Some value ->
    startsWith (u16 "on") name = false /\
    (name = u16 "href" -> startsWith (u16 "javascript:") value = false).

(** ASCII lower case. *)
Definition to_lower (c : N) : N :=
  if (65 <=? c) && (c <=? 90) then c + 32 else c.

(** A value that begins with the scheme [javascript:]. The scheme of a URL
    is matched without regard to case. *)
Definition executable_url (value : jsstring) : bool :=
  startsWith (u16 "javascript:") (List.map to_lower value).

(** Two links that run a script when followed: one in HTML, one in SVG. *)
Definition script_links : list node :=
  [Element (u16 "a") {[ u16 "href" := u16 "JavaScript:alert(1)" ]}
     [TextNode (u16 "x")];
   Element (u16 "svg") ∅
     [Element (u16 "a") {[ u16 "xlink:href" := u16 "javascript:alert(1)" ]}
        [TextNode (u16 "y")]]].

(** Two trees that differ at most in the values of [style] attributes. *)
Inductive same_but_style : node -> node -> Prop :=
| same_text data : same_but_style (TextNode data) (TextNode data)
| same_element localName attributes attributes' childNodes childNodes' :
    (forall name, name <> u16 "style" -> attributes' !! name = attributes !! name) ->
    (is_Some (attributes' !! u16 "style") <-> is_Some (attributes !! u16 "style")) ->
    Forall2 same_but_style childNodes childNodes' ->
    same_but_style (Element localName attributes childNodes)
      (Element localName attributes' childNodes').

(** A paragraph with a background image and an event handler. *)
Definition styled_document : list node :=
  [Element (u16 "p")
     {[ u16 "style" := u16 "background:url(a)"; u16 "onclick" := u16 "f()" ]}
     [TextNode (u16 "x")]].

End DomVocabulary.

(** ** More example inputs *)

Section MoreExamples.
Import Store.

(** A small upload without [expiresIn]. *)
Definition untimed_upload : request :=
  Request (u16 "POST") (u16 "https://store.example") (u16 "/api/upload") []
    (Some (u16 "90")) (Return (Body (Some (u16 "<p>hi</p>")) false None None None)).

(** An upload marked as compressed whose [html] is no base64 text. *)
Definition garbled_upload : request :=
  Request (u16 "POST") (u16 "https://store.example") (u16 "/api/upload") []
    (Some (u16 "90")) (Return (Body (Some (u16 "<p>hi</p>")) true None None None)).

(** The answers of [handleUpload]: JSON with the CORS headers, with a
    status among 200, 400, 413 and 500; an answer other than 200 is an
    object with one field, [error], whose message is not empty. *)
Definition upload_answer (r : response) : Prop :=
  exists st fields,
    r = json_response st fields /\
    (st = 200 \/
     (st = 400 \/ st = 413 \/ st = 500) /\
     exists message, fields = [(u16 "error", VText (Str message))] /\ message <> []).

(** The answer of the worker as the extension reads it: [ok] tells a
    status from 200 to 299, and [json()] reads back the object that was
    sent. *)
Definition delivered (r : response) (u : Background.upload_response) : Prop :=
  Background.u_ok u = (200 <=? status r) && (status r <=? 299) /\
  forall fields, r_body r = Json fields -> Background.u_json u = Return fields.

(** A network that delivers the answers of the decompressing worker,
    started on an empty bucket. *)
Definition worker_network (rq : request) : result Background.upload_response :=
  let r := (Worker.fetch Codec.stored_gunzip env0 rq ∅).1 in
  Return {| Background.u_ok := (200 <=? status r) && (status r <=? 299);
            Background.u_text := Return [];
            Background.u_json :=
              match r_body r with
              | Json fields => Return fields
              | _ => Throw (Exn (u16 "SyntaxError") (u16 "Unexpected end of JSON input"))
              end |}.

End MoreExamples.

(** * Properties *)

Lemma str_eqb_eq (a b : jsstring) : str_eqb a b = true <-> a = b.
Proof.
  revert b; induction a as [|x a IH]; intros [|y b]; simpl; try easy.
  rewrite andb_true_iff, N.eqb_eq, IH. split.
  - intros [-> ->]; reflexivity.
  - intros H; injection H; auto.
Qed.

Lemma str_eqb_refl (a : jsstring) : str_eqb a a = true.
Proof. apply str_eqb_eq; reflexivity. Qed.

(** ** UTF-16 and UTF-8 *)

Section EncodingFacts.
Import Encoding.

Ltac cmp :=
  repeat match goal with
  | |- context [?a <? ?b] => destruct (N.ltb_spec a b); try lia
  | |- context [?a <=? ?b] => destruct (N.leb_spec a b); try lia
  | |- context [?a =? ?b] => destruct (N.eqb_spec a b); try lia
  | H : context [?a <? ?b] |- _ => destruct (N.ltb_spec a b); try lia
  | H : context [?a <=? ?b] |- _ => destruct (N.leb_spec a b); try lia
  | H : context [?a =? ?b] |- _ => destruct (N.eqb_spec a b); try lia
  end.

Lemma decode_run_scalar (c : N) (rest : list N) :
  is_scalar c ->
  decode_run dstate0 (utf8_of_scalar c ++ rest) = c :: decode_run dstate0 rest.
Proof.
  intros [Hc Hs]. unfold utf8_of_scalar.
  destruct (N.ltb_spec c 0x80).
  { simpl. unfold decode_byte, lead_byte; simpl. cmp. reflexivity. }
  destruct (N.ltb_spec c 0x800).
  { simpl. unfold decode_byte at 1, lead_byte; simpl. cmp; simpl.
    unfold decode_byte at 1; simpl. cmp; simpl. f_equal. lia. }
  destruct (N.ltb_spec c 0x10000).
  { simpl. unfold decode_byte at 1, lead_byte; simpl. cmp; simpl.
    all: unfold decode_byte at 1; simpl; cmp; simpl.
    all: unfold decode_byte at 1; simpl; cmp; simpl.
    all: f_equal; lia. }
  simpl. unfold decode_byte at 1, lead_byte; simpl. cmp; simpl.
  all: unfold decode_byte at 1; simpl; cmp; simpl.
  all: unfold decode_byte at 1; simpl; cmp; simpl.
  all: unfold decode_byte at 1; simpl; cmp; simpl.
  all: f_equal; lia.
Qed.

Lemma decode_run_scalars (cps : list N) :
  Forall is_scalar cps ->
  decode_run dstate0 (flat_map utf8_of_scalar cps) = cps.
Proof.
  induction 1 as [|c cps Hc _ IH]; [reflexivity|].
  simpl flat_map. rewrite decode_run_scalar by assumption. now rewrite IH.
Qed.

Lemma utf8_of_scalar_bytes (c : N) :
  c < 0x110000 -> Forall (fun b => b < 256) (utf8_of_scalar c).
Proof.
  intros Hc. unfold utf8_of_scalar. cmp; repeat constructor; lia.
Qed.

(** The scalar values of a well-formed string are scalar values, and their
    code units are the string. *)
Lemma to_scalars_well_formed (n : nat) (s : jsstring) :
  (length s <= n)%nat -> well_formed s = true ->
  Forall is_scalar (to_scalars s) /\
  flat_map units_of_scalar (to_scalars s) = s.
Proof.
  revert s; induction n as [|n IH]; intros s Hn Hwf.
  { destruct s; [split; [constructor | reflexivity] | simpl in Hn; lia]. }
  destruct s as [|c s]; [split; [constructor | reflexivity]|].
  simpl in Hwf |- *.
  destruct (is_lead c) eqn:Hlead.
  - destruct s as [|d s]; [discriminate|].
    apply andb_true_iff in Hwf as [Htrail Hwf]. rewrite Htrail.
    destruct (IH s) as [IH1 IH2]; [simpl in Hn; lia | assumption |].
    unfold is_lead in Hlead; unfold is_trail in Htrail.
    apply andb_true_iff in Hlead as [L1 L2]. apply andb_true_iff in Htrail as [T1 T2].
    apply N.leb_le in L1, L2, T1, T2.
    split.
    + constructor; [unfold is_scalar; lia | assumption].
    + simpl. rewrite IH2. unfold units_of_scalar.
      destruct (N.ltb_spec (65536 + (c - 55296) * 1024 + (d - 56320)) 65536); [lia|].
      simpl. f_equal; [lia | f_equal; lia].
  - apply andb_true_iff in Hwf as [Hwf1 Hwf]. apply andb_true_iff in Hwf1 as [Hnt Hc].
    apply negb_true_iff in Hnt. rewrite Hnt.
    destruct (IH s) as [IH1 IH2]; [simpl in Hn; lia | assumption |].
    unfold is_lead in Hlead; unfold is_trail in Hnt.
    apply N.ltb_lt in Hc.
    split.
    + constructor; [|assumption]. unfold is_scalar. split; [lia|].
      intros [A B]. apply andb_false_iff in Hlead, Hnt.
      rewrite !N.leb_gt in Hlead, Hnt. lia.
    + simpl. rewrite IH2. unfold units_of_scalar.
      destruct (N.ltb_spec c 65536); [reflexivity | lia].
Qed.

Lemma strip_bom_first (b : N) (r : list N) :
  b <> 0xEF -> strip_bom (b :: r) = b :: r.
Proof.
  intros Hb. unfold strip_bom. destruct r as [|x [|y r]]; try reflexivity.
  destruct (N.eqb_spec b 0xEF); [contradiction | reflexivity].
Qed.

(** UTF-8 starts with the byte order mark only for U+FEFF. *)
Lemma strip_bom_scalar (c : N) (rest : list N) :
  is_scalar c -> c <> 0xFEFF ->
  strip_bom (utf8_of_scalar c ++ rest) = utf8_of_scalar c ++ rest.
Proof.
  intros [Hc Hs] Hne. unfold utf8_of_scalar.
  destruct (N.ltb_spec c 0x80); [apply strip_bom_first; lia|].
  destruct (N.ltb_spec c 0x800); [apply strip_bom_first; lia|].
  destruct (N.ltb_spec c 0x10000); [|apply strip_bom_first; lia].
  simpl. cmp; reflexivity.
Qed.

Lemma first_scalar_not_bom (c : N) (s : jsstring) :
  well_formed (c :: s) = true -> c <> 0xFEFF ->
  exists c0 cps, to_scalars (c :: s) = c0 :: cps /\ c0 <> 0xFEFF.
Proof.
  intros Hwf Hne. simpl in Hwf |- *.
  destruct (is_lead c) eqn:Hlead.
  - destruct s as [|d s]; [discriminate|].
    apply andb_true_iff in Hwf as [Htrail _]. rewrite Htrail.
    eexists _, _; split; [reflexivity|].
    unfold is_lead in Hlead. apply andb_true_iff in Hlead as [L1 L2].
    apply N.leb_le in L1, L2. lia.
  - apply andb_true_iff in Hwf as [Hwf1 _]. apply andb_true_iff in Hwf1 as [Hnt _].
    apply negb_true_iff in Hnt. rewrite Hnt. eauto.
Qed.

(** Decoding the encoding of a well-formed string that does not start with
    U+FEFF gives the string back. *)
Lemma decode_encode (s : jsstring) :
  well_formed s = true -> head s <> Some 0xFEFF ->
  decode (encode s) = s.
Proof.
  intros Hwf Hhd. unfold decode, encode.
  destruct (to_scalars_well_formed (length s) s (le_n _) Hwf) as [Hsc Hunits].
  assert (Hbom : strip_bom (flat_map utf8_of_scalar (to_scalars s))
                 = flat_map utf8_of_scalar (to_scalars s)).
  { destruct s as [|c s]; [reflexivity|].
    destruct (first_scalar_not_bom c s Hwf) as (c0 & cps & Heq & Hc0).
    { intros ->. now apply Hhd. }
    rewrite Heq in Hsc |- *. simpl flat_map.
    apply strip_bom_scalar; [now inversion Hsc | assumption]. }
  rewrite Hbom, decode_run_scalars by assumption. exact Hunits.
Qed.

Lemma encode_is_bytes (s : jsstring) :
  well_formed s = true -> Forall (fun b => b < 256) (encode s).
Proof.
  intros Hwf. unfold encode.
  destruct (to_scalars_well_formed (length s) s (le_n _) Hwf) as [Hsc _].
  induction Hsc as [|c cps [Hc _] _ IH]; [constructor|].
  simpl. apply Forall_app; split; [now apply utf8_of_scalar_bytes | exact IH].
Qed.

End EncodingFacts.

(** ** Base64 *)

Section Base64Facts.
Import Base64.

Ltac cmp :=
  repeat match goal with
  | |- context [?a <? ?b] => destruct (N.ltb_spec a b); try lia
  | |- context [?a <=? ?b] => destruct (N.leb_spec a b); try lia
  | |- context [?a =? ?b] => destruct (N.eqb_spec a b); try lia
  end.

Lemma b64_val_char (i : N) : i < 64 -> b64_val (b64_char i) = Some i.
Proof.
  intros Hi. unfold b64_val, b64_char. cmp; simpl; f_equal; lia.
Qed.

Ltac ifs :=
  repeat match goal with
  | |- context [if ?a <? ?b then _ else _] => destruct (N.ltb_spec a b)
  | |- context [if ?a =? ?b then _ else _] => destruct (N.eqb_spec a b)
  end.

Lemma b64_char_not_pad (i : N) : (b64_char i =? pad) = false.
Proof. unfold b64_char, pad. ifs; apply N.eqb_neq; lia. Qed.

Lemma b64_char_not_space (i : N) : is_ascii_whitespace (b64_char i) = false.
Proof.
  unfold is_ascii_whitespace, b64_char.
  ifs; rewrite !orb_false_iff; repeat split; apply N.eqb_neq; lia.
Qed.

Lemma values_chars (vs : list N) :
  Forall (fun v => v < 64) vs -> values (List.map b64_char vs) = Some vs.
Proof.
  induction 1 as [|v vs Hv _ IH]; [reflexivity|].
  simpl. now rewrite b64_val_char, IH.
Qed.

Lemma filter_chars (vs : list N) (p : jsstring) :
  Forall (fun c => c = pad) p ->
  List.filter (fun c => negb (is_ascii_whitespace c)) (List.map b64_char vs ++ p)
  = List.map b64_char vs ++ p.
Proof.
  intros Hp. induction vs as [|v vs IH]; simpl.
  - induction Hp as [|c p -> _ IHp]; [reflexivity|]. simpl. now rewrite IHp.
  - now rewrite b64_char_not_space, IH.
Qed.

Lemma strip_padding_chars (vs : list N) (p : jsstring) :
  p = [] \/ p = [pad] \/ p = [pad; pad] ->
  strip_padding (List.map b64_char vs ++ p) = List.map b64_char vs.
Proof.
  intros Hp. unfold strip_padding. rewrite rev_app_distr.
  assert (Hrev : forall r, rev (List.map b64_char vs) = r ->
            match r with
            | a :: _ => (a =? pad) = false
            | [] => vs = []
            end).
  { intros r. destruct vs as [|v vs] using rev_ind; simpl.
    - now intros <-.
    - rewrite map_app, rev_app_distr. simpl. intros <-. apply b64_char_not_pad. }
  specialize (Hrev _ eq_refl).
  destruct Hp as [-> | [-> | ->]]; simpl.
  - destruct (rev (List.map b64_char vs)) as [|a [|b r]] eqn:E.
    + subst vs; reflexivity.
    + rewrite Hrev. now rewrite app_nil_r.
    + rewrite Hrev. simpl. now rewrite app_nil_r.
  - destruct (rev (List.map b64_char vs)) as [|a r] eqn:E.
    + subst vs; reflexivity.
    + rewrite Hrev. change (rev r ++ [a]) with (rev (a :: r)).
      rewrite <- E. now rewrite rev_involutive.
  - now rewrite rev_involutive.
Qed.

(** The characters written for a byte array: values below 64, then the
    padding; decoding the values gives the bytes. *)
Lemma encode_bytes_shape (n : nat) (bs : list N) :
  (length bs <= n)%nat -> Forall (fun b => b < 256) bs ->
  exists vs p,
    encode_bytes bs = List.map b64_char vs ++ p /\
    Forall (fun v => v < 64) vs /\
    (p = [] \/ p = [pad] \/ p = [pad; pad]) /\
    (length (List.map b64_char vs ++ p) mod 4 = 0)%nat /\
    (length vs mod 4 <> 1)%nat /\
    decode_values vs = bs.
Proof.
  revert bs; induction n as [|n IH]; intros bs Hn Hb.
  { destruct bs; [|simpl in Hn; lia].
    exists [], []. split_and!; auto; simpl; lia. }
  destruct bs as [|a [|b [|c r]]].
  - exists [], []. split_and!; auto; simpl; lia.
  - inversion_clear Hb as [|? ? Ha _].
    exists [a / 4; a mod 4 * 16], [pad; pad].
    split_and!; auto; try (simpl; lia).
    + repeat constructor; lia.
    + simpl. f_equal. lia.
  - inversion_clear Hb as [|? ? Ha Hb']. inversion_clear Hb' as [|? ? Hb _].
    exists [a / 4; a mod 4 * 16 + b / 16; b mod 16 * 4], [pad].
    split_and!; auto; try (simpl; lia).
    + repeat constructor; lia.
    + simpl. f_equal; [lia | f_equal; lia].
  - inversion_clear Hb as [|? ? Ha Hb']. inversion_clear Hb' as [|? ? Hb Hb''].
    inversion_clear Hb'' as [|? ? Hc Hr].
    destruct (IH r) as (vs & p & E & Hvs & Hp & Hlen & Hlen' & Hdec);
      [simpl in Hn; lia | assumption |].
    exists (a / 4 :: a mod 4 * 16 + b / 16 :: b mod 16 * 4 + c / 64 :: c mod 64 :: vs), p.
    split_and!; auto.
    + simpl. now rewrite E.
    + repeat constructor; try lia. assumption.
    + rewrite length_app, length_map in Hlen |- *. cbn [length]. lia.
    + cbn [length]. lia.
    + simpl decode_values. rewrite Hdec. f_equal; [lia | f_equal; [lia | f_equal; lia]].
Qed.

(** [atob] undoes [btoa] on byte strings. *)
Lemma atob_btoa (bs : list N) :
  Forall (fun b => b < 256) bs ->
  exists enc, btoa bs = Return enc /\ atob enc = Return bs.
Proof.
  intros Hb. unfold btoa.
  assert (Hall : forallb (fun c => c <=? 0xFF) bs = true).
  { apply forallb_forall. intros x Hx. rewrite Forall_forall in Hb.
    apply N.leb_le. specialize (Hb x). rewrite list_elem_of_In in Hb.
    specialize (Hb Hx). lia. }
  rewrite Hall. eexists; split; [reflexivity|].
  destruct (encode_bytes_shape (length bs) bs (le_n _) Hb)
    as (vs & p & E & Hvs & Hp & Hlen & Hlen' & Hdec).
  unfold atob. rewrite E, filter_chars.
  2:{ destruct Hp as [-> | [-> | ->]]; repeat constructor. }
  rewrite Hlen. simpl (0 =? 0)%nat. cbv iota.
  rewrite strip_padding_chars by assumption.
  rewrite length_map.
  destruct (Nat.eqb_spec (length vs mod 4) 1); [contradiction|].
  now rewrite values_chars, Hdec.
Qed.

End Base64Facts.

(** ** Transport codec *)

Section CodecFacts.
Import Codec.

Lemma totalLength_concat (chunks : list (list N)) (acc : nat) :
  fold_left (fun acc chunk => (acc + length chunk)%nat) chunks acc
  = (acc + length (concat chunks))%nat.
Proof.
  revert acc; induction chunks as [|c chunks IH]; intros acc; simpl.
  - lia.
  - rewrite IH, length_app. lia.
Qed.

Lemma set_at_end (pre chunk : list N) (k : nat) :
  (length chunk <= k)%nat ->
  set_at (pre ++ replicate k 0) chunk (length pre)
  = (pre ++ chunk) ++ replicate (k - length chunk) 0.
Proof.
  intros Hk. unfold set_at.
  rewrite take_app_length, drop_app_add, drop_replicate.
  now rewrite <- app_assoc.
Qed.

Lemma set_loop (chunks : list (list N)) (pre : list N) (k : nat) :
  (length (concat chunks) <= k)%nat ->
  fst (fold_left
         (fun '(arr, offset) chunk => (set_at arr chunk offset, (offset + length chunk)%nat))
         chunks (pre ++ replicate k 0, length pre))
  = pre ++ concat chunks ++ replicate (k - length (concat chunks)) 0.
Proof.
  revert pre k; induction chunks as [|c chunks IH]; intros pre k Hk; simpl in *.
  - now rewrite Nat.sub_0_r.
  - rewrite length_app in Hk.
    rewrite set_at_end by lia. rewrite <- length_app.
    rewrite IH by lia. rewrite <- !app_assoc. do 3 f_equal.
    rewrite length_app. f_equal. lia.
Qed.

(** The [set] loop writes the chunks one after the other. *)
Lemma combine_concat (chunks : list (list N)) : combine chunks = concat chunks.
Proof.
  unfold combine. rewrite totalLength_concat.
  pose proof (set_loop chunks [] (length (concat chunks)) (le_n _)) as H.
  rewrite Nat.sub_diag, app_nil_r in H. exact H.
Qed.

(** The chunked loop converts every byte once, in order. *)
Lemma binary_loop_drop (data : list N) (i : nat) (binary : jsstring) :
  binary_loop data i binary = binary ++ fromCharCode (drop i data).
Proof.
  funelim (binary_loop data i binary).
  - rewrite H. rewrite <- app_assoc. f_equal.
    unfold subarray, fromCharCode. rewrite <- map_app. f_equal.
    replace (i + chunkSize - i)%nat with chunkSize by lia.
    rewrite <- drop_drop. apply take_drop.
  - rewrite drop_ge by lia. now rewrite app_nil_r.
Qed.

Lemma fromCharCode_bytes (data : list N) :
  Forall (fun b => b < 256) data -> fromCharCode data = data.
Proof.
  induction 1 as [|b data Hb _ IH]; [reflexivity|].
  simpl. rewrite IH. f_equal. apply N.mod_small. lia.
Qed.

Lemma mod256_bytes (data : list N) :
  Forall (fun b => b < 256) data -> List.map (fun c => c mod 256) data = data.
Proof.
  induction 1 as [|b data Hb _ IH]; [reflexivity|].
  simpl. rewrite IH. f_equal. now apply N.mod_small.
Qed.

Lemma stored_lossless : lossless stored_gzip stored_gunzip.
Proof.
  intros data Hd. split.
  - simpl. rewrite app_nil_r. repeat constructor; assumption.
  - exists [data]. simpl. now rewrite !app_nil_r.
Qed.

(** With lossless streams, the transport of a string whose encoding is a
    byte array is the decoding of its encoding. *)
Lemma transport_decode_encode
    (gzip : list N -> list (list N)) (gunzip : list N -> result (list (list N)))
    (x : jsstring) :
  lossless gzip gunzip ->
  Forall (fun b => b < 256) (Encoding.encode x) ->
  transport gzip gunzip x = Return (Encoding.decode (Encoding.encode x)).
Proof.
  intros Hz Henc. unfold transport, compressString.
  destruct (Hz _ Henc) as [Hbytes (chunks & Hgun & Hcat)].
  rewrite combine_concat, binary_loop_drop. simpl app. rewrite drop_0.
  rewrite fromCharCode_bytes by assumption.
  destruct (atob_btoa _ Hbytes) as (enc & Hbtoa & Hatob).
  rewrite Hbtoa. simpl. unfold decompressHtml. rewrite Hatob. simpl.
  rewrite mod256_bytes by assumption. rewrite Hgun. simpl.
  now rewrite combine_concat, Hcat.
Qed.

(** C5, as the code has it. For every well-formed string [x] (16-bit code
    units, no unpaired surrogate) that does not start with U+FEFF,
    compressing [x] (gzip, then base64 of the bytes, converted in chunks of
    32768) succeeds and decompressing the result gives [x] back, whatever
    lossless gzip streams the platform provides; the empty string and
    strings of any length are included. *)
Theorem decompress_compress
    (gzip : list N -> list (list N)) (gunzip : list N -> result (list (list N)))
    (x : jsstring) :
  lossless gzip gunzip ->
  Encoding.well_formed x = true ->
  head x <> Some 0xFEFF ->
  transport gzip gunzip x = Return x.
Proof.
  intros Hz Hwf Hbom.
  rewrite transport_decode_encode by (try apply encode_is_bytes; assumption).
  f_equal. now apply decode_encode.
Qed.

Lemma decompress_compress_witness :
  transport stored_gzip stored_gunzip (u16 "<p>hi</p>") = Return (u16 "<p>hi</p>").
Proof.
  apply (decompress_compress stored_gzip stored_gunzip (u16 "<p>hi</p>")).
  - exact stored_lossless.
  - reflexivity.
  - discriminate.
Defined.

(** Whatever the lossless streams, a leading U+FEFF is lost in transport,
    and an unpaired surrogate comes back as U+FFFD. *)
Lemma transport_not_faithful
    (gzip : list N -> list (list N)) (gunzip : list N -> result (list (list N))) :
  lossless gzip gunzip ->
  transport gzip gunzip [0xFEFF; 104; 105] = Return [104; 105] /\
  transport gzip gunzip [104; 0xD800; 105] = Return [104; 0xFFFD; 105].
Proof.
  intros Hz. split; rewrite transport_decode_encode; try assumption;
    try reflexivity; vm_compute; repeat constructor.
Qed.

(** C5 as stated fails: a string that starts with U+FEFF loses it (the
    decoder takes it for a byte order mark). *)
Lemma decompress_compress_not_every_string :
  ~ (forall gzip gunzip, lossless gzip gunzip ->
       forall x, transport gzip gunzip x = Return x).
Proof.
  intros H. specialize (H _ _ stored_lossless [0xFEFF; 104; 105]).
  rewrite (proj1 (transport_not_faithful _ _ stored_lossless)) in H.
  discriminate H.
Qed.

End CodecFacts.

(** ** Expiration *)

Section ExpirationFacts.
Import Regex Store.

Lemma unit_not_digit (c : N) : is_digit c = true -> is_unit c = false.
Proof.
  unfold is_digit, is_unit. intros H. apply andb_true_iff in H as [H1 H2].
  apply N.leb_le in H1, H2.
  rewrite !orb_false_iff; repeat split; apply N.eqb_neq; lia.
Qed.

(** The greedy group takes all the digits there are: a shorter group would
    leave a digit where the unit is expected. *)
Lemma more_greedy_digits (s acc : jsstring) :
  more_greedy is_digit
    (fun g1 => char is_unit (fun g2 => eos (g1, g2))) acc s
  = match s with
    | [] => None
    | _ => if forallb is_digit (removelast s) && is_unit (List.last s 0)
           then Some (acc ++ removelast s, List.last s 0) else None
    end.
Proof.
  revert acc; induction s as [|c s IH]; intros acc; [reflexivity|].
  cbn [more_greedy]. destruct (is_digit c) eqn:Hc.
  - rewrite IH. destruct s as [|d s].
    + cbn. now rewrite (unit_not_digit c Hc).
    + change (removelast (c :: d :: s)) with (c :: removelast (d :: s)).
      change (List.last (c :: d :: s) 0) with (List.last (d :: s) 0).
      cbn [forallb]. rewrite Hc. cbn [andb].
      destruct (forallb is_digit (removelast (d :: s)) && is_unit (List.last (d :: s) 0)).
      * now rewrite <- app_assoc.
      * cbn. now rewrite (unit_not_digit c Hc).
  - destruct s as [|d s].
    + cbn. rewrite app_nil_r. destruct (is_unit c); reflexivity.
    + change (removelast (c :: d :: s)) with (c :: removelast (d :: s)).
      cbn [forallb]. rewrite Hc. cbn.
      destruct (is_unit c); [|reflexivity]. reflexivity.
Qed.

Lemma expiration_re_grammar (ds : jsstring) (u : N) :
  ds <> [] -> forallb is_digit ds = true -> is_unit u = true ->
  expiration_re (ds ++ [u]) = Some (ds, u).
Proof.
  intros Hne Hds Hu. destruct ds as [|c ds]; [contradiction|].
  unfold expiration_re, plus_greedy. cbn [app].
  cbn [forallb] in Hds. apply andb_true_iff in Hds as [Hc Hds]. rewrite Hc.
  fold is_unit. rewrite more_greedy_digits.
  destruct (ds ++ [u]) as [|x r] eqn:E; [now destruct ds|].
  rewrite <- E, removelast_last, last_last, Hds, Hu. reflexivity.
Qed.

Lemma expiration_re_inv (s g1 : jsstring) (g2 : N) :
  expiration_re s = Some (g1, g2) ->
  s = g1 ++ [g2] /\ g1 <> [] /\ forallb is_digit g1 = true /\ is_unit g2 = true.
Proof.
  unfold expiration_re, plus_greedy. destruct s as [|c s]; [discriminate|].
  destruct (is_digit c) eqn:Hc; [|discriminate].
  fold is_unit. rewrite more_greedy_digits.
  destruct s as [|d s]; [discriminate|].
  assert (Hl : d :: s = removelast (d :: s) ++ [List.last (d :: s) 0])
    by (apply app_removelast_last; discriminate).
  set (front := removelast (d :: s)) in *. set (unit := List.last (d :: s) 0) in *.
  destruct (forallb is_digit front) eqn:Hds; [|discriminate].
  destruct (is_unit unit) eqn:Hu; [|discriminate].
  cbn [andb]. intros [= <- <-]. split_and!.
  - cbn [app]. f_equal. exact Hl.
  - discriminate.
  - cbn [app forallb]. now rewrite Hc, Hds.
  - assumption.
Qed.

Lemma expiration_re_none (s : jsstring) :
  expiration_re s = None <-> ~ in_grammar s.
Proof.
  split.
  - intros H (ds & u & -> & Hne & Hds & Hu).
    rewrite expiration_re_grammar in H by assumption. discriminate.
  - intros H. destruct (expiration_re s) as [[g1 g2]|] eqn:E; [|reflexivity].
    exfalso. apply H. apply expiration_re_inv in E as (-> & ? & ? & ?).
    now exists g1, g2.
Qed.

Lemma parse_digits_decimal (ds : jsstring) (acc : N) :
  forallb is_digit ds = true ->
  parse_digits 10 (Some acc) ds
  = Some (fold_left (fun acc d => acc * 10 + (d - 48)) ds acc).
Proof.
  revert acc; induction ds as [|c ds IH]; intros acc Hds; [reflexivity|].
  cbn [forallb] in Hds. apply andb_true_iff in Hds as [Hc Hds].
  cbn [parse_digits fold_left]. unfold digit_value.
  unfold is_digit in Hc. rewrite Hc.
  apply andb_true_iff in Hc as [H1 H2]. apply N.leb_le in H1, H2.
  destruct (N.ltb_spec (c - 48) 10); [|lia].
  cbn [default]. now rewrite IH.
Qed.

Lemma parseInt_decimal (ds : jsstring) :
  ds <> [] -> forallb is_digit ds = true ->
  parseInt ds (Some 10) = Some (Z.of_N (decimal ds)).
Proof.
  intros Hne Hds. destruct ds as [|c ds]; [contradiction|].
  cbn [forallb] in Hds. apply andb_true_iff in Hds as [Hc Hds].
  pose proof Hc as Hc'. unfold is_digit in Hc'.
  apply andb_true_iff in Hc' as [H1 H2]. apply N.leb_le in H1, H2.
  unfold parseInt.
  assert (Hsp : skip_spaces (c :: ds) = c :: ds).
  { cbn [skip_spaces]. unfold is_space.
    repeat match goal with
    | |- context [?a <=? ?b] => destruct (N.leb_spec a b); try lia
    | |- context [?a =? ?b] => destruct (N.eqb_spec a b); try lia
    end. reflexivity. }
  rewrite Hsp.
  assert (Hsign : match c :: ds with
                  | 45 :: r => (true, r)
                  | 43 :: r => (false, r)
                  | _ => (false, c :: ds)
                  end = (false, c :: ds)).
  { destruct c as [|p]; [reflexivity|].
    do 6 (destruct p as [p|p|]; try reflexivity); lia. }
  rewrite Hsign. cbn [N.eqb Pos.eqb orb andb N.ltb N.compare Pos.compare Pos.compare_cont].
  cbv iota.
  cbn [parse_digits]. unfold digit_value, is_digit in *. rewrite Hc.
  destruct (N.ltb_spec (c - 48) 10); [|lia].
  cbn [default]. rewrite parse_digits_decimal by assumption.
  unfold decimal. reflexivity.
Qed.

Lemma multipliers_unit (u : N) (m : Z) : multipliers u = Some m -> is_unit u = true.
Proof.
  unfold multipliers, is_unit.
  destruct (u =? 109), (u =? 104), (u =? 100); simpl; try discriminate; reflexivity.
Qed.

Lemma not_in_grammar_nil : ~ in_grammar [].
Proof. intros (ds & u & E & _). now destruct ds. Qed.

Lemma toISOString_not_null (tv : option Z) : toISOString tv <> Return VNull.
Proof.
  unfold toISOString. destruct tv as [t|]; [|discriminate].
  destruct (Z.abs t <=? max_time)%Z; discriminate.
Qed.

Lemma parseExpiration_null (now : Z) (expiresIn : option jsstring) :
  parseExpiration now expiresIn = Return VNull <->
  expiresIn = None \/ expiresIn = Some (u16 "never") \/
  exists s, expiresIn = Some s /\ ~ in_grammar s.
Proof.
  unfold parseExpiration. destruct expiresIn as [s|]; [|tauto].
  destruct s as [|c s].
  { cbn. split; [|reflexivity]. intros _. right; right.
    exists []. split; [reflexivity | apply not_in_grammar_nil]. }
  cbn [truthy negb orb].
  destruct (str_eqb (c :: s) (u16 "never")) eqn:Hnever.
  { apply str_eqb_eq in Hnever. rewrite Hnever. tauto. }
  destruct (expiration_re (c :: s)) as [[g1 g2]|] eqn:E.
  - split.
    + intros H. now apply toISOString_not_null in H.
    + intros [H | [H | (s' & [= <-] & H)]]; try discriminate.
      * assert (Ht : str_eqb (c :: s) (u16 "never") = true)
          by (apply str_eqb_eq; congruence).
        congruence.
      * apply expiration_re_none in H. congruence.
  - split; [|reflexivity]. intros _. right; right.
    exists (c :: s). split; [reflexivity | now apply expiration_re_none].
Qed.

Lemma parseExpiration_duration (now : Z) (ds : jsstring) (u : N) (m : Z) :
  ds <> [] -> forallb is_digit ds = true -> multipliers u = Some m ->
  parseExpiration now (Some (ds ++ [u]))
  = toISOString (Some (now + Z.of_N (decimal ds) * m)%Z).
Proof.
  intros Hne Hds Hm. unfold parseExpiration.
  pose proof (multipliers_unit _ _ Hm) as Hu.
  assert (Htruthy : truthy (ds ++ [u]) = true) by now destruct ds.
  rewrite Htruthy. cbn [negb orb].
  destruct (str_eqb (ds ++ [u]) (u16 "never")) eqn:Hnever.
  { apply str_eqb_eq in Hnever.
    change (u16 "never") with (u16 "neve" ++ [114]) in Hnever.
    apply app_inj_tail in Hnever as [_ ->]. discriminate Hu. }
  rewrite expiration_re_grammar by assumption.
  now rewrite parseInt_decimal, Hm by assumption.
Qed.

End ExpirationFacts.

(** ** The store *)

Section StoreFacts.
Import Store.

(** A GET of [/id] is served by [handleServe], in both workers. *)
Lemma fetch_get (gunzip : list N -> result (list (list N)))
    (e : env) (request : request) (st : gmap jsstring object) (c : N) (id : jsstring) :
  method request = u16 "GET" -> pathname request = u16 "/" ++ c :: id ->
  WorkerPlain.fetch e request st = handleServe (now_handler e) (c :: id) st /\
  Worker.fetch gunzip e request st = handleServe (now_handler e) (c :: id) st.
Proof.
  intros Hm Hp. unfold WorkerPlain.fetch, Worker.fetch. rewrite Hm, Hp. split; reflexivity.
Qed.

Lemma handleServe_absent (now : Z) (id : jsstring) (st : gmap jsstring object) :
  st !! id = None -> handleServe now id st = (text_response 404 (u16 "Snapshot not found"), st).
Proof. intros H. unfold handleServe. now rewrite H. Qed.

(** A read of an entry that has not expired: 200 with the document when
    the headers can be set, 500 otherwise; the bucket stays as it is. *)
Lemma handleServe_unexpired (now : Z) (id : jsstring) (st : gmap jsstring object)
    (o : object) :
  st !! id = Some o ->
  (forall t, expiry_of o = Some t -> (now <= t)%Z) ->
  if servable o
  then status (handleServe now id st).1 = 200 /\
       r_body (handleServe now id st).1 = Text (o_body o) /\
       (handleServe now id st).2 = st
  else handleServe now id st = (text_response 500 (u16 "Error retrieving snapshot"), st).
Proof.
  intros Ho Hexp. unfold handleServe, servable, header_value_ok, expiry_of in *.
  rewrite Ho.
  destruct (o_customMetadata o) as [[ti su cr ex]|]; [|cbn; easy].
  cbn [default from_option Datatypes.id m_expiresAt m_sourceUrl] in *.
  destruct ex as [[|[[|c s]|t]]|]; destruct su as [[|c' u]|];
    cbn [truthy field_truthy default from_option Datatypes.id andb];
    try (specialize (Hexp _ eq_refl); apply Z.ltb_ge in Hexp; rewrite Hexp);
    change (header_value (Str [])) with (Return (Str []) : result text);
    repeat match goal with
      | |- context [header_value (Str (?a :: ?b))] =>
          destruct (header_value (Str (a :: b)))
      end;
    cbn -[header_value]; easy.
Qed.

(** C7. A read of [id] answers 404 when nothing is stored under [id];
    when the stored expiration has passed it answers 410 and deletes the
    entry, so that a later read of [id] answers 404; otherwise it answers
    200 with the stored document when the stored [expiresAt] and
    [sourceUrl] can be set as headers of the answer, and 500 when they
    cannot; the entry then stays. *)
Theorem handleServe_spec (now : Z) (id : jsstring) (st : gmap jsstring object) :
  (st !! id = None ->
     status (handleServe now id st).1 = 404 /\ (handleServe now id st).2 = st) /\
  (forall o t, st !! id = Some o -> expiry_of o = Some t -> (t < now)%Z ->
     status (handleServe now id st).1 = 410 /\
     (handleServe now id st).2 = delete id st /\
     forall now', status (handleServe now' id (handleServe now id st).2).1 = 404) /\
  (forall o, st !! id = Some o ->
     (forall t, expiry_of o = Some t -> (now <= t)%Z) ->
     servable o = true ->
     status (handleServe now id st).1 = 200 /\
     r_body (handleServe now id st).1 = Text (o_body o) /\
     (handleServe now id st).2 = st) /\
  (forall o, st !! id = Some o ->
     (forall t, expiry_of o = Some t -> (now <= t)%Z) ->
     servable o = false ->
     handleServe now id st = (text_response 500 (u16 "Error retrieving snapshot"), st)).
Proof.
  split_and!.
  - intros H. now rewrite handleServe_absent.
  - intros o t Ho Ht Hlt. unfold expiry_of in Ht.
    assert (E : handleServe now id st
                = (text_response 410 (u16 "Snapshot has expired"), delete id st)).
    { unfold handleServe. rewrite Ho.
      destruct (o_customMetadata o) as [md|]; [|discriminate]. cbn.
      destruct (m_expiresAt md) as [[|[s|t']]|]; try discriminate.
      injection Ht as ->. apply Z.ltb_lt in Hlt. now rewrite Hlt. }
    rewrite E. split_and!; try reflexivity.
    intros now'. cbn [snd]. rewrite handleServe_absent; [reflexivity|].
    apply lookup_delete_eq.
  - intros o Ho Hexp Hs. pose proof (handleServe_unexpired now id st o Ho Hexp) as H.
    now rewrite Hs in H.
  - intros o Ho Hexp Hs. pose proof (handleServe_unexpired now id st o Ho Hexp) as H.
    now rewrite Hs in H.
Qed.

(** C7 at an entry it does not cover. An upload whose [sourceUrl] holds a
    line feed is stored, without expiration; a read of it is answered 500,
    not 200, because the [sourceUrl] cannot be set as a header. *)
Lemma handleServe_header_error :
  status (Worker.handleUpload Codec.stored_gunzip env0 line_feed_upload ∅).1 = 200 /\
  (expiry_of <$> (Worker.handleUpload Codec.stored_gunzip env0 line_feed_upload ∅).2
                   !! generateId env0) = Some None /\
  handleServe 1700000000001 (generateId env0)
    (Worker.handleUpload Codec.stored_gunzip env0 line_feed_upload ∅).2
  = (text_response 500 (u16 "Error retrieving snapshot"),
     (Worker.handleUpload Codec.stored_gunzip env0 line_feed_upload ∅).2).
Proof. split_and!; vm_compute; reflexivity. Qed.

Lemma handleServe_witness :
  status (handleServe 3600001 (u16 "abc") one_entry).1 = 410 /\
  status (handleServe 3600002 (u16 "abc")
            (handleServe 3600001 (u16 "abc") one_entry).2).1 = 404.
Proof.
  destruct (handleServe_spec 3600001 (u16 "abc") one_entry) as (_ & H & _).
  destruct (H _ 3600000%Z (lookup_singleton_eq _ _) eq_refl eq_refl) as (H1 & _ & H3).
  split; [exact H1 | exact (H3 3600002%Z)].
Defined.

End StoreFacts.

(** ** Uploads *)

Section UploadFacts.
Import Store.

Ltac run_upload :=
  repeat match goal with
  | |- context [declared_too_large ?m ?c] => destruct (declared_too_large m c) eqn:?
  | |- context [json ?r] => destruct (json r) as [?body|?err] eqn:?
  | |- context [field_truthy (b_html ?b)] => destruct (field_truthy (b_html b)) eqn:?
  | |- context [(?m <? Z.of_nat ?n)%Z] => destruct (m <? Z.of_nat n)%Z eqn:?
  | |- context [if b_compressed ?b then _ else _] => destruct (b_compressed b) eqn:?
  | |- context [Codec.decompressHtml ?g ?h] =>
      destruct (Codec.decompressHtml g h) as [?finalHtml|?err] eqn:?
  | |- context [parseExpiration ?n ?x] =>
      destruct (parseExpiration n x) as [?expiresAt|?err] eqn:?
  | |- context [put_error ?e ?i ?o] => destruct (put_error e i o) as [?err|] eqn:?
  | _ => progress cbn [mbind result_bind negb fst snd status]
  end.

Lemma upload_metadata_stored (e : env) (b : body) (expiresAt : jsval) :
  upload_metadata e b expiresAt = stored_metadata e b expiresAt.
Proof.
  unfold upload_metadata, stored_metadata, stored_title, or_else.
  f_equal. destruct (b_sourceUrl b) as [[|c u]|]; reflexivity.
Qed.

(** What the plain worker does with a request. *)
Lemma plain_upload_cases (e : env) (request : request) (st : gmap jsstring object) :
  (status (WorkerPlain.handleUpload e request st).1 <> 200 /\
   (WorkerPlain.handleUpload e request st).2 = st) \/
  (exists b html expiresAt,
     json request = Return b /\ b_html b = Some html /\
     parseExpiration (now_expiration e) (b_expiresIn b) = Return expiresAt /\
     WorkerPlain.handleUpload e request st
     = (uploaded request (generateId e) expiresAt,
        <[generateId e := Object html (u16 "text/html; charset=utf-8")
                            (Some (stored_metadata e b expiresAt))]> st)).
Proof.
  unfold WorkerPlain.handleUpload. run_upload; try (left; split; [discriminate | reflexivity]).
  right.
  match goal with
  | Hj : json request = Return ?b, Hx : parseExpiration _ _ = Return ?x |- _ =>
      destruct (b_html b) as [html|] eqn:Hh; [|discriminate];
      exists b, html, x; rewrite upload_metadata_stored; auto
  end.
Qed.

(** What the decompressing worker does with a request. *)
Lemma upload_cases (gunzip : list N -> result (list (list N)))
    (e : env) (request : request) (st : gmap jsstring object) :
  (status (Worker.handleUpload gunzip e request st).1 <> 200 /\
   (Worker.handleUpload gunzip e request st).2 = st) \/
  (exists b html finalHtml expiresAt,
     json request = Return b /\ b_html b = Some html /\
     (if b_compressed b then Codec.decompressHtml gunzip html else Return html)
       = Return finalHtml /\
     parseExpiration (now_expiration e) (b_expiresIn b) = Return expiresAt /\
     Worker.handleUpload gunzip e request st
     = (uploaded request (generateId e) expiresAt,
        <[generateId e := Object finalHtml (u16 "text/html; charset=utf-8")
                            (Some (stored_metadata e b expiresAt))]> st)).
Proof.
  unfold Worker.handleUpload. run_upload; try (left; split; [discriminate | reflexivity]).
  - right.
    match goal with
    | Hj : json request = Return ?b, Hx : parseExpiration _ _ = Return ?x,
      Hd : Codec.decompressHtml _ _ = Return ?f |- _ =>
        destruct (b_html b) as [html|] eqn:Hh; [|discriminate];
        exists b, html, f, x; rewrite upload_metadata_stored;
        match goal with Hc : b_compressed _ = _ |- _ => rewrite Hc end; auto
    end.
  - right.
    match goal with
    | Hj : json request = Return ?b, Hx : parseExpiration _ _ = Return ?x |- _ =>
        destruct (b_html b) as [html|] eqn:Hh; [|discriminate];
        exists b, html, html, x; rewrite upload_metadata_stored;
        match goal with Hc : b_compressed _ = _ |- _ => rewrite Hc end; auto
    end.
Qed.

(** C8, as the code has it. [parseExpiration] returns null exactly when
    [expiresIn] is absent, is ["never"], or is not in the grammar
    [<integer><unit>] (no error is raised for such a value); for a value in
    the grammar whose expiration instant is a valid date (at most 8.64e15 ms
    from the epoch) it returns the ISO timestamp of the current time plus
    the integer times the duration of the unit; and a successful upload
    without [expiresIn] answers [expiresAt: null], in both workers. *)
Theorem parseExpiration_spec (now : Z) (expiresIn : option jsstring) :
  (parseExpiration now expiresIn = Return VNull <->
     expiresIn = None \/ expiresIn = Some (u16 "never") \/
     exists s, expiresIn = Some s /\ ~ in_grammar s) /\
  (forall ds u m,
     expiresIn = Some (ds ++ [u]) -> ds <> [] ->
     forallb Regex.is_digit ds = true -> multipliers u = Some m ->
     (Z.abs (now + Z.of_N (decimal ds) * m) <= max_time)%Z ->
     parseExpiration now expiresIn
     = Return (VText (Iso (now + Z.of_N (decimal ds) * m)))) /\
  (forall e request st b,
     json request = Return b -> b_expiresIn b = None ->
     status (WorkerPlain.handleUpload e request st).1 = 200 ->
     r_body (WorkerPlain.handleUpload e request st).1
     = Json [(u16 "id", VText (Str (generateId e)));
             (u16 "url",
              VText (Str (origin request ++ u16 "/" ++ generateId e ++ search request)));
             (u16 "expiresAt", VNull)]) /\
  (forall gunzip e request st b,
     json request = Return b -> b_expiresIn b = None ->
     status (Worker.handleUpload gunzip e request st).1 = 200 ->
     r_body (Worker.handleUpload gunzip e request st).1
     = Json [(u16 "id", VText (Str (generateId e)));
             (u16 "url",
              VText (Str (origin request ++ u16 "/" ++ generateId e ++ search request)));
             (u16 "expiresAt", VNull)]).
Proof.
  split_and!.
  - apply parseExpiration_null.
  - intros ds u m -> Hne Hds Hm Hrange.
    rewrite (parseExpiration_duration now ds u m) by assumption.
    unfold toISOString. apply Z.leb_le in Hrange. now rewrite Hrange.
  - intros e request st b Hj Hb H200.
    destruct (plain_upload_cases e request st)
      as [[Hne _] | (b' & html & x & Hj' & _ & Hx & E)]; [contradiction|].
    rewrite E. assert (b' = b) as -> by congruence.
    rewrite Hb in Hx. cbn in Hx. injection Hx as <-. reflexivity.
  - intros gunzip e request st b Hj Hb H200.
    destruct (upload_cases gunzip e request st)
      as [[Hne _] | (b' & html & f & x & Hj' & _ & _ & Hx & E)]; [contradiction|].
    rewrite E. assert (b' = b) as -> by congruence.
    rewrite Hb in Hx. cbn in Hx. injection Hx as <-. reflexivity.
Qed.

Lemma parseExpiration_witness :
  parseExpiration 1700000000000 (Some (u16 "1h"))
  = Return (VText (Iso 1700003600000)).
Proof.
  exact (proj1 (proj2 (parseExpiration_spec 1700000000000 (Some (u16 "1h"))))
           (u16 "1") 104 3600000%Z eq_refl ltac:(discriminate) eq_refl eq_refl
           ltac:(discriminate)).
Defined.

(** C8 as stated fails: a value of the grammar whose instant lies beyond
    the range of [Date] gets no timestamp; [toISOString] throws. *)
Lemma parseExpiration_out_of_range :
  in_grammar (u16 "1000000000d") /\
  parseExpiration 1700000000000 (Some (u16 "1000000000d")) = Throw RangeError.
Proof.
  split; [|reflexivity].
  exists (u16 "1000000000"), 100. split_and!; try reflexivity. discriminate.
Qed.

(** C9, as the code has it. A request whose [Content-Length] header reads
    as a number above [MAX_SIZE] is answered 413 with an error message and
    nothing is stored, in both workers; the plain worker answers the same
    when the UTF-8 encoding of the [html] it received is longer than
    [MAX_SIZE]. *)
Theorem oversize_rejected :
  (forall e request st h n,
     contentLength request = Some h -> parseInt h None = Some n ->
     (WorkerPlain.MAX_SIZE < n)%Z ->
     WorkerPlain.handleUpload e request st
     = (error_response 413 (u16 "Content too large"), st)) /\
  (forall gunzip e request st h n,
     contentLength request = Some h -> parseInt h None = Some n ->
     (Worker.MAX_SIZE < n)%Z ->
     Worker.handleUpload gunzip e request st
     = (error_response 413 (u16 "Content too large"), st)) /\
  (forall e request st b html,
     json request = Return b -> b_html b = Some html ->
     (WorkerPlain.MAX_SIZE < Z.of_nat (length (Encoding.encode html)))%Z ->
     WorkerPlain.handleUpload e request st
     = (error_response 413 (u16 "Content too large"), st)).
Proof.
  assert (Hdecl : forall M h n, parseInt h None = Some n -> (M < n)%Z ->
                    declared_too_large M (Some h) = true).
  { intros M h n Hp Hn. unfold declared_too_large. rewrite Hp.
    apply Z.ltb_lt in Hn. rewrite Hn.
    destruct h; [discriminate Hp | reflexivity]. }
  split_and!.
  - intros e request st h n Hc Hp Hn. unfold WorkerPlain.handleUpload.
    now rewrite Hc, (Hdecl _ _ _ Hp Hn).
  - intros gunzip e request st h n Hc Hp Hn. unfold Worker.handleUpload.
    now rewrite Hc, (Hdecl _ _ _ Hp Hn).
  - intros e request st b html Hj Hh Hlen. unfold WorkerPlain.handleUpload.
    destruct (declared_too_large _ _); [reflexivity|].
    rewrite Hj. cbn [mbind result_bind]. rewrite Hh.
    assert (Ht : field_truthy (Some html) = true).
    { destruct html; [|reflexivity].
      cbn in Hlen. unfold WorkerPlain.MAX_SIZE in Hlen. lia. }
    rewrite Ht. cbn [negb default from_option].
    apply Z.ltb_lt in Hlen. unfold default, from_option, id. now rewrite Hlen.
Qed.

Lemma oversize_rejected_witness :
  Worker.handleUpload Codec.stored_gunzip env0 declared_60MB ∅
  = (error_response 413 (u16 "Content too large"), ∅).
Proof.
  exact (proj1 (proj2 oversize_rejected) Codec.stored_gunzip env0 declared_60MB ∅
           (u16 "60000000") 60000000%Z eq_refl eq_refl eq_refl).
Defined.

Lemma encode_ascii (s : jsstring) :
  Forall (fun c => c < 128) s -> Encoding.encode s = s.
Proof.
  unfold Encoding.encode. induction 1 as [|c s Hc _ IH]; [reflexivity|].
  cbn [Encoding.to_scalars]. unfold Encoding.is_lead, Encoding.is_trail.
  destruct (N.leb_spec 0xD800 c); [lia|]. cbn [andb].
  destruct (N.leb_spec 0xDC00 c); [lia|]. cbn [andb flat_map].
  rewrite IH. unfold Encoding.utf8_of_scalar.
  destruct (N.ltb_spec c 0x80); [reflexivity | lia].
Qed.

Lemma page_over_50MB_size :
  (Worker.MAX_SIZE < Z.of_nat (length (Encoding.encode page_over_50MB)))%Z.
Proof.
  rewrite encode_ascii.
  - unfold page_over_50MB. rewrite length_cons, length_replicate.
    unfold Worker.MAX_SIZE. lia.
  - unfold page_over_50MB. constructor; [lia|].
    apply Forall_replicate. lia.
Qed.

(** Without a [Content-Length] header the decompressing worker stores a page
    whatever its size. *)
Lemma upload_undeclared (gunzip : list N -> result (list (list N)))
    (e : env) (request : request) (st : gmap jsstring object)
    (c : N) (html : jsstring) (title sourceUrl : option jsstring) :
  contentLength request = None ->
  json request = Return (Body (Some (c :: html)) false title sourceUrl None) ->
  (forall object, put_error e (generateId e) object = None) ->
  Worker.handleUpload gunzip e request st
  = (uploaded request (generateId e) VNull,
     <[generateId e :=
         Object (c :: html) ctype
           (Some (upload_metadata e (Body (Some (c :: html)) false title sourceUrl None)
                    VNull))]> st).
Proof.
  intros Hc Hj Hput. unfold Worker.handleUpload. rewrite Hc, Hj.
  cbn [declared_too_large mbind result_bind b_html b_compressed b_expiresIn field_truthy
       truthy negb default from_option Datatypes.id parseExpiration].
  rewrite Hput. reflexivity.
Qed.

(** C9 as stated fails: a page larger than the ceiling, sent without a
    [Content-Length] header, is stored by the decompressing worker and
    answered 200. *)
Lemma oversize_stored :
  (Worker.MAX_SIZE < Z.of_nat (length (Encoding.encode page_over_50MB)))%Z /\
  status (Worker.handleUpload Codec.stored_gunzip env0 undeclared_over_50MB ∅).1 = 200 /\
  o_body <$> (Worker.handleUpload Codec.stored_gunzip env0 undeclared_over_50MB ∅).2
               !! generateId env0
  = Some page_over_50MB.
Proof.
  split; [exact page_over_50MB_size|].
  rewrite (upload_undeclared Codec.stored_gunzip env0 undeclared_over_50MB ∅
             97 (replicate (N.to_nat 52428800) 97) None None eq_refl eq_refl
             (fun _ => eq_refl)).
  split; [reflexivity|].
  cbn [snd]. now rewrite lookup_insert_eq.
Qed.

(** C10, as the code has it. An upload that is answered 200 has stored,
    under the identifier it generated, the page with all four metadata
    fields: the title of the request when it has one that is not empty and
    ['Untitled'] otherwise, the source URL of the request or the empty
    string, the time of the upload, and the result of [parseExpiration];
    an upload answered otherwise has stored nothing.  Both workers. *)
Theorem upload_stores_metadata
    (gunzip : list N -> result (list (list N)))
    (e : env) (request : request) (st : gmap jsstring object) :
  (status (WorkerPlain.handleUpload e request st).1 = 200 ->
   exists b html expiresAt,
     json request = Return b /\
     parseExpiration (now_expiration e) (b_expiresIn b) = Return expiresAt /\
     (WorkerPlain.handleUpload e request st).2
     = <[generateId e :=
           Object html ctype
             (Some {| m_title := Some (stored_title b);
                      m_sourceUrl := Some (default [] (b_sourceUrl b));
                      m_createdAt := Some (now_handler e);
                      m_expiresAt := Some expiresAt |})]> st) /\
  (status (WorkerPlain.handleUpload e request st).1 <> 200 ->
   (WorkerPlain.handleUpload e request st).2 = st) /\
  (status (Worker.handleUpload gunzip e request st).1 = 200 ->
   exists b html expiresAt,
     json request = Return b /\
     parseExpiration (now_expiration e) (b_expiresIn b) = Return expiresAt /\
     (Worker.handleUpload gunzip e request st).2
     = <[generateId e :=
           Object html ctype
             (Some {| m_title := Some (stored_title b);
                      m_sourceUrl := Some (default [] (b_sourceUrl b));
                      m_createdAt := Some (now_handler e);
                      m_expiresAt := Some expiresAt |})]> st) /\
  (status (Worker.handleUpload gunzip e request st).1 <> 200 ->
   (Worker.handleUpload gunzip e request st).2 = st).
Proof.
  split_and!.
  - intros H200. destruct (plain_upload_cases e request st)
      as [[Hne _] | (b & html & x & Hj & _ & Hx & E)]; [contradiction|].
    exists b, html, x. rewrite E. auto.
  - intros Hne. destruct (plain_upload_cases e request st)
      as [[_ Hst] | (b & html & x & _ & _ & _ & E)]; [exact Hst|].
    rewrite E in Hne. now contradiction Hne.
  - intros H200. destruct (upload_cases gunzip e request st)
      as [[Hne _] | (b & html & f & x & Hj & _ & _ & Hx & E)]; [contradiction|].
    exists b, f, x. rewrite E. auto.
  - intros Hne. destruct (upload_cases gunzip e request st)
      as [[_ Hst] | (b & html & f & x & _ & _ & _ & _ & E)]; [exact Hst|].
    rewrite E in Hne. now contradiction Hne.
Qed.

Lemma upload_stores_metadata_witness :
  exists b html expiresAt,
    json (titled_upload (Some (u16 "Home"))) = Return b /\
    parseExpiration (now_expiration env0) (b_expiresIn b) = Return expiresAt /\
    (Worker.handleUpload Codec.stored_gunzip env0 (titled_upload (Some (u16 "Home"))) ∅).2
    = <[generateId env0 :=
          Object html ctype
            (Some {| m_title := Some (stored_title b);
                     m_sourceUrl := Some (default [] (b_sourceUrl b));
                     m_createdAt := Some (now_handler env0);
                     m_expiresAt := Some expiresAt |})]> ∅.
Proof.
  exact (proj1 (proj2 (proj2 (upload_stores_metadata Codec.stored_gunzip env0
                                (titled_upload (Some (u16 "Home"))) ∅))) eq_refl).
Defined.

(** C10 as stated fails: a request with an empty title has a title, and
    the entry is stored with ['Untitled']. *)
Lemma empty_title_stored_untitled :
  (o_customMetadata <$>
     (Worker.handleUpload Codec.stored_gunzip env0 (titled_upload (Some [])) ∅).2
       !! generateId env0)
  = Some (Some {| m_title := Some (u16 "Untitled");
                  m_sourceUrl := Some [];
                  m_createdAt := Some 1700000000000%Z;
                  m_expiresAt := Some (VText (Iso 1700003600000)) |}).
Proof.
  destruct (upload_cases Codec.stored_gunzip env0 (titled_upload (Some [])) ∅)
    as [[Hne _] | (b & html & f & x & Hj & _ & _ & Hx & E)].
  - exfalso. apply Hne. reflexivity.
  - rewrite E. cbn [snd]. rewrite lookup_insert_eq.
    injection Hj as <-. injection Hx as <-. reflexivity.
Qed.

End UploadFacts.

(** ** The capture script *)

Section PageFacts.
Import Page.

(** [fetchAsDataUrl] returns; it does not throw. *)
Lemma fetchAsDataUrl_returns (w : world) (url : jsstring) (baseUrl : option jsstring) :
  exists v, (fetchAsDataUrl w url baseUrl).2 = Return v.
Proof.
  unfold fetchAsDataUrl.
  destruct (new_URL w url _) as [absoluteUrl|e]; [|eauto].
  destruct (startsWith _ absoluteUrl); [eauto|]. cbn [snd].
  destruct (fetch w absoluteUrl) as [response|e]; cbn; [|eauto].
  destruct (ok response); cbn; [|eauto].
  destruct (r_blob response) as [b|e]; cbn; [|eauto].
  destruct (length (blob_bytes b) =? 0)%nat; cbn; eauto.
Qed.

(** C4, as the code has it. [fetchAsDataUrl] always returns and never
    throws. It returns null, without a request, for a malformed URL; it
    returns a [data:] URL as it is, without a request; otherwise it sends
    one request and returns null when the fetch rejects, when the response
    is not ok, when reading the body throws, when the body is empty, and
    when the [FileReader] fails on it; in every other case it returns the
    body as a [data:] URL. *)
Theorem fetchAsDataUrl_spec (w : world) (url : jsstring) (baseUrl : option jsstring)
    (base : jsstring) :
  base = or_else baseUrl (location_href w) ->
  (exists v, (fetchAsDataUrl w url baseUrl).2 = Return v) /\
  (forall e, new_URL w url base = Throw e ->
     fetchAsDataUrl w url baseUrl = ([], Return None)) /\
  (forall abs, new_URL w url base = Return abs ->
     startsWith (u16 "data:") abs = true ->
     fetchAsDataUrl w url baseUrl = ([], Return (Some abs))) /\
  (forall abs, new_URL w url base = Return abs ->
     startsWith (u16 "data:") abs = false ->
     (fetchAsDataUrl w url baseUrl).1 = [abs] /\
     (forall e, fetch w abs = Throw e ->
        (fetchAsDataUrl w url baseUrl).2 = Return None) /\
     (forall r, fetch w abs = Return r ->
        (ok r = false -> (fetchAsDataUrl w url baseUrl).2 = Return None) /\
        (forall e, ok r = true -> r_blob r = Throw e ->
           (fetchAsDataUrl w url baseUrl).2 = Return None) /\
        (forall b, ok r = true -> r_blob r = Return b ->
           (blob_bytes b = [] -> (fetchAsDataUrl w url baseUrl).2 = Return None) /\
           (readable b = false -> (fetchAsDataUrl w url baseUrl).2 = Return None) /\
           (blob_bytes b <> [] -> readable b = true ->
              (fetchAsDataUrl w url baseUrl).2
              = Return (Some (u16 "data:" ++ blob_type b ++ u16 ";base64,"
                              ++ Base64.encode_bytes (blob_bytes b))))))).
Proof.
  intros ->. split; [apply fetchAsDataUrl_returns|].
  unfold fetchAsDataUrl. split_and!.
  - intros e ->. reflexivity.
  - intros abs -> ->. reflexivity.
  - intros abs -> ->. cbn [fst snd]. split_and!; [reflexivity | |].
    + intros e ->. reflexivity.
    + intros r ->. cbn [mbind result_bind]. split_and!.
      * intros ->. reflexivity.
      * intros e -> ->. reflexivity.
      * intros b -> ->. cbn [negb mbind result_bind]. split_and!.
        -- intros ->. reflexivity.
        -- intros Hr. unfold readAsDataURL. rewrite Hr.
           destruct (length (blob_bytes b) =? 0)%nat; reflexivity.
        -- intros Hne Hr. unfold readAsDataURL. rewrite Hr.
           destruct (blob_bytes b); [contradiction | reflexivity].
Qed.

Lemma fetchAsDataUrl_witness :
  fetchAsDataUrl (page true) (u16 "a") None
  = ([u16 "https://e.x/a"], Return (Some (u16 "data:image/png;base64,AQID"))).
Proof.
  destruct (fetchAsDataUrl_spec (page true) (u16 "a") None _ eq_refl)
    as (_ & _ & _ & H).
  destruct (H (u16 "https://e.x/a") eq_refl eq_refl) as (H1 & _ & H2).
  destruct (H2 _ eq_refl) as (_ & _ & H3).
  destruct (H3 _ eq_refl eq_refl) as (_ & _ & H4).
  specialize (H4 ltac:(discriminate) eq_refl).
  destruct (fetchAsDataUrl (page true) (u16 "a") None) as [calls out].
  cbn [fst snd] in H1, H4. rewrite H1, H4. reflexivity.
Defined.

(** C4 as stated fails: the URL is well formed, the response is ok, nothing
    throws and the body has three bytes, yet the result is null, because
    the [FileReader] fails. *)
Lemma fetchAsDataUrl_reader_error :
  new_URL (page false) (u16 "a") (u16 "https://e.x/") = Return (u16 "https://e.x/a") /\
  fetch (page false) (u16 "https://e.x/a")
  = Return (Response true (Return (Blob (u16 "image/png") [1; 2; 3] false)) (Return [])) /\
  fetchAsDataUrl (page false) (u16 "a") None = ([u16 "https://e.x/a"], Return None).
Proof. split_and!; reflexivity. Qed.

(** The loop that fills [urlMap] returns, and it enters a URL only with
    the data its fetch returned. *)
Lemma fetch_loop (w : world) (baseUrl : jsstring) (urls : list jsstring)
    (acc : list (jsstring * jsstring)) :
  exists urlMap,
    for_each
      (fun urlMap originalUrl =>
         dataUrl ← (fetchAsDataUrl w originalUrl (Some baseUrl)).2;
         match dataUrl with
         | Some dataUrl =>
             if truthy dataUrl then Return (urlMap ++ [(originalUrl, dataUrl)])
             else Return urlMap
         | None => Return urlMap
         end) urls acc = Return urlMap /\
    forall originalUrl dataUrl, (originalUrl, dataUrl) ∈ urlMap ->
      (originalUrl, dataUrl) ∈ acc \/
      (originalUrl ∈ urls /\
       (fetchAsDataUrl w originalUrl (Some baseUrl)).2 = Return (Some dataUrl)).
Proof.
  revert acc; induction urls as [|u urls IH]; intros acc; cbn [for_each].
  - exists acc. split; [reflexivity | auto].
  - destruct (fetchAsDataUrl_returns w u (Some baseUrl)) as [v Hv]. rewrite Hv.
    cbn [mbind result_bind].
    destruct v as [d|]; [destruct (truthy d)|]; cbn [mbind result_bind].
    + destruct (IH (acc ++ [(u, d)])) as (m & Hm & Hin). exists m.
      split; [exact Hm|]. intros o d' Hod.
      destruct (Hin o d' Hod) as [Ha | [Hu Hf]].
      * apply elem_of_app in Ha as [Ha | Ha]; [auto|].
        apply list_elem_of_singleton in Ha as [= -> ->].
        right. split; [apply elem_of_cons; auto | exact Hv].
      * right. split; [apply elem_of_cons; auto | exact Hf].
    + destruct (IH acc) as (m & Hm & Hin). exists m.
      split; [exact Hm|]. intros o d' Hod.
      destruct (Hin o d' Hod) as [Ha | [Hu Hf]]; [auto|].
      right. split; [apply elem_of_cons; auto | exact Hf].
    + destruct (IH acc) as (m & Hm & Hin). exists m.
      split; [exact Hm|]. intros o d' Hod.
      destruct (Hin o d' Hod) as [Ha | [Hu Hf]]; [auto|].
      right. split; [apply elem_of_cons; auto | exact Hf].
Qed.

(** Only a URL whose fetch succeeded is a key of [urlMap]. *)
Lemma fetch_all_successes (w : world) (baseUrl : jsstring) (uniqueUrls : list jsstring) :
  exists urlMap,
    fetch_all w baseUrl uniqueUrls = Return urlMap /\
    forall originalUrl dataUrl, (originalUrl, dataUrl) ∈ urlMap ->
      (fetchAsDataUrl w originalUrl (Some baseUrl)).2 = Return (Some dataUrl).
Proof.
  destruct (fetch_loop w baseUrl uniqueUrls []) as (m & Hm & Hin).
  exists m. split; [exact Hm|]. intros o d Hod.
  destruct (Hin o d Hod) as [Hnil | [_ Hf]]; [inversion Hnil | exact Hf].
Qed.

(** [processCssUrls] returns; it does not throw. *)
Lemma processCssUrls_returns (w : world) (cssText baseUrl : jsstring) :
  exists css, processCssUrls w cssText baseUrl = Return css.
Proof.
  unfold processCssUrls. destruct (length _ =? 0)%nat; [eauto|].
  destruct (fetch_all_successes w baseUrl
              (unique [] (List.filter
                 (fun u => negb (startsWith (u16 "data:") u)
                           && negb (startsWith (u16 "#") u)) (matchAll 0 cssText))))
    as (m & -> & _).
  cbn. eauto.
Qed.

Lemma fetch_sheet_returns (w : world) (sh : sheet) :
  exists css, fetch_sheet w sh = Return css.
Proof.
  unfold fetch_sheet. destruct (href sh) as [h|]; [|eauto].
  destruct (truthy h); [|eauto].
  destruct (fetch w h) as [r|e]; cbn; [|eauto].
  destruct (ok r); [|eauto].
  destruct (r_text r) as [t|e]; cbn; [|eauto].
  destruct (processCssUrls_returns w t h) as [css ->]. cbn. eauto.
Qed.

(** C3. [processStyleSheet] returns a text for every sheet of every import
    graph, cyclic or not, at every depth (it is defined by recursion on the
    distance of [depth] from the bound, and it never throws); beyond the
    bound, that is for [depth > 5], the text is empty. *)
Theorem processStyleSheet_terminates (w : world) (sheet : nat) (depth : nat) :
  (exists css, processStyleSheet w sheet depth = Return css) /\
  ((5 < depth)%nat -> processStyleSheet w sheet depth = Return []).
Proof.
  split.
  - remember (6 - depth)%nat as n eqn:Hn.
    revert sheet depth Hn.
    induction n as [n IH] using lt_wf_ind. intros sheet depth Hn.
    rewrite processStyleSheet_equation_1.
    destruct (lt_dec 5 depth) as [Hgt|Hle]; cbn; [eauto|].
    destruct (cssRules (sheets w sheet)) as [rules|e]; cbn [mbind result_bind try_catch];
      [|apply fetch_sheet_returns].
    assert (Hloop : forall rules cssText, exists t,
              for_each
                (fun cssText rule =>
                   match rule with
                   | ImportRule _ (Some styleSheet) =>
                       imported ← processStyleSheet w styleSheet (depth + 1);
                       Return (cssText ++ imported)
                   | ImportRule ruleText None | StyleRule ruleText =>
                       Return (cssText ++ ruleText ++ newline)
                   end) rules cssText = Return t).
    { clear rules. induction rules as [|r rules IHr]; intros cssText;
        cbn [for_each]; [eauto|].
      destruct r as [t [target|]|t]; cbn [mbind result_bind]; try apply IHr.
      destruct (IH (6 - (depth + 1))%nat ltac:(lia) target (depth + 1)%nat eq_refl)
        as [imported ->].
      cbn [mbind result_bind]. apply IHr. }
    destruct (Hloop rules []) as [t ->]. cbn [mbind result_bind].
    destruct (processCssUrls_returns w t (or_else (href (sheets w sheet)) (location_href w)))
      as [css ->].
    cbn. eauto.
  - intros Hgt. rewrite processStyleSheet_equation_1.
    destruct (lt_dec 5 depth); [reflexivity | contradiction].
Qed.

(** On the graph of [page], where every sheet imports itself, the rule of
    the sheet is read at the depths 0 to 5. *)
Lemma processStyleSheet_witness :
  processStyleSheet (page true) 0 0
  = Return (u16 "p{}" ++ newline ++ u16 "p{}" ++ newline ++ u16 "p{}" ++ newline
            ++ u16 "p{}" ++ newline ++ u16 "p{}" ++ newline ++ u16 "p{}" ++ newline) /\
  processStyleSheet (page true) 0 6 = Return [].
Proof.
  split; [vm_compute; reflexivity|].
  exact (proj2 (processStyleSheet_terminates (page true) 0 6) ltac:(lia)).
Defined.

(** C1. [capturePageSnapshot] always returns a result, and the result is of
    one of two forms: [success = true] with [html], a document that starts
    with the DOCTYPE declaration, and no [error]; or [success = false] with
    an [error] that is not empty and no [html]. *)
Theorem capturePageSnapshot_result (w : world) :
  exists r, capturePageSnapshot w = Return r /\
    if success r
    then (exists doc, html r = Some (DOCTYPE ++ doc)) /\ error r = None
    else (exists message, error r = Some message /\ message <> []) /\ html r = None.
Proof.
  unfold capturePageSnapshot.
  destruct (getAllStylesheetCSS w) as [allCSS|e]; cbn [mbind result_bind try_catch].
  - destruct (render w allCSS) as [outerHTML|e]; cbn [mbind result_bind try_catch].
    + eexists; split; [reflexivity|]. cbn. split; [|reflexivity].
      exists outerHTML. reflexivity.
    + eexists; split; [reflexivity|]. cbn. split; [|reflexivity].
      eexists; split; [reflexivity|].
      destruct (exn_message e); cbn; discriminate.
  - eexists; split; [reflexivity|]. cbn. split; [|reflexivity].
    eexists; split; [reflexivity|].
    destruct (exn_message e); cbn; discriminate.
Qed.

(** Both forms occur: the example page is captured, and the page whose
    clone cannot be serialized gives the default message. *)
Lemma capturePageSnapshot_examples :
  (exists doc,
     capturePageSnapshot (page true)
     = Return {| success := true; html := Some (DOCTYPE ++ doc);
                 title := Some (u16 "Example"); sourceUrl := Some (u16 "https://e.x/");
                 error := None |}) /\
  capturePageSnapshot broken_page
  = Return {| success := false; html := None; title := None; sourceUrl := None;
              error := Some (u16 "Capture failed") |}.
Proof. split; [eexists|]; vm_compute; reflexivity. Qed.

(** When no fetch of a pass succeeds, the text is returned as it is. *)
Lemma processCssUrls_all_unavailable (w : world) (cssText baseUrl : jsstring) :
  (forall url, (fetchAsDataUrl w url (Some baseUrl)).2 = Return None) ->
  processCssUrls w cssText baseUrl = Return cssText.
Proof.
  intros Hnone. unfold processCssUrls. destruct (length _ =? 0)%nat; [reflexivity|].
  destruct (fetch_all_successes w baseUrl
              (unique [] (List.filter
                 (fun u => negb (startsWith (u16 "data:") u)
                           && negb (startsWith (u16 "#") u)) (matchAll 0 cssText))))
    as (m & -> & Hin).
  destruct m as [|[o d] m]; [reflexivity|].
  specialize (Hin o d ltac:(apply elem_of_cons; auto)).
  rewrite Hnone in Hin. discriminate.
Qed.

(** C2 at a failing input. In [url(url(a) url(a)] the expression finds two
    references, [url(a] and [a]. The fetch of [url(a] fails and the fetch
    of [a] succeeds; replacing every [url(a)] of the text also rewrites the
    inside of the first reference, whose text is no longer in the output. *)
Theorem processCssUrls_rewrites_failed_reference :
  matchAll 0 (u16 "url(url(a) url(a)") = [u16 "url(a"; u16 "a"] /\
  (fetchAsDataUrl (page true) (u16 "url(a") (Some (u16 "https://e.x/"))).2 = Return None /\
  (fetchAsDataUrl (page true) (u16 "a") (Some (u16 "https://e.x/"))).2
  = Return (Some (u16 "data:image/png;base64,AQID")) /\
  processCssUrls (page true) (u16 "url(url(a) url(a)") (u16 "https://e.x/")
  = Return (u16 "url(url(" ++ dquote ++ u16 "data:image/png;base64,AQID" ++ dquote
            ++ u16 ") url(" ++ dquote ++ u16 "data:image/png;base64,AQID" ++ dquote
            ++ u16 ")") /\
  startsWith (u16 "url(url(a)") (u16 "url(url(a) url(a)") = true /\
  startsWith (u16 "url(url(a)")
    (u16 "url(url(" ++ dquote ++ u16 "data:image/png;base64,AQID" ++ dquote
     ++ u16 ") url(" ++ dquote ++ u16 "data:image/png;base64,AQID" ++ dquote
     ++ u16 ")") = false.
Proof. split_and!; vm_compute; reflexivity. Qed.

End PageFacts.

(** ** The sanitizer *)

Section DomFacts.
Import Dom.

Lemma node_nested_ind (P : node -> Prop) :
  (forall localName attributes childNodes,
     Forall P childNodes -> P (Element localName attributes childNodes)) ->
  (forall data, P (TextNode data)) ->
  forall n, P n.
Proof.
  intros Helem Htext. fix IH 1. intros [localName attributes childNodes | data].
  - apply Helem. induction childNodes as [|c cs IHcs]; constructor.
    + apply IH.
    + exact IHcs.
  - apply Htext.
Qed.

Lemma strip_loop_lookup (l : list (jsstring * jsstring)) (m : gmap jsstring jsstring)
    (name value : jsstring) :
  fold_left
    (fun attrs '(name, value) =>
       if to_remove name value then delete name attrs else attrs) l m
    !! name = Some value ->
  m !! name = Some value /\ ((name, value) ∈ l -> to_remove name value = false).
Proof.
  revert m; induction l as [|[k v] l IH]; intros m H; cbn [fold_left] in H.
  - split; [exact H|]. intros Hin. inversion Hin.
  - apply IH in H as [Hm Hl].
    assert (Hm' : m !! name = Some value).
    { destruct (to_remove k v); [|exact Hm].
      apply lookup_delete_Some in Hm. tauto. }
    split; [exact Hm'|]. intros Hin.
    apply elem_of_cons in Hin as [[= -> ->] | Hin]; [|auto].
    destruct (to_remove k v) eqn:E; [|reflexivity].
    rewrite lookup_delete_eq in Hm. discriminate.
Qed.

Lemma strip_attributes_lookup (attributes : gmap jsstring jsstring) (name value : jsstring) :
  strip_attributes attributes !! name = Some value ->
  attributes !! name = Some value /\ to_remove name value = false.
Proof.
  intros H. apply strip_loop_lookup in H as [Hm Hl]. split; [exact Hm|].
  apply Hl. now apply elem_of_map_to_list.
Qed.

Lemma is_script_false (localName : jsstring) :
  is_script localName = false ->
  localName <> u16 "script" /\ localName <> u16 "noscript".
Proof.
  unfold is_script. intros H. apply orb_false_iff in H as [H1 H2].
  split; intros ->; [rewrite str_eqb_refl in H1 | rewrite str_eqb_refl in H2];
    discriminate.
Qed.

Lemma removeScripts_node (n : node) :
  Forall (every_element sanitized) (List.map strip_elements (remove_scripts n)).
Proof.
  induction n as [localName attributes childNodes IH | data] using node_nested_ind.
  - cbn [remove_scripts]. destruct (is_script localName) eqn:Hs; [constructor|].
    cbn [List.map strip_elements]. constructor; [|constructor].
    constructor.
    + destruct (is_script_false _ Hs) as [H1 H2]. split_and!; try assumption.
      intros name value Hl. apply strip_attributes_lookup in Hl as [_ Hr].
      unfold to_remove in Hr. apply orb_false_iff in Hr as [Hon Hjs].
      split; [exact Hon|]. intros ->. now rewrite str_eqb_refl in Hjs.
    + induction IH as [|c cs Hc _ IHcs]; [constructor|].
      cbn [flat_map]. rewrite map_app. apply Forall_app. split; assumption.
  - repeat constructor.
Qed.

(** What [removeScripts] does establish, by the tests of the code as they
    are written: afterwards no element of the document is a script or a
    noscript element, no element has an attribute whose name begins with
    [on], and no attribute named [href] has a value that begins with the
    eleven characters [javascript:] in lower case. *)
Theorem removeScripts_sanitized (doc : list node) :
  Forall (every_element sanitized) (removeScripts doc).
Proof.
  unfold removeScripts. induction doc as [|n doc IH]; [constructor|].
  cbn [flat_map]. rewrite map_app. apply Forall_app. split.
  - apply removeScripts_node.
  - exact IH.
Qed.

(** [removeScripts] on the small document: the script is gone, and so are
    the handler of the body and the [javascript:] link; the plain link
    stays. *)
Lemma removeScripts_small_document :
  removeScripts small_document
  = [Element (u16 "html") ∅
       [Element (u16 "head") ∅ [];
        Element (u16 "body") ∅
          [Element (u16 "a") ∅ [TextNode (u16 "x")];
           Element (u16 "a") {[ u16 "href" := u16 "/next" ]} [TextNode (u16 "y")]]]].
Proof. vm_compute. reflexivity. Qed.

(** C6 at a failing input. The scheme of a URL is read without regard to
    case, and [href] is not the only attribute that holds a link. The
    document [script_links] has a link whose [href] is
    [JavaScript:alert(1)] and, inside an [svg] element, a link whose
    [xlink:href] is [javascript:alert(1)]; both values begin with the
    scheme [javascript:], and [removeScripts] returns the document as it
    is, with both attributes. *)
Theorem removeScripts_keeps_script_links :
  removeScripts script_links = script_links /\
  executable_url (u16 "JavaScript:alert(1)") = true /\
  executable_url (u16 "javascript:alert(1)") = true /\
  to_remove (u16 "href") (u16 "JavaScript:alert(1)") = false /\
  to_remove (u16 "xlink:href") (u16 "javascript:alert(1)") = false.
Proof. split_and!; vm_compute; reflexivity. Qed.

End DomFacts.

(** * Further properties of the code *)

(** ** The worker: identifiers, routing, and uploads that are read back *)

Section WorkerFacts.
Import Store.

(** X1. An identifier has eight characters, each of the 62 letters and
    digits of [chars]. *)
Theorem generateId_alphabet (e : env) :
  length (generateId e) = 8%nat /\
  Forall (fun c => c ∈ chars) (generateId e).
Proof.
  unfold generateId. split.
  - now rewrite length_map, length_seq.
  - apply Forall_forall. intros c Hc. apply list_elem_of_In in Hc.
    apply in_map_iff in Hc as (i & <- & _).
    apply list_elem_of_In, nth_In.
    assert (Hlen : length chars = 62%nat) by (vm_compute; reflexivity).
    rewrite Hlen. pose proof (N.mod_upper_bound (draws e i) 62). lia.
Qed.

Lemma handleServe_store (now : Z) (id : jsstring) (st : gmap jsstring object) :
  (handleServe now id st).2 = st \/ (handleServe now id st).2 = delete id st.
Proof.
  unfold handleServe. destruct (st !! id) as [o|]; [|auto].
  match goal with |- context [if ?c then _ else _] => destruct c end; [auto|].
  match goal with |- (match ?a with _ => _ end).2 = _ \/ _ => destruct a end; auto.
Qed.

Lemma plain_upload_store (e : env) (request : request) (st : gmap jsstring object) :
  (WorkerPlain.handleUpload e request st).2 = st \/
  exists o, (WorkerPlain.handleUpload e request st).2 = <[generateId e := o]> st.
Proof.
  destruct (plain_upload_cases e request st)
    as [[_ H] | (b & html & x & _ & _ & _ & E)]; [auto|].
  right. rewrite E. eauto.
Qed.

Lemma upload_store (gunzip : list N -> result (list (list N)))
    (e : env) (request : request) (st : gmap jsstring object) :
  (Worker.handleUpload gunzip e request st).2 = st \/
  exists o, (Worker.handleUpload gunzip e request st).2 = <[generateId e := o]> st.
Proof.
  destruct (upload_cases gunzip e request st)
    as [[_ H] | (b & html & f & x & _ & _ & _ & _ & E)]; [auto|].
  right. rewrite E. eauto.
Qed.

(** X2. Whatever the request, [fetch] leaves alone every entry of the
    bucket other than the one under the identifier it generates and the one
    the path names: an upload adds one entry, a read deletes at most the
    entry it reads. Both workers. *)
Theorem fetch_frame (gunzip : list N -> result (list (list N)))
    (e : env) (request : request) (st : gmap jsstring object) (k : jsstring) :
  k <> generateId e -> k <> drop 1 (pathname request) ->
  (WorkerPlain.fetch e request st).2 !! k = st !! k /\
  (Worker.fetch gunzip e request st).2 !! k = st !! k.
Proof.
  intros Hid Hpath. unfold WorkerPlain.fetch, Worker.fetch.
  destruct (str_eqb (method request) (u16 "OPTIONS")); [auto|].
  destruct (str_eqb (method request) (u16 "POST") && _).
  - split.
    + destruct (plain_upload_store e request st) as [-> | [o ->]]; [reflexivity|].
      now rewrite lookup_insert_ne.
    + destruct (upload_store gunzip e request st) as [-> | [o ->]]; [reflexivity|].
      now rewrite lookup_insert_ne.
  - destruct (str_eqb (method request) (u16 "GET") && _); [|auto].
    destruct (handleServe_store (now_handler e) (drop 1 (pathname request)) st)
      as [-> | ->]; [auto|].
    now rewrite lookup_delete_ne.
Qed.

Lemma fetch_frame_witness :
  (Worker.fetch Codec.stored_gunzip env0 declared_60MB one_entry).2 !! u16 "abc"
  = one_entry !! u16 "abc".
Proof.
  exact (proj2 (fetch_frame Codec.stored_gunzip env0 declared_60MB one_entry (u16 "abc")
                  ltac:(discriminate) ltac:(discriminate))).
Defined.

(** [parseExpiration] returns null or a timestamp. *)
Lemma parseExpiration_value (now : Z) (expiresIn : option jsstring) (v : jsval) :
  parseExpiration now expiresIn = Return v ->
  v = VNull \/ exists t, v = VText (Iso t).
Proof.
  unfold parseExpiration. destruct expiresIn as [s|]; [|intros [= <-]; auto].
  destruct (negb (truthy s) || str_eqb s (u16 "never")); [intros [= <-]; auto|].
  destruct (expiration_re s) as [[g1 g2]|]; [|intros [= <-]; auto].
  unfold toISOString.
  destruct (match parseInt g1 (Some 10), multipliers g2 with
            | Some value, Some m => Some (now + value * m)%Z
            | _, _ => None
            end) as [t|]; [|discriminate].
  destruct (Z.abs t <=? max_time)%Z; [|discriminate].
  intros [= <-]. eauto.
Qed.

(** A read of an entry that an upload has just stored. *)
Lemma handleServe_stored (now' : Z) (e : env) (b : body) (content : jsstring)
    (x : jsval) (st : gmap jsstring object) (id : jsstring) :
  let st' := <[id := Object content ctype (Some (stored_metadata e b x))]> st in
  (x = VNull \/ (exists t, x = VText (Iso t) /\ (now' <= t)%Z) ->
   header_value_ok (default [] (b_sourceUrl b)) = true ->
     status (handleServe now' id st').1 = 200 /\
     r_body (handleServe now' id st').1 = Text content /\
     (handleServe now' id st').2 = st') /\
  (forall t, x = VText (Iso t) -> (t < now')%Z ->
     handleServe now' id st'
     = (text_response 410 (u16 "Snapshot has expired"), delete id st)).
Proof.
  intros st'. subst st'. split.
  - intros Hx Hok.
    pose proof (handleServe_unexpired now'
                  id (<[id := Object content ctype (Some (stored_metadata e b x))]> st)
                  (Object content ctype (Some (stored_metadata e b x)))
                  (lookup_insert_eq _ _ _)) as H.
    assert (Hs : servable (Object content ctype (Some (stored_metadata e b x))) = true).
    { unfold servable. cbn [o_customMetadata default from_option Datatypes.id
                            stored_metadata m_expiresAt m_sourceUrl].
      rewrite Hok. destruct Hx as [-> | (t & -> & _)]; reflexivity. }
    rewrite Hs in H. apply H. unfold expiry_of. cbn.
    destruct Hx as [-> | (t & -> & Ht)]; [discriminate|]. now intros ? [= <-].
  - intros t -> Ht. unfold handleServe. rewrite lookup_insert_eq. cbn.
    apply Z.ltb_lt in Ht. rewrite Ht. now rewrite delete_insert_eq.
Qed.

(** X3. A page that was uploaded is read back. When an upload is answered
    200, the answer carries the generated identifier and the address of
    the request with the identifier as its path, and a read of that
    identifier at an instant that is not after the expiration (or at any
    instant, when the expiration is null) is answered 200 with the page and
    leaves the bucket as it is, provided the [sourceUrl] of the upload can
    be set as a header and the page is well formed and does not start with
    a byte order mark (the bucket keeps text in UTF-8, and the reader of the
    answer decodes it): the page as sent for the plain worker, the
    decompressed page (or the page as sent, when it was not compressed) for
    the other. An entry stored before under the same identifier is
    replaced. *)
Theorem upload_read_back (gunzip : list N -> result (list (list N)))
    (e : env) (request : request) (st : gmap jsstring object) (now' : Z) :
  (status (WorkerPlain.handleUpload e request st).1 = 200 ->
   exists b html expiresAt,
     json request = Return b /\ b_html b = Some html /\
     parseExpiration (now_expiration e) (b_expiresIn b) = Return expiresAt /\
     (WorkerPlain.handleUpload e request st).1
     = uploaded request (generateId e) expiresAt /\
     ((expiresAt = VNull \/ exists t, expiresAt = VText (Iso t) /\ (now' <= t)%Z) ->
      header_value_ok (default [] (b_sourceUrl b)) = true ->
      Encoding.well_formed html = true -> head html <> Some 0xFEFF ->
      status (handleServe now' (generateId e)
                (WorkerPlain.handleUpload e request st).2).1 = 200 /\
      r_body (handleServe now' (generateId e)
                (WorkerPlain.handleUpload e request st).2).1 = Text html /\
      (handleServe now' (generateId e) (WorkerPlain.handleUpload e request st).2).2
      = (WorkerPlain.handleUpload e request st).2)) /\
  (status (Worker.handleUpload gunzip e request st).1 = 200 ->
   exists b html finalHtml expiresAt,
     json request = Return b /\ b_html b = Some html /\
     (if b_compressed b then Codec.decompressHtml gunzip html else Return html)
     = Return finalHtml /\
     parseExpiration (now_expiration e) (b_expiresIn b) = Return expiresAt /\
     (Worker.handleUpload gunzip e request st).1
     = uploaded request (generateId e) expiresAt /\
     ((expiresAt = VNull \/ exists t, expiresAt = VText (Iso t) /\ (now' <= t)%Z) ->
      header_value_ok (default [] (b_sourceUrl b)) = true ->
      Encoding.well_formed finalHtml = true -> head finalHtml <> Some 0xFEFF ->
      status (handleServe now' (generateId e)
                (Worker.handleUpload gunzip e request st).2).1 = 200 /\
      r_body (handleServe now' (generateId e)
                (Worker.handleUpload gunzip e request st).2).1 = Text finalHtml /\
      (handleServe now' (generateId e) (Worker.handleUpload gunzip e request st).2).2
      = (Worker.handleUpload gunzip e request st).2)).
Proof.
  split; intros H200.
  - destruct (plain_upload_cases e request st)
      as [[Hne _] | (b & html & x & Hj & Hh & Hx & E)]; [contradiction|].
    exists b, html, x. rewrite E. cbn [fst snd]. split_and!; try assumption; try reflexivity.
    intros Hlive Hok _ _.
    now apply (handleServe_stored now' e b html x st (generateId e)).
  - destruct (upload_cases gunzip e request st)
      as [[Hne _] | (b & html & f & x & Hj & Hh & Hf & Hx & E)]; [contradiction|].
    exists b, html, f, x. rewrite E. cbn [fst snd].
    split_and!; try assumption; try reflexivity.
    intros Hlive Hok _ _.
    now apply (handleServe_stored now' e b f x st (generateId e)).
Qed.

Lemma upload_read_back_witness :
  exists b html expiresAt,
    json (titled_upload None) = Return b /\ b_html b = Some html /\
    parseExpiration (now_expiration env0) (b_expiresIn b) = Return expiresAt /\
    (WorkerPlain.handleUpload env0 (titled_upload None) ∅).1
    = uploaded (titled_upload None) (generateId env0) expiresAt /\
    status (handleServe 1700000000001 (generateId env0)
              (WorkerPlain.handleUpload env0 (titled_upload None) ∅).2).1 = 200 /\
    r_body (handleServe 1700000000001 (generateId env0)
              (WorkerPlain.handleUpload env0 (titled_upload None) ∅).2).1 = Text html.
Proof.
  destruct (proj1 (upload_read_back Codec.stored_gunzip env0 (titled_upload None) ∅
                     1700000000001) eq_refl)
    as (b & html & x & Hj & Hh & Hx & Ha & Hread).
  exists b, html, x. split_and!; try assumption.
  - apply Hread.
    + injection Hj as <-. injection Hx as <-. right. eexists. split; [reflexivity | lia].
    + injection Hj as <-. reflexivity.
    + injection Hj as <-. injection Hh as <-. reflexivity.
    + injection Hj as <-. injection Hh as <-. discriminate.
  - apply Hread.
    + injection Hj as <-. injection Hx as <-. right. eexists. split; [reflexivity | lia].
    + injection Hj as <-. reflexivity.
    + injection Hj as <-. injection Hh as <-. reflexivity.
    + injection Hj as <-. injection Hh as <-. discriminate.
Defined.

(** X4. A page that was uploaded with an expiration is gone after it. When
    an upload is answered 200 with a timestamp, a read of the identifier at
    a later instant is answered 410, the entry is deleted, and every read
    after that is answered 404. Both workers. *)
Theorem upload_expires (gunzip : list N -> result (list (list N)))
    (e : env) (request : request) (st : gmap jsstring object) (t now' : Z) :
  (t < now')%Z ->
  ((WorkerPlain.handleUpload e request st).1
   = uploaded request (generateId e) (VText (Iso t)) ->
   status (handleServe now' (generateId e)
             (WorkerPlain.handleUpload e request st).2).1 = 410 /\
   forall now'',
     status (handleServe now'' (generateId e)
               (handleServe now' (generateId e)
                  (WorkerPlain.handleUpload e request st).2).2).1 = 404) /\
  ((Worker.handleUpload gunzip e request st).1
   = uploaded request (generateId e) (VText (Iso t)) ->
   status (handleServe now' (generateId e)
             (Worker.handleUpload gunzip e request st).2).1 = 410 /\
   forall now'',
     status (handleServe now'' (generateId e)
               (handleServe now' (generateId e)
                  (Worker.handleUpload gunzip e request st).2).2).1 = 404).
Proof.
  intros Ht. split; intros Hresp.
  - destruct (plain_upload_cases e request st)
      as [[Hne _] | (b & html & x & Hj & Hh & Hx & E)].
    { rewrite Hresp in Hne. now contradiction Hne. }
    rewrite E in Hresp |- *. cbn [fst snd] in *.
    assert (x = VText (Iso t)) as -> by (unfold uploaded, json_response in Hresp; congruence).
    pose proof (proj2 (handleServe_stored now' e b html _ st (generateId e)) t eq_refl Ht)
      as Hs.
    unfold ctype in Hs. rewrite Hs.
    split; [reflexivity|]. intros now''. cbn [snd].
    rewrite handleServe_absent; [reflexivity | apply lookup_delete_eq].
  - destruct (upload_cases gunzip e request st)
      as [[Hne _] | (b & html & f & x & Hj & Hh & Hf & Hx & E)].
    { rewrite Hresp in Hne. now contradiction Hne. }
    rewrite E in Hresp |- *. cbn [fst snd] in *.
    assert (x = VText (Iso t)) as -> by (unfold uploaded, json_response in Hresp; congruence).
    pose proof (proj2 (handleServe_stored now' e b f _ st (generateId e)) t eq_refl Ht)
      as Hs.
    unfold ctype in Hs. rewrite Hs.
    split; [reflexivity|]. intros now''. cbn [snd].
    rewrite handleServe_absent; [reflexivity | apply lookup_delete_eq].
Qed.

(** The round trip of the specification: a page uploaded with ["1h"] at
    1700000000000 is gone one millisecond after the hour. *)
Lemma upload_expires_witness :
  status (handleServe 1700003600001 (generateId env0)
            (Worker.handleUpload Codec.stored_gunzip env0 (titled_upload None) ∅).2).1
  = 410 /\
  forall now'',
    status (handleServe now'' (generateId env0)
              (handleServe 1700003600001 (generateId env0)
                 (Worker.handleUpload Codec.stored_gunzip env0
                    (titled_upload None) ∅).2).2).1 = 404.
Proof.
  exact (proj2 (upload_expires Codec.stored_gunzip env0 (titled_upload None) ∅
                  1700003600000 1700003600001 eq_refl) eq_refl).
Defined.

(** X5. A page uploaded without expiration never expires. When the
    [expiresIn] of an upload answered 200 is absent, is ["never"] or is
    outside the grammar, and the [sourceUrl] of the upload can be set as a
    header, a read of the identifier is answered 200 at every instant. Both
    workers. *)
Theorem upload_never_expires (gunzip : list N -> result (list (list N)))
    (e : env) (request : request) (st : gmap jsstring object) (b : body) :
  json request = Return b ->
  (b_expiresIn b = None \/ b_expiresIn b = Some (u16 "never") \/
   exists s, b_expiresIn b = Some s /\ ~ in_grammar s) ->
  header_value_ok (default [] (b_sourceUrl b)) = true ->
  (status (WorkerPlain.handleUpload e request st).1 = 200 ->
   forall now',
     status (handleServe now' (generateId e)
               (WorkerPlain.handleUpload e request st).2).1 = 200) /\
  (status (Worker.handleUpload gunzip e request st).1 = 200 ->
   forall now',
     status (handleServe now' (generateId e)
               (Worker.handleUpload gunzip e request st).2).1 = 200).
Proof.
  intros Hj Hexp Hok. apply parseExpiration_null with (now := now_expiration e) in Hexp.
  split; intros H200 now'.
  - destruct (plain_upload_cases e request st)
      as [[Hne _] | (b' & html & x & Hj' & Hh & Hx & E)]; [contradiction|].
    assert (b' = b) as -> by congruence. rewrite E. cbn [snd].
    assert (x = VNull) as -> by congruence.
    apply (handleServe_stored now' e b html VNull st (generateId e)); auto.
  - destruct (upload_cases gunzip e request st)
      as [[Hne _] | (b' & html & f & x & Hj' & Hh & Hf & Hx & E)]; [contradiction|].
    assert (b' = b) as -> by congruence. rewrite E. cbn [snd].
    assert (x = VNull) as -> by congruence.
    apply (handleServe_stored now' e b f VNull st (generateId e)); auto.
Qed.

Lemma upload_never_expires_witness :
  status (Worker.handleUpload Codec.stored_gunzip env0 untimed_upload ∅).1 = 200 /\
  forall now',
    status (handleServe now' (generateId env0)
              (Worker.handleUpload Codec.stored_gunzip env0 untimed_upload ∅).2).1 = 200.
Proof.
  split; [reflexivity|].
  exact (proj2 (upload_never_expires Codec.stored_gunzip env0 untimed_upload ∅ _
                  eq_refl (or_introl eq_refl) eq_refl) eq_refl).
Defined.

Ltac upload_paths :=
  repeat match goal with
  | |- context [declared_too_large ?m ?c] => destruct (declared_too_large m c)
  | |- context [json ?r] => destruct (json r) as [?b|?err]
  | |- context [field_truthy (b_html ?b)] => destruct (field_truthy (b_html b))
  | |- context [(?m <? Z.of_nat ?n)%Z] => destruct (m <? Z.of_nat n)%Z
  | |- context [if b_compressed ?b then _ else _] => destruct (b_compressed b)
  | |- context [Codec.decompressHtml ?g ?h] =>
      destruct (Codec.decompressHtml g h) as [?finalHtml|?err]
  | |- context [parseExpiration ?n ?x] =>
      destruct (parseExpiration n x) as [?expiresAt|?err]
  | |- context [put_error ?e ?i ?o] => destruct (put_error e i o) as [?err|]
  | _ => progress cbn [mbind result_bind negb fst snd status]
  end.

(** X6. Every upload is answered in JSON, with the CORS headers and one
    of the statuses 200, 400, 413 and 500, and every answer other than 200
    carries an [error] message that is not empty: no error escapes the
    handler. Both workers. *)
Theorem handleUpload_answers (gunzip : list N -> result (list (list N)))
    (e : env) (request : request) (st : gmap jsstring object) :
  upload_answer (WorkerPlain.handleUpload e request st).1 /\
  upload_answer (Worker.handleUpload gunzip e request st).1.
Proof.
  assert (Herr : forall s message, (s = 400 \/ s = 413 \/ s = 500) -> message <> [] ->
            upload_answer (error_response s message)).
  { intros s message Hs Hm. exists s, [(u16 "error", VText (Str message))].
    split; [reflexivity|]. right. eauto. }
  assert (Hok : forall id x, upload_answer (uploaded request id x)).
  { intros id x. eexists 200, _. split; [reflexivity | auto]. }
  split.
  - unfold WorkerPlain.handleUpload. upload_paths;
      first [apply Hok | apply Herr; [auto | discriminate]].
  - unfold Worker.handleUpload. upload_paths;
      first [apply Hok | apply Herr; [auto | discriminate]].
Qed.

Lemma strip_padding_keeps (d : jsstring) (c : N) :
  c ∈ d -> c <> Base64.pad -> c ∈ Base64.strip_padding d.
Proof.
  intros Hin Hc. unfold Base64.strip_padding.
  assert (Hrev : c ∈ rev d) by (apply list_elem_of_In, in_rev; rewrite rev_involutive;
                                  now apply list_elem_of_In).
  destruct (rev d) as [|a [|b r]] eqn:E.
  - inversion Hrev.
  - apply list_elem_of_singleton in Hrev as ->.
    destruct (N.eqb_spec a Base64.pad); [contradiction | exact Hin].
  - destruct (N.eqb_spec a Base64.pad) as [->|Ha]; cbn [andb].
    + apply elem_of_cons in Hrev as [-> | Hrev]; [contradiction|].
      destruct (N.eqb_spec b Base64.pad) as [->|Hb].
      * apply elem_of_cons in Hrev as [-> | Hrev]; [contradiction|].
        apply list_elem_of_In, in_rev. rewrite rev_involutive.
        now apply list_elem_of_In.
      * apply list_elem_of_In, in_rev. rewrite rev_involutive.
        now apply list_elem_of_In.
    + exact Hin.
Qed.

Lemma values_invalid (d : jsstring) (c : N) :
  c ∈ d -> Base64.b64_val c = None -> Base64.values d = None.
Proof.
  induction d as [|x d IH]; intros Hin Hc; [inversion Hin|].
  cbn [Base64.values]. apply elem_of_cons in Hin as [<- | Hin].
  - now rewrite Hc.
  - rewrite (IH Hin Hc). now destruct (Base64.b64_val x).
Qed.

(** [atob] rejects a text with a character that is neither of the
    alphabet, nor the padding, nor white space. *)
Lemma atob_invalid (data : jsstring) (c : N) :
  c ∈ data -> Base64.is_ascii_whitespace c = false ->
  Base64.b64_val c = None -> c <> Base64.pad ->
  Base64.atob data = Throw Base64.InvalidCharacterError.
Proof.
  intros Hin Hws Hval Hpad. unfold Base64.atob.
  set (d := List.filter _ data).
  assert (Hd : c ∈ d).
  { apply list_elem_of_In, filter_In. split; [now apply list_elem_of_In|].
    now rewrite Hws. }
  set (d' := if (length d mod 4 =? 0)%nat then Base64.strip_padding d else d).
  assert (Hd' : c ∈ d').
  { subst d'. destruct (length d mod 4 =? 0)%nat; [|exact Hd].
    now apply strip_padding_keeps. }
  destruct (length d' mod 4 =? 1)%nat; [reflexivity|].
  now rewrite (values_invalid d' c Hd' Hval).
Qed.

(** X7. A compressed upload that is no base64 text is refused. When the
    [html] of an upload marked [compressed] holds a character that is
    neither of the base64 alphabet, nor [=], nor ASCII white space, and the
    declared size is not too large, the decompressing worker answers 400
    with the message of the failed decompression and stores nothing. *)
Theorem garbled_upload_refused (gunzip : list N -> result (list (list N)))
    (e : env) (request : request) (st : gmap jsstring object)
    (b : body) (html : jsstring) (c : N) :
  declared_too_large Worker.MAX_SIZE (contentLength request) = false ->
  json request = Return b -> b_html b = Some html -> b_compressed b = true ->
  c ∈ html -> Base64.is_ascii_whitespace c = false ->
  Base64.b64_val c = None -> c <> Base64.pad ->
  Worker.handleUpload gunzip e request st
  = (error_response 400
       (u16 "Failed to decompress: The string contains invalid characters."), st).
Proof.
  intros Hdecl Hj Hh Hc Hin Hws Hval Hpad. unfold Worker.handleUpload.
  rewrite Hdecl, Hj. cbn [mbind result_bind]. rewrite Hh, Hc.
  assert (Ht : field_truthy (Some html) = true).
  { destruct html; [inversion Hin | reflexivity]. }
  rewrite Ht. cbn [negb]. unfold Codec.decompressHtml.
  change (default [] (Some html)) with html.
  rewrite (atob_invalid html c Hin Hws Hval Hpad). reflexivity.
Qed.

Lemma garbled_upload_refused_witness :
  Worker.handleUpload Codec.stored_gunzip env0 garbled_upload ∅
  = (error_response 400
       (u16 "Failed to decompress: The string contains invalid characters."), ∅).
Proof.
  apply (garbled_upload_refused Codec.stored_gunzip env0 garbled_upload ∅ _
           (u16 "<p>hi</p>") 60 eq_refl eq_refl eq_refl eq_refl).
  - apply list_elem_of_In. left. reflexivity.
  - reflexivity.
  - reflexivity.
  - discriminate.
Defined.

(** X8. The expiration depends on the duration alone. Two values of the
    grammar that denote the same number of milliseconds (["1d"] and
    ["24h"], ["7d"] and ["007d"]) give the same result. *)
Theorem parseExpiration_same_duration (now : Z)
    (ds1 ds2 : jsstring) (u1 u2 : N) (m1 m2 : Z) :
  ds1 <> [] -> forallb Regex.is_digit ds1 = true -> multipliers u1 = Some m1 ->
  ds2 <> [] -> forallb Regex.is_digit ds2 = true -> multipliers u2 = Some m2 ->
  (Z.of_N (decimal ds1) * m1 = Z.of_N (decimal ds2) * m2)%Z ->
  parseExpiration now (Some (ds1 ++ [u1])) = parseExpiration now (Some (ds2 ++ [u2])).
Proof.
  intros H1 D1 M1 H2 D2 M2 Heq.
  rewrite (parseExpiration_duration now ds1 u1 m1), (parseExpiration_duration now ds2 u2 m2)
    by assumption.
  now rewrite Heq.
Qed.

Lemma parseExpiration_same_duration_witness :
  parseExpiration 1700000000000 (Some (u16 "1d"))
  = parseExpiration 1700000000000 (Some (u16 "024h")).
Proof.
  exact (parseExpiration_same_duration 1700000000000 (u16 "1") (u16 "024") 100 104
           _ _ ltac:(discriminate) eq_refl eq_refl ltac:(discriminate) eq_refl eq_refl
           eq_refl).
Defined.

(** X9. An expiration is never before the upload: a timestamp that
    [parseExpiration] returns is at or after the instant it read. *)
Theorem parseExpiration_not_before (now : Z) (expiresIn : option jsstring) (t : Z) :
  parseExpiration now expiresIn = Return (VText (Iso t)) -> (now <= t)%Z.
Proof.
  unfold parseExpiration. destruct expiresIn as [s|]; [|discriminate].
  destruct (negb (truthy s) || str_eqb s (u16 "never")); [discriminate|].
  destruct (expiration_re s) as [[g1 g2]|] eqn:E; [|discriminate].
  apply expiration_re_inv in E as (-> & Hne & Hds & Hu).
  rewrite parseInt_decimal by assumption.
  unfold multipliers, toISOString.
  destruct (g2 =? 109); [|destruct (g2 =? 104); [|destruct (g2 =? 100)]];
    try discriminate;
    match goal with |- context [(Z.abs ?x <=? _)%Z] => destruct (Z.abs x <=? max_time)%Z end;
    try discriminate; intros [= <-]; lia.
Qed.

Lemma parseExpiration_not_before_witness :
  parseExpiration 1700000000000 (Some (u16 "1h")) = Return (VText (Iso 1700003600000)) /\
  (1700000000000 <= 1700003600000)%Z.
Proof.
  split; [reflexivity|].
  exact (parseExpiration_not_before 1700000000000 (Some (u16 "1h")) 1700003600000 eq_refl).
Defined.

End WorkerFacts.

(** ** The transport codec: what is sent is text, and chunking is invisible *)

Section CodecMoreFacts.
Import Codec.

(** X10. What [compressString] returns is base64 text: when the compressed
    chunks hold bytes it does not throw, the length of its result is a
    multiple of four, and every character is of the base64 alphabet or is
    the padding [=]; so the result can travel in JSON as it is. *)
Theorem compressString_base64 (gzip : list N -> list (list N)) (str : jsstring) :
  Forall (fun b => b < 256) (concat (gzip (Encoding.encode str))) ->
  exists base64Data,
    compressString gzip str = Return base64Data /\
    (length base64Data mod 4 = 0)%nat /\
    Forall (fun c => is_Some (Base64.b64_val c) \/ c = Base64.pad) base64Data.
Proof.
  intros Hbytes. unfold compressString.
  rewrite combine_concat, binary_loop_drop. simpl app. rewrite drop_0.
  rewrite fromCharCode_bytes by assumption.
  destruct (encode_bytes_shape _ _ (le_n _) Hbytes)
    as (vs & p & E & Hvs & Hp & Hlen & _ & _).
  destruct (atob_btoa _ Hbytes) as (enc & Hbtoa & _).
  assert (enc = Base64.encode_bytes (concat (gzip (Encoding.encode str)))) as ->.
  { unfold Base64.btoa in Hbtoa.
    destruct (forallb _ _); [now injection Hbtoa | discriminate]. }
  exists (Base64.encode_bytes (concat (gzip (Encoding.encode str)))).
  split; [exact Hbtoa|]. rewrite E. split; [exact Hlen|].
  apply Forall_app. split.
  - apply Forall_forall. intros c Hc. apply list_elem_of_In, in_map_iff in Hc as (v & <- & Hv).
    left. rewrite Forall_forall in Hvs.
    rewrite b64_val_char; [eauto | apply Hvs; now apply list_elem_of_In].
  - destruct Hp as [-> | [-> | ->]]; repeat (constructor; [now right|]); constructor.
Qed.

Lemma compressString_base64_witness :
  exists base64Data,
    compressString stored_gzip (u16 "<p>hi</p>") = Return base64Data /\
    (length base64Data mod 4 = 0)%nat /\
    Forall (fun c => is_Some (Base64.b64_val c) \/ c = Base64.pad) base64Data.
Proof.
  apply (compressString_base64 stored_gzip (u16 "<p>hi</p>")).
  vm_compute. repeat constructor.
Defined.

(** X11. The chunks are invisible. What [compressString] returns is the
    base64 text of the bytes of the compressed chunks, joined in order, as
    code units: neither the [set] loop that joins the chunks of the stream
    nor the conversion in pieces of 32768 bytes loses, adds or moves a
    byte. [decompressHtml] likewise decodes the decompressed chunks joined
    in order. The right-hand sides describe the results; they are no other
    way to run the code (one call of [String.fromCharCode] on all the bytes
    is limited by the number of arguments a call may have, which is why the
    code converts in pieces). *)
Theorem codec_chunks_invisible
    (gzip : list N -> list (list N)) (gunzip : list N -> result (list (list N))) :
  (forall str,
     compressString gzip str
     = Base64.btoa (List.map (fun b => b mod 65536)
                      (concat (gzip (Encoding.encode str))))) /\
  (forall base64Data,
     decompressHtml gunzip base64Data
     = (binaryString ← Base64.atob base64Data;
        chunks ← gunzip (List.map (fun c => c mod 256) binaryString);
        Return (Encoding.decode (concat chunks)))).
Proof.
  split.
  - intros str. unfold compressString.
    rewrite combine_concat, binary_loop_drop. simpl app. now rewrite drop_0.
  - intros base64Data. unfold decompressHtml.
    destruct (Base64.atob base64Data) as [bin|e]; [|reflexivity]. cbn [mbind result_bind].
    destruct (gunzip _) as [chunks|e]; [|reflexivity]. cbn [mbind result_bind].
    now rewrite combine_concat.
Qed.

End CodecMoreFacts.

(** ** Style text: what is left alone *)

Section CssFacts.
Import Page.

Lemma url_re_needs_prefix (s : jsstring) :
  startsWith (u16 "url(") s = false -> url_re s = None.
Proof. intros H. unfold url_re, Regex.lit. now rewrite H. Qed.

Lemma matchAll_none (s : jsstring) (skip : nat) :
  (forall i, startsWith (u16 "url(") (drop i s) = false) ->
  matchAll skip s = [].
Proof.
  revert skip; induction s as [|c s IH]; intros skip H; [reflexivity|].
  assert (Hs : forall i, startsWith (u16 "url(") (drop i s) = false)
    by (intros i; exact (H (S i))).
  cbn [matchAll]. destruct skip as [|n]; [|now apply IH].
  rewrite url_re_needs_prefix by exact (H 0%nat). now apply IH.
Qed.

Lemma startsWith_prefix (p s : jsstring) :
  startsWith p s = true -> exists r, s = p ++ r.
Proof.
  revert s; induction p as [|x p IH]; intros s E; [eauto|].
  destruct s as [|y s]; [discriminate|]. cbn in E.
  apply andb_true_iff in E as [Hxy E]. apply N.eqb_eq in Hxy as ->.
  destruct (IH s E) as [r ->]. eauto.
Qed.

(** X12. Style text without [url(] is returned as it is, whatever the page
    and the network. *)
Theorem processCssUrls_without_url (w : world) (cssText baseUrl : jsstring) :
  (forall before after, cssText <> before ++ u16 "url(" ++ after) ->
  processCssUrls w cssText baseUrl = Return cssText.
Proof.
  intros Hno. unfold processCssUrls. rewrite matchAll_none; [reflexivity|].
  intros i. destruct (startsWith (u16 "url(") (drop i cssText)) eqn:E; [|reflexivity].
  exfalso. apply startsWith_prefix in E as [r Hr].
  apply (Hno (take i cssText) r). rewrite <- Hr. now rewrite take_drop.
Qed.

Lemma processCssUrls_without_url_witness :
  processCssUrls (page true) (u16 "p{}") (u16 "https://e.x/") = Return (u16 "p{}").
Proof.
  apply processCssUrls_without_url. intros before after H.
  apply (f_equal length) in H. rewrite !length_app in H. cbn in H. lia.
Defined.

(** X13. References that are already inline ([data:]) or fragments ([#])
    are not resolved: a text all of whose references are of these kinds is
    returned as it is, whatever the page and the network, so nothing is
    fetched for it. *)
Theorem processCssUrls_inline_references (w : world) (cssText baseUrl : jsstring) :
  Forall (fun u => startsWith (u16 "data:") u = true \/ startsWith (u16 "#") u = true)
    (matchAll 0 cssText) ->
  processCssUrls w cssText baseUrl = Return cssText.
Proof.
  intros Hall. unfold processCssUrls. destruct (length _ =? 0)%nat; [reflexivity|].
  assert (Hf : List.filter
                 (fun u => negb (startsWith (u16 "data:") u)
                           && negb (startsWith (u16 "#") u)) (matchAll 0 cssText) = []).
  { induction Hall as [|u l Hu _ IH]; [reflexivity|]. cbn [List.filter].
    destruct Hu as [-> | ->]; cbn; [exact IH|].
    rewrite andb_false_r. exact IH. }
  rewrite Hf. reflexivity.
Qed.

Lemma processCssUrls_inline_references_witness :
  processCssUrls (page true) (u16 "a{fill:url(#g)} b{background:url(data:image/gif;base64,AA)}")
    (u16 "https://e.x/")
  = Return (u16 "a{fill:url(#g)} b{background:url(data:image/gif;base64,AA)}").
Proof.
  apply processCssUrls_inline_references. vm_compute.
  repeat (constructor; [first [left; reflexivity | right; reflexivity]|]). constructor.
Defined.

Lemma existsb_str_eqb (x : jsstring) (seen : list jsstring) :
  existsb (str_eqb x) seen = true <-> x ∈ seen.
Proof.
  rewrite existsb_exists. split.
  - intros (y & Hy & E). apply str_eqb_eq in E as ->. now apply list_elem_of_In.
  - intros H. exists x. split; [now apply list_elem_of_In | apply str_eqb_refl].
Qed.

(** [unique] keeps one copy of each element that was not seen. *)
Lemma unique_NoDup (seen l : list jsstring) :
  NoDup (unique seen l) /\
  forall x, x ∈ unique seen l <-> x ∈ l /\ x ∉ seen.
Proof.
  revert seen; induction l as [|y l IH]; intros seen; cbn [unique].
  - split; [constructor|]. intros x. split; [inversion 1 | intros [H _]; inversion H].
  - destruct (existsb (str_eqb y) seen) eqn:E.
    + apply existsb_str_eqb in E. destruct (IH seen) as [Hnd Hin]. split; [exact Hnd|].
      intros x. rewrite Hin, elem_of_cons. split; [tauto|].
      intros [[-> | H] Hs]; [contradiction | tauto].
    + assert (Hy : y ∉ seen).
      { intros H. apply existsb_str_eqb in H. congruence. }
      destruct (IH (y :: seen)) as [Hnd Hin]. split.
      * constructor; [|exact Hnd]. rewrite Hin, elem_of_cons. tauto.
      * intros x. rewrite !elem_of_cons, Hin, elem_of_cons. split.
        -- intros [-> | [H1 H2]]; [tauto|]. split; [tauto|]. tauto.
        -- intros [[-> | H] Hs]; [tauto|].
           destruct (decide (x = y)) as [->|Hne]; [tauto|]. right. tauto.
Qed.

(** The keys that the loop adds to [urlMap] are URLs of its list, in the
    order of the list. *)
Lemma fetch_loop_keys (w : world) (baseUrl : jsstring) (urls : list jsstring)
    (acc urlMap : list (jsstring * jsstring)) :
  for_each
    (fun urlMap originalUrl =>
       dataUrl ← (fetchAsDataUrl w originalUrl (Some baseUrl)).2;
       match dataUrl with
       | Some dataUrl =>
           if truthy dataUrl then Return (urlMap ++ [(originalUrl, dataUrl)])
           else Return urlMap
       | None => Return urlMap
       end) urls acc = Return urlMap ->
  exists keys, urlMap.*1 = acc.*1 ++ keys /\ keys `sublist_of` urls.
Proof.
  revert acc; induction urls as [|u urls IH]; intros acc; cbn [for_each].
  - intros [= <-]. exists []. split; [now rewrite app_nil_r | constructor].
  - destruct (fetchAsDataUrl_returns w u (Some baseUrl)) as [v ->].
    cbn [mbind result_bind].
    destruct v as [d|]; [destruct (truthy d)|]; cbn [mbind result_bind]; intros H;
      apply IH in H as (keys & Hk & Hs).
    + exists (u :: keys). split; [|now constructor].
      rewrite Hk, fmap_app, <- app_assoc. reflexivity.
    + exists keys. split; [exact Hk | now constructor].
    + exists keys. split; [exact Hk | now constructor].
Qed.

(** X14. A URL is resolved once in a pass. The entries of [urlMap] for the
    references of a text have distinct URLs, each a reference of the text,
    each with the data that its fetch returned. *)
Theorem urlMap_distinct (w : world) (baseUrl : jsstring) (references : list jsstring) :
  exists urlMap,
    fetch_all w baseUrl (unique [] references) = Return urlMap /\
    NoDup urlMap.*1 /\
    forall originalUrl dataUrl, (originalUrl, dataUrl) ∈ urlMap ->
      originalUrl ∈ references /\
      (fetchAsDataUrl w originalUrl (Some baseUrl)).2 = Return (Some dataUrl).
Proof.
  destruct (fetch_loop w baseUrl (unique [] references) []) as (m & Hm & Hin).
  exists m. split; [exact Hm|].
  destruct (unique_NoDup [] references) as [Hnd Hu].
  destruct (fetch_loop_keys w baseUrl _ [] m Hm) as (keys & Hk & Hs).
  split.
  - rewrite Hk. cbn. now apply (sublist_NoDup _ _ Hnd).
  - intros o d Hod. destruct (Hin o d Hod) as [Hnil | [Huq Hf]]; [inversion Hnil|].
    split; [|exact Hf]. now apply Hu in Huq.
Qed.

Lemma all_returns {A : Type} (promises : list (result A)) :
  Forall (fun p => exists a, p = Return a) promises ->
  exists l, all promises = Return l.
Proof.
  induction 1 as [|p ps [a ->] _ [l IH]]; cbn [all]; [eauto|].
  cbn [mbind result_bind]. rewrite IH. cbn. eauto.
Qed.

(** [processStyleSheet] returns, at every depth. *)
Lemma processStyleSheet_returns (w : world) (sheet : nat) (depth : nat) :
  exists css, processStyleSheet w sheet depth = Return css.
Proof.
  remember (6 - depth)%nat as n eqn:Hn. revert sheet depth Hn.
  induction n as [n IH] using lt_wf_ind. intros sheet depth Hn.
  rewrite processStyleSheet_equation_1.
  destruct (lt_dec 5 depth) as [Hgt|Hle]; cbn; [eauto|].
  destruct (cssRules (sheets w sheet)) as [rules|e]; cbn [mbind result_bind try_catch];
    [|apply fetch_sheet_returns].
  assert (Hloop : forall rules cssText, exists t,
            for_each
              (fun cssText rule =>
                 match rule with
                 | ImportRule _ (Some styleSheet) =>
                     imported ← processStyleSheet w styleSheet (depth + 1);
                     Return (cssText ++ imported)
                 | ImportRule ruleText None | StyleRule ruleText =>
                     Return (cssText ++ ruleText ++ newline)
                 end) rules cssText = Return t).
  { clear rules. induction rules as [|r rules IHr]; intros cssText;
      cbn [for_each]; [eauto|].
    destruct r as [t [target|]|t]; cbn [mbind result_bind]; try apply IHr.
    destruct (IH (6 - (depth + 1))%nat ltac:(lia) target (depth + 1)%nat eq_refl)
      as [imported ->].
    cbn [mbind result_bind]. apply IHr. }
  destruct (Hloop rules []) as [t ->]. cbn [mbind result_bind].
  destruct (processCssUrls_returns w t (or_else (href (sheets w sheet)) (location_href w)))
    as [css ->].
  cbn. eauto.
Qed.

Lemma getAllStylesheetCSS_returns (w : world) :
  exists css, getAllStylesheetCSS w = Return css.
Proof.
  unfold getAllStylesheetCSS.
  destruct (all_returns
              (List.map (fun sheet => processStyleSheet w sheet 0) (styleSheets w)
               ++ List.map (fun style => processCssUrls w style (location_href w))
                    (List.filter truthy (styles w)))) as [l ->].
  - apply Forall_app. split; apply Forall_forall; intros p Hp;
      apply list_elem_of_In, in_map_iff in Hp as (x & <- & _).
    + apply processStyleSheet_returns.
    + apply processCssUrls_returns.
  - cbn. eauto.
Qed.

(** X15. The style text cannot fail a capture. [getAllStylesheetCSS]
    always returns, so [capturePageSnapshot] reports a failure exactly when
    the work on the clone throws, with the message of that error or with
    ['Capture failed'] when it has none; otherwise it reports the document
    the clone was serialized to. *)
Theorem capture_fails_on_clone_only (w : world) :
  exists allCSS,
    getAllStylesheetCSS w = Return allCSS /\
    capturePageSnapshot w
    = Return
        match render w allCSS with
        | Return outerHTML =>
            {| success := true;
               html := Some (DOCTYPE ++ outerHTML);
               title := Some (document_title w);
               sourceUrl := Some (location_href w);
               error := None |}
        | Throw e =>
            {| success := false; html := None; title := None; sourceUrl := None;
               error := Some (if truthy (exn_message e) then exn_message e
                              else u16 "Capture failed") |}
        end.
Proof.
  destruct (getAllStylesheetCSS_returns w) as [allCSS Hcss]. exists allCSS.
  split; [exact Hcss|]. unfold capturePageSnapshot. rewrite Hcss.
  cbn [mbind result_bind]. destruct (render w allCSS) as [outerHTML|e]; reflexivity.
Qed.

(** X16. A style sheet that can neither be read nor fetched contributes
    nothing and fails nothing. When reading the rules throws (a cross-origin
    sheet) and the sheet has no [href], or an empty one, or its fetch is
    rejected, or the answer is not [ok], or reading the text of the answer
    fails, [processStyleSheet] returns the empty text, at every depth. *)
Theorem unreadable_sheet_is_empty (w : world) (sheet : nat) (depth : nat) (e : exn) :
  cssRules (sheets w sheet) = Throw e ->
  match href (sheets w sheet) with
  | None => True
  | Some href =>
      href = [] \/
      (exists e2, fetch w href = Throw e2) \/
      (exists response, fetch w href = Return response /\
         (ok response = false \/ exists e2, r_text response = Throw e2))
  end ->
  processStyleSheet w sheet depth = Return [].
Proof.
  intros Hrules Hsrc. rewrite processStyleSheet_equation_1.
  destruct (lt_dec 5 depth); cbn; [reflexivity|].
  rewrite Hrules. cbn [mbind result_bind try_catch]. unfold fetch_sheet.
  destruct (href (sheets w sheet)) as [h|]; [|reflexivity].
  destruct Hsrc as [-> | [[e2 Hf] | (r & Hf & [Hok | [e2 Ht]])]].
  - reflexivity.
  - rewrite Hf. now destruct (truthy h).
  - rewrite Hf. cbn [mbind result_bind]. rewrite Hok. now destruct (truthy h).
  - rewrite Hf. cbn [mbind result_bind]. rewrite Ht.
    destruct (truthy h), (ok r); reflexivity.
Qed.

Lemma unreadable_sheet_is_empty_witness :
  processStyleSheet offline_page 0 0 = Return [].
Proof.
  apply (unreadable_sheet_is_empty offline_page 0 0 (Exn (u16 "SecurityError") []) eq_refl).
  right. left. eexists. reflexivity.
Defined.

End CssFacts.

(** ** The sanitizer: what it keeps *)

Section DomMoreFacts.
Import Dom.

Lemma strip_loop_exact (l : list (jsstring * jsstring)) (m : gmap jsstring jsstring)
    (name : jsstring) :
  fold_left
    (fun attrs '(name, value) =>
       if to_remove name value then delete name attrs else attrs) l m
    !! name
  = if existsb (fun '(k, v) => str_eqb k name && to_remove k v) l then None
    else m !! name.
Proof.
  revert m; induction l as [|[k v] l IH]; intros m; cbn [fold_left existsb];
    [reflexivity|].
  rewrite IH. destruct (existsb _ l); [now rewrite orb_true_r|].
  rewrite orb_false_r. destruct (to_remove k v).
  - rewrite andb_true_r. destruct (str_eqb k name) eqn:E.
    + apply str_eqb_eq in E as ->. apply lookup_delete_eq.
    + apply lookup_delete_ne. intros ->. rewrite str_eqb_refl in E. discriminate.
  - now rewrite andb_false_r.
Qed.

Lemma strip_attributes_exact (attributes : gmap jsstring jsstring) (name : jsstring) :
  strip_attributes attributes !! name
  = match attributes !! name with
    | Some value => if to_remove name value then None else Some value
    | None => None
    end.
Proof.
  unfold strip_attributes. rewrite strip_loop_exact.
  destruct (existsb _ (map_to_list attributes)) eqn:E.
  - apply existsb_exists in E as ([k v] & Hin & Hkv).
    apply andb_true_iff in Hkv as [Hk Hv]. apply str_eqb_eq in Hk as ->.
    apply list_elem_of_In, elem_of_map_to_list in Hin. now rewrite Hin, Hv.
  - destruct (attributes !! name) as [value|] eqn:Hl; [|reflexivity].
    destruct (to_remove name value) eqn:Hr; [|reflexivity].
    assert (Hex : existsb (fun '(k, v) => str_eqb k name && to_remove k v)
                    (map_to_list attributes) = true).
    { apply existsb_exists. exists (name, value). split.
      - now apply list_elem_of_In, elem_of_map_to_list.
      - now rewrite str_eqb_refl, Hr. }
    congruence.
Qed.

(** X17. The loop over the attributes is a filter: it removes exactly the
    attributes the test names. An attribute the test rejects is still
    there, with its value, and no attribute is added; removing while going
    over the copy of the attribute list skips nothing. *)
Theorem strip_attributes_filter (attributes : gmap jsstring jsstring) :
  strip_attributes attributes
  = filter (fun '(name, value) => to_remove name value = false) attributes.
Proof.
  apply map_eq. intros name. apply option_eq. intros value.
  rewrite strip_attributes_exact, map_lookup_filter_Some.
  destruct (attributes !! name) as [v|];
    [|split; [discriminate | intros [Hv _]; discriminate]].
  destruct (to_remove name v) eqn:E; split.
  - discriminate.
  - intros [[= ->] Hv]. congruence.
  - intros [= ->]. auto.
  - intros [[= ->] _]. reflexivity.
Qed.

Lemma sanitized_kept (localName : jsstring) (attributes : gmap jsstring jsstring) :
  sanitized localName attributes ->
  is_script localName = false /\ strip_attributes attributes = attributes.
Proof.
  intros (Hs & Hn & Hattr). split.
  - unfold is_script. apply orb_false_iff.
    split; match goal with |- ?b = false => destruct b eqn:E end; try reflexivity;
      apply str_eqb_eq in E; contradiction.
  - apply map_eq. intros name. rewrite strip_attributes_exact.
    destruct (attributes !! name) as [value|] eqn:Hl; [|reflexivity].
    destruct (Hattr name value Hl) as [Hon Hjs]. unfold to_remove. rewrite Hon.
    destruct (str_eqb name (u16 "href")) eqn:E; [|reflexivity].
    apply str_eqb_eq in E. now rewrite (Hjs E).
Qed.

Lemma removeScripts_node_fixed (n : node) :
  every_element sanitized n -> List.map strip_elements (remove_scripts n) = [n].
Proof.
  induction n as [localName attributes childNodes IH | data] using node_nested_ind;
    intros Hn; [|reflexivity].
  inversion Hn as [|? ? ? Hs Hc]; subst.
  destruct (sanitized_kept _ _ Hs) as [Hscript Hattrs].
  cbn [remove_scripts]. rewrite Hscript. cbn [List.map strip_elements].
  rewrite Hattrs. do 2 f_equal. clear Hn Hs Hscript Hattrs.
  induction IH as [|c cs Hc1 _ IHcs]; [reflexivity|].
  inversion Hc as [|? ? Hc2 Hcs]; subst.
  cbn [flat_map]. rewrite map_app, (Hc1 Hc2), (IHcs Hcs). reflexivity.
Qed.

Lemma removeScripts_fixed (doc : list node) :
  Forall (every_element sanitized) doc -> removeScripts doc = doc.
Proof.
  unfold removeScripts. induction 1 as [|n doc Hn _ IH]; [reflexivity|].
  cbn [flat_map]. rewrite map_app, (removeScripts_node_fixed n Hn), IH. reflexivity.
Qed.

Lemma removeScripts_nodes (doc : list node) :
  Forall (every_element sanitized) (List.map strip_elements (flat_map remove_scripts doc)).
Proof.
  induction doc as [|n doc IH]; [constructor|].
  cbn [flat_map]. rewrite map_app. apply Forall_app. split; [apply removeScripts_node | exact IH].
Qed.

(** X18. The documents [removeScripts] leaves as they are are exactly the
    documents without a script or noscript element, an event handler
    attribute or a [javascript:] link: the function removes nothing else,
    neither an element, nor an attribute, nor text. *)
Theorem removeScripts_fixed_points (doc : list node) :
  removeScripts doc = doc <-> Forall (every_element sanitized) doc.
Proof.
  split.
  - intros <-. apply removeScripts_nodes.
  - apply removeScripts_fixed.
Qed.

(** X19. [removeScripts] is idempotent: a second pass changes nothing. *)
Theorem removeScripts_idempotent (doc : list node) :
  removeScripts (removeScripts doc) = removeScripts doc.
Proof. apply removeScripts_fixed, removeScripts_nodes. Qed.

End DomMoreFacts.

(** ** From the page to the store *)

Section CaptureFacts.
Import Store Background.

Lemma capturePageSnapshot_success (w : Page.world) (r : Page.CaptureResult) (h : jsstring) :
  Page.capturePageSnapshot w = Return r -> Page.html r = Some h ->
  Page.success r = true /\
  (exists outerHTML, h = DOCTYPE ++ outerHTML) /\
  Page.title r = Some (Page.document_title w) /\
  Page.sourceUrl r = Some (Page.location_href w).
Proof.
  unfold Page.capturePageSnapshot.
  destruct (Page.getAllStylesheetCSS w) as [allCSS|err]; cbn [mbind result_bind try_catch].
  - destruct (Page.render w allCSS) as [outerHTML|err]; cbn [mbind result_bind try_catch].
    + intros [= <-]. cbn. intros [= <-]. split_and!; eauto.
    + intros [= <-]. discriminate.
  - intros [= <-]. discriminate.
Qed.

Lemma encode_bytes_truthy (bs : list N) :
  bs <> [] -> truthy (Base64.encode_bytes bs) = true.
Proof. destruct bs as [|a [|b [|c r]]]; [contradiction | reflexivity ..]. Qed.

(** What the extension sends for a page, the worker decompresses to the
    page. *)
Lemma compress_then_decompress
    (gzip : list N -> list (list N)) (gunzip : list N -> result (list (list N)))
    (h : jsstring) :
  Codec.lossless gzip gunzip ->
  Encoding.well_formed h = true -> head h <> Some 0xFEFF ->
  concat (gzip (Encoding.encode h)) <> [] ->
  exists compressedHtml,
    Codec.compressString gzip h = Return compressedHtml /\
    truthy compressedHtml = true /\
    Codec.decompressHtml gunzip compressedHtml = Return h.
Proof.
  intros Hz Hwf Hbom Hne.
  pose proof (transport_decode_encode gzip gunzip h Hz (encode_is_bytes h Hwf)) as Ht.
  rewrite (decode_encode h Hwf Hbom) in Ht. unfold Codec.transport in Ht.
  destruct (Hz _ (encode_is_bytes h Hwf)) as [Hbytes _].
  assert (Hc : Codec.compressString gzip h
               = Return (Base64.encode_bytes (concat (gzip (Encoding.encode h))))).
  { unfold Codec.compressString.
    rewrite combine_concat, binary_loop_drop. simpl app. rewrite drop_0.
    rewrite fromCharCode_bytes by assumption.
    destruct (atob_btoa _ Hbytes) as (enc & Hbtoa & _).
    unfold Base64.btoa in *. destruct (forallb _ _); [reflexivity | discriminate]. }
  rewrite Hc in Ht. cbn [mbind result_bind] in Ht.
  eexists. split_and!; [exact Hc | now apply encode_bytes_truthy | exact Ht].
Qed.

(** X20. From the page to the store and back. A page that the capture
    script captured, whose document is well formed UTF-16, is compressed by
    [handleCapture] and sent in one request; the decompressing worker stores
    that very document under the new identifier, with the address of the
    page as source, and answers with the identifier; [handleCapture] returns
    that answer; and until it expires the document is served as it was
    captured. The streams are taken to be lossless and a compressed stream
    not to be empty; the declared length is within the limit, the
    expiration is in range, the bucket accepts the object (it rejects one
    whose metadata is too long, and the worker then answers 500), and the
    address of the page can be set as a header. The byte order mark, which
    the transport would lose, cannot start a captured document. *)
Theorem capture_round_trip
    (gzip : list N -> list (list N)) (gunzip : list N -> result (list (list N)))
    (w : Page.world) (r : Page.CaptureResult) (h : jsstring)
    (e : env) (st : gmap jsstring object)
    (fetch : request -> result upload_response) (declared expiration : option jsstring)
    (expiresAt : jsval) (now' : Z) :
  Codec.lossless gzip gunzip ->
  Page.capturePageSnapshot w = Return r -> Page.html r = Some h ->
  Encoding.well_formed h = true ->
  concat (gzip (Encoding.encode h)) <> [] ->
  declared_too_large Worker.MAX_SIZE declared = false ->
  parseExpiration (now_expiration e) expiration = Return expiresAt ->
  (forall object, put_error e (generateId e) object = None) ->
  header_value_ok (Page.location_href w) = true ->
  exists compressedHtml,
    let request := upload_request declared compressedHtml r expiration in
    let answer := Worker.fetch gunzip e request st in
    (forall others,
       (handleCapture gzip (Return (Some (Some r :: others))) fetch declared expiration).1
       = [request]) /\
    answer.1 = uploaded request (generateId e) expiresAt /\
    (exists metadata,
       answer.2 = <[generateId e := Object h ctype (Some metadata)]> st /\
       m_sourceUrl metadata = Some (Page.location_href w) /\
       m_expiresAt metadata = Some expiresAt) /\
    (forall others u, fetch request = Return u -> delivered answer.1 u ->
       (handleCapture gzip (Return (Some (Some r :: others))) fetch declared expiration).2
       = Return [(u16 "id", VText (Str (generateId e)));
                 (u16 "url", VText (Str (API_URL ++ u16 "/" ++ generateId e)));
                 (u16 "expiresAt", expiresAt)]) /\
    (expiresAt = VNull \/ (exists t, expiresAt = VText (Iso t) /\ (now' <= t)%Z) ->
     status (handleServe now' (generateId e) answer.2).1 = 200 /\
     r_body (handleServe now' (generateId e) answer.2).1 = Text h).
Proof.
  intros Hz Hcap Hh Hwf Hne Hdecl Hexp Hput Hok.
  destruct (capturePageSnapshot_success w r h Hcap Hh) as (Hs & [outer ->] & Ht & Hu).
  assert (Hbom : head (DOCTYPE ++ outer) <> Some 0xFEFF) by discriminate.
  destruct (compress_then_decompress gzip gunzip _ Hz Hwf Hbom Hne)
    as (c & Hc & Hct & Hd).
  exists c. cbn zeta.
  set (rq := upload_request declared c r expiration).
  assert (Hc' : Codec.compressString gzip (default [] (Page.html r)) = Return c)
    by now rewrite Hh.
  assert (Hfetch : Worker.fetch gunzip e rq st
            = (uploaded rq (generateId e) expiresAt,
               <[generateId e :=
                   Object (DOCTYPE ++ outer) ctype
                     (Some (stored_metadata e
                              (Body (Some c) true (Page.title r) (Page.sourceUrl r) expiration)
                              expiresAt))]> st)).
  { unfold Worker.fetch. cbn [method pathname rq upload_request].
    change (str_eqb (u16 "POST") (u16 "OPTIONS")) with false.
    change (str_eqb (u16 "POST") (u16 "POST") && str_eqb (u16 "/api/upload") (u16 "/api/upload"))
      with true.
    cbv iota. unfold Worker.handleUpload.
    cbn [contentLength json rq upload_request]. rewrite Hdecl.
    cbn [mbind result_bind b_html b_compressed b_expiresIn field_truthy].
    change (default [] (Some c)) with c. rewrite Hct. cbn [negb].
    rewrite Hd, Hexp. cbn [mbind result_bind].
    rewrite Hput, upload_metadata_stored. reflexivity. }
  rewrite Hfetch. cbn [fst snd]. split_and!.
  - intros others. unfold handleCapture. rewrite Hs, Hc'. reflexivity.
  - reflexivity.
  - eexists. split; [reflexivity|]. split; [|reflexivity].
    cbn. rewrite Hu. reflexivity.
  - intros others u Hf [Hok' Hjson]. unfold handleCapture. rewrite Hs, Hc'.
    cbn [negb snd]. fold rq. rewrite Hf. cbn [mbind result_bind].
    rewrite Hok'. cbn. rewrite (Hjson _ eq_refl). now rewrite app_nil_r.
  - intros Hlive.
    destruct (handleServe_stored now' e
                (Body (Some c) true (Page.title r) (Page.sourceUrl r) expiration)
                (DOCTYPE ++ outer) expiresAt st (generateId e)) as [Hserve _].
    assert (Hsrc : header_value_ok
                     (default [] (b_sourceUrl
                        (Body (Some c) true (Page.title r) (Page.sourceUrl r) expiration)))
                   = true) by (cbn; now rewrite Hu).
    destruct (Hserve Hlive Hsrc) as (H1 & H2 & _). split; assumption.
Qed.

Lemma capture_round_trip_witness :
  Page.capturePageSnapshot offline_page = Return offline_capture /\
  exists compressedHtml,
    (handleCapture Codec.stored_gzip (Return (Some [Some offline_capture])) worker_network
       (Some (u16 "200")) (Some (u16 "1h"))).2
    = Return [(u16 "id", VText (Str (u16 "aaaaaaaa")));
              (u16 "url", VText (Str (API_URL ++ u16 "/aaaaaaaa")));
              (u16 "expiresAt", VText (Iso 1700003600000))] /\
    r_body (handleServe 1700000000000 (u16 "aaaaaaaa")
              (Worker.fetch Codec.stored_gunzip env0
                 (upload_request (Some (u16 "200")) compressedHtml offline_capture
                    (Some (u16 "1h"))) ∅).2).1
    = Text (DOCTYPE ++ u16 "<html><head><style></style></head></html>").
Proof.
  assert (Hcap : Page.capturePageSnapshot offline_page = Return offline_capture)
    by (vm_compute; reflexivity).
  split; [exact Hcap|].
  destruct (capture_round_trip Codec.stored_gzip Codec.stored_gunzip offline_page
              offline_capture (DOCTYPE ++ u16 "<html><head><style></style></head></html>")
              env0 ∅ worker_network (Some (u16 "200")) (Some (u16 "1h"))
              (VText (Iso 1700003600000)) 1700000000000
              stored_lossless Hcap eq_refl eq_refl ltac:(discriminate) eq_refl eq_refl
              (fun _ => eq_refl) eq_refl)
    as (c & _ & Hans & _ & Hret & Hserve).
  exists c. split.
  - refine (Hret [] _ eq_refl _). cbn zeta in Hans. rewrite Hans. split.
    + reflexivity.
    + intros fields [= <-]. reflexivity.
  - apply Hserve. right. exists 1700003600000%Z. split; [reflexivity | lia].
Defined.

(** X21. A failed capture uploads nothing. When the script gave no
    result, or a result that is no success, [handleCapture] sends no request
    and throws: the rejection of [executeScript] as it is, or an [Error]
    whose message is not empty (the [error] of the result when it has one);
    the listener replies with that message. *)
Theorem failed_capture_uploads_nothing
    (gzip : list N -> list (list N))
    (executeScript : result (option (list (option Page.CaptureResult))))
    (fetch : request -> result upload_response) (declared expiration : option jsstring) :
  (forall result others,
     executeScript = Return (Some (Some result :: others)) -> Page.success result = false) ->
  exists err,
    handleCapture gzip executeScript fetch declared expiration = ([], Throw err) /\
    onMessage gzip executeScript fetch declared (u16 "capture") expiration
    = Some (Failure (exn_message err)) /\
    (executeScript = Throw err \/
     exists message, err = Error message /\ message <> [] /\
       forall result others, executeScript = Return (Some (Some result :: others)) ->
         truthy (default [] (Page.error result)) = true ->
         Page.error result = Some message).
Proof.
  intros Hfail. unfold onMessage, handleCapture.
  change (str_eqb (u16 "capture") (u16 "capture")) with true. cbv iota.
  destruct executeScript as [[[|[result|] others]|]|err].
  - eexists. split_and!; try reflexivity. right. eexists. split_and!; try reflexivity;
      discriminate.
  - rewrite (Hfail result others eq_refl). cbn [negb].
    eexists. split_and!; try reflexivity. right. eexists. split_and!; try reflexivity.
    + destruct (Page.error result) as [[|c m]|]; discriminate.
    + intros ? ? [= <- _]. destruct (Page.error result) as [[|c m]|]; try discriminate.
      reflexivity.
  - eexists. split_and!; try reflexivity. right. eexists. split_and!; try reflexivity;
      discriminate.
  - eexists. split_and!; try reflexivity. right. eexists. split_and!; try reflexivity;
      discriminate.
  - eexists. split_and!; try reflexivity. now left.
Qed.

Lemma failed_capture_uploads_nothing_witness :
  exists r,
    Page.capturePageSnapshot broken_page = Return r /\
    handleCapture Codec.stored_gzip (Return (Some [Some r])) worker_network None None
    = ([], Throw (Error (u16 "Capture failed"))).
Proof.
  destruct (Page.capturePageSnapshot broken_page) as [r|] eqn:Hcap;
    [|vm_compute in Hcap; discriminate].
  exists r. split; [reflexivity|].
  assert (Hr : Page.success r = false /\ Page.error r = Some (u16 "Capture failed")).
  { vm_compute in Hcap. injection Hcap as <-. split; reflexivity. }
  destruct Hr as [Hs He].
  destruct (failed_capture_uploads_nothing Codec.stored_gzip (Return (Some [Some r]))
              worker_network None None ltac:(intros ? ? [= <- _]; exact Hs))
    as (err & -> & _ & [Hthrow | (message & -> & _ & Hm)]).
  - discriminate.
  - specialize (Hm r [] eq_refl). rewrite He in Hm. specialize (Hm eq_refl).
    injection Hm as <-. reflexivity.
Defined.

End CaptureFacts.

(** ** The history of the popup *)

Section PopupFacts.
Import Popup.

Lemma saveToHistory_take {item : Type} (storage : option (list item)) (i : item) :
  (length (getHistory storage) <= 50)%nat ->
  getHistory (saveToHistory storage i) = take 50 (i :: getHistory storage).
Proof.
  intros Hlen. unfold saveToHistory. cbn [getHistory].
  set (h := getHistory storage) in *.
  destruct (Nat.ltb_spec 50 (length (i :: h))) as [Hlt|Hge].
  - rewrite removelast_firstn_len. cbn [length] in *.
    replace (Nat.pred (S (length h))) with 50%nat by lia. reflexivity.
  - symmetry. apply firstn_all2. exact Hge.
Qed.

(** X22. The history holds the newest fifty entries, newest first. From a
    history of at most fifty entries (an empty storage, a cleared one), after
    any number of calls of [saveToHistory] the history is the first fifty of
    the saved entries in reverse order followed by the former ones. *)
Theorem history_newest_fifty {item : Type} (storage : option (list item))
    (items : list item) :
  (length (getHistory storage) <= 50)%nat ->
  getHistory (fold_left saveToHistory items storage)
  = take 50 (rev items ++ getHistory storage).
Proof.
  revert storage; induction items as [|i items IH]; intros storage Hlen.
  - cbn [fold_left rev app]. symmetry. apply firstn_all2. exact Hlen.
  - cbn [fold_left rev]. rewrite IH.
    + rewrite (saveToHistory_take storage i Hlen), <- app_assoc. cbn [app].
      rewrite !take_app, take_take. f_equal. f_equal. lia.
    + rewrite (saveToHistory_take storage i Hlen), length_take. lia.
Qed.

Lemma history_newest_fifty_witness :
  getHistory (fold_left saveToHistory [1; 2; 3]%nat (clearHistory (Some [7; 8]%nat)))
  = [3; 2; 1]%nat.
Proof.
  exact (history_newest_fifty (clearHistory (Some [7; 8]%nat)) [1; 2; 3]%nat
           ltac:(cbn; lia)).
Defined.

(** X23. What [formatDate] shows is determined by the age of the date, and
    a number it shows is never zero and always below the next unit: minutes
    from 1 to 59, hours from 1 to 23, days from 1 to 6, each the whole
    number of units in the age. A date less than a minute old, or in the
    future, is shown as [Just now]; one a week old or older, or a text that
    is no date, by [toLocaleDateString]. *)
Theorem formatDate_labels (now : Z) (dateStr : Store.text) :
  match formatDate now dateStr with
  | JustNow => exists date, dateStr = Store.Iso date /\ (now - date < 60000)%Z
  | MinutesAgo n =>
      exists date, dateStr = Store.Iso date /\ (1 <= n <= 59)%Z /\
                   (60000 * n <= now - date < 60000 * (n + 1))%Z
  | HoursAgo n =>
      exists date, dateStr = Store.Iso date /\ (1 <= n <= 23)%Z /\
                   (3600000 * n <= now - date < 3600000 * (n + 1))%Z
  | DaysAgo n =>
      exists date, dateStr = Store.Iso date /\ (1 <= n <= 6)%Z /\
                   (86400000 * n <= now - date < 86400000 * (n + 1))%Z
  | LocaleDate (Some date) =>
      dateStr = Store.Iso date /\ (7 * 86400000 <= now - date)%Z
  | LocaleDate None => exists s, dateStr = Store.Str s
  end.
Proof.
  destruct dateStr as [s|date]; cbn [formatDate]; [eauto|].
  cbv zeta.
  destruct (Z.ltb_spec ((now - date) / 60000) 1);
    [|destruct (Z.ltb_spec ((now - date) / 60000) 60);
      [|destruct (Z.ltb_spec ((now - date) / 3600000) 24);
        [|destruct (Z.ltb_spec ((now - date) / 86400000) 7)]]].
  - exists date. split; [reflexivity | lia].
  - exists date. split; [reflexivity | lia].
  - exists date. split; [reflexivity | lia].
  - exists date. split; [reflexivity | lia].
  - split; [reflexivity | lia].
Qed.

End PopupFacts.

(** ** Inline styles *)

Section InlineFacts.
Import Page Dom Inline.

Lemma inline_style_returns (w : world) (attributes : gmap jsstring jsstring) :
  exists attributes',
    inline_style w attributes = Return attributes' /\
    (forall name, name <> u16 "style" -> attributes' !! name = attributes !! name) /\
    (is_Some (attributes' !! u16 "style") <-> is_Some (attributes !! u16 "style")).
Proof.
  unfold inline_style. destruct (attributes !! u16 "style") as [style|] eqn:Hs.
  - destruct (includes (u16 "url") style && truthy style).
    + destruct (processCssUrls_returns w style (location_href w)) as [css ->].
      cbn [mbind result_bind]. eexists. split; [reflexivity|]. split.
      * intros name Hn. now rewrite lookup_insert_ne.
      * rewrite lookup_insert_eq. split; eauto.
    + exists attributes. split_and!; [reflexivity | auto | now rewrite Hs].
  - exists attributes. split_and!; [reflexivity | auto | now rewrite Hs].
Qed.

Lemma inline_node_returns (w : world) (n : node) :
  exists n', inline_node w n = Return n' /\ same_but_style n n'.
Proof.
  induction n as [localName attributes childNodes IH | data] using node_nested_ind.
  - cbn [inline_node].
    destruct (inline_style_returns w attributes) as (attributes' & -> & Hother & Hstyle).
    cbn [mbind result_bind].
    assert (Hc : exists childNodes',
              (fix inline_nodes (l : list node) : result (list node) :=
                 match l with
                 | [] => Return []
                 | c :: l' =>
                     c' ← inline_node w c;
                     l'' ← inline_nodes l';
                     Return (c' :: l'')
                 end) childNodes = Return childNodes' /\
              Forall2 same_but_style childNodes childNodes').
    { induction IH as [|c cs (c' & Hc & Hsame) _ (cs' & Hcs & Hsames)].
      - exists []. split; [reflexivity | constructor].
      - exists (c' :: cs'). rewrite Hc. cbn [mbind result_bind]. rewrite Hcs.
        split; [reflexivity | now constructor]. }
    destruct Hc as (childNodes' & -> & Hsames). cbn [mbind result_bind].
    eexists. split; [reflexivity|]. now constructor.
  - exists (TextNode data). split; [reflexivity | constructor].
Qed.

Lemma same_but_style_sanitized (n n' : node) :
  same_but_style n n' -> every_element sanitized n -> every_element sanitized n'.
Proof.
  revert n'. induction n as [localName attributes childNodes IH | data] using node_nested_ind;
    intros n' Hsame Hn; inversion Hsame as [|? ? attributes' ? childNodes' Hother Hstyle Hcs];
    subst; [|constructor].
  inversion Hn as [|? ? ? (Hs1 & Hs2 & Hattr) Hc]; subst. constructor.
  - split_and!; try assumption. intros name value Hl.
    destruct (decide (name = u16 "style")) as [->|Hne].
    + split; [reflexivity | discriminate].
    + rewrite (Hother name Hne) in Hl. exact (Hattr name value Hl).
  - clear Hn Hsame Hother Hstyle Hattr. revert childNodes' Hcs Hc.
    induction IH as [|c cs Hc1 _ IHcs]; intros cs' Hcs Hc; inversion Hcs; subst;
      [constructor|].
    inversion Hc; subst. constructor; [now apply Hc1 | now apply IHcs].
Qed.

(** X25. [processInlineBackgrounds] cannot fail, and it changes nothing
    but the values of [style] attributes: the elements, their order, their
    text and every other attribute stay. So it keeps what [removeScripts]
    established: a document without scripts, event handlers and
    [javascript:] links is still one afterwards. *)
Theorem processInlineBackgrounds_styles_only (w : world) (doc : list node) :
  exists doc',
    processInlineBackgrounds w doc = Return doc' /\
    Forall2 same_but_style doc doc' /\
    (Forall (every_element sanitized) doc -> Forall (every_element sanitized) doc') /\
    exists doc'',
      processInlineBackgrounds w (removeScripts doc) = Return doc'' /\
      Forall (every_element sanitized) doc''.
Proof.
  assert (H : forall doc, exists doc',
            processInlineBackgrounds w doc = Return doc' /\
            Forall2 same_but_style doc doc' /\
            (Forall (every_element sanitized) doc -> Forall (every_element sanitized) doc')).
  { clear doc. induction doc as [|n doc (doc' & Hdoc & Hsames & Hsan)].
    - exists []. split_and!; [reflexivity | constructor | auto].
    - destruct (inline_node_returns w n) as (n' & Hn & Hsame).
      exists (n' :: doc'). cbn [processInlineBackgrounds]. rewrite Hn.
      cbn [mbind result_bind]. rewrite Hdoc. split_and!.
      + reflexivity.
      + now constructor.
      + intros Hall. inversion Hall; subst.
        constructor; [now apply (same_but_style_sanitized n) | auto]. }
  destruct (H doc) as (doc' & Hdoc & Hsames & Hsan).
  exists doc'. split_and!; try assumption.
  destruct (H (removeScripts doc)) as (doc'' & Hdoc'' & _ & Hsan'').
  exists doc''. split; [assumption|]. apply Hsan'', removeScripts_nodes.
Qed.

(** On the example page, the background of the paragraph is inlined and
    its other attribute stays. *)
Lemma processInlineBackgrounds_styled_document :
  processInlineBackgrounds (page true) styled_document
  = Return [Element (u16 "p")
              {[ u16 "style" := u16 "background:url(" ++ dquote
                                ++ u16 "data:image/png;base64,AQID" ++ dquote ++ u16 ")";
                 u16 "onclick" := u16 "f()" ]}
              [TextNode (u16 "x")]].
Proof. vm_compute. reflexivity. Qed.

End InlineFacts.

(** ** The two revisions of the worker *)

Section WorkerRevisions.
Import Store.

Lemma declared_too_large_mono (m1 m2 : Z) (contentLength : option jsstring) :
  (m1 <= m2)%Z ->
  declared_too_large m1 contentLength = false ->
  declared_too_large m2 contentLength = false.
Proof.
  unfold declared_too_large. intros Hle. destruct contentLength as [h|]; [|auto].
  destruct (truthy h); [|auto]. cbn [andb].
  destruct (parseInt h None) as [n|]; [|auto].
  intros H. apply Z.ltb_ge in H. apply Z.ltb_ge. lia.
Qed.

(** X24. The decompressing worker is the plain worker on what the plain
    worker accepts. For a request whose declared length and whose page are
    within the ten megabytes of the plain worker and whose body is not
    marked [compressed], whatever else it is (an upload, a read, anything),
    the two revisions give the same answer and leave the same bucket. *)
Theorem workers_agree (gunzip : list N -> result (list (list N)))
    (e : env) (request : request) (st : gmap jsstring object) :
  declared_too_large WorkerPlain.MAX_SIZE (contentLength request) = false ->
  (forall b, json request = Return b ->
     b_compressed b = false /\
     (Z.of_nat (length (Encoding.encode (default [] (b_html b)))) <= WorkerPlain.MAX_SIZE)%Z) ->
  Worker.fetch gunzip e request st = WorkerPlain.fetch e request st.
Proof.
  intros Hdecl Hbody. unfold Worker.fetch, WorkerPlain.fetch.
  destruct (str_eqb (method request) (u16 "OPTIONS")); [reflexivity|].
  destruct (str_eqb (method request) (u16 "POST")
            && str_eqb (pathname request) (u16 "/api/upload")); [|reflexivity].
  unfold Worker.handleUpload, WorkerPlain.handleUpload.
  rewrite Hdecl, (declared_too_large_mono WorkerPlain.MAX_SIZE Worker.MAX_SIZE _
                    ltac:(unfold WorkerPlain.MAX_SIZE, Worker.MAX_SIZE; lia) Hdecl).
  destruct (json request) as [b|err]; [|reflexivity].
  destruct (Hbody b eq_refl) as [Hc Hsize]. cbn [mbind result_bind].
  destruct (negb (field_truthy (b_html b))); [reflexivity|].
  rewrite Hc. apply Z.ltb_ge in Hsize. rewrite Hsize. reflexivity.
Qed.

Lemma workers_agree_witness :
  Worker.fetch Codec.stored_gunzip env0 (titled_upload (Some (u16 "t"))) ∅
  = WorkerPlain.fetch env0 (titled_upload (Some (u16 "t"))) ∅.
Proof.
  apply workers_agree; [reflexivity|].
  intros b [= <-]. split; [reflexivity|]. vm_compute. discriminate.
Defined.

End WorkerRevisions.

